(** * Shelley: a shallow embedding of the conversation store, the sequenced
    bus and the external-agent stream adapter, with the properties of the
    specification stated and proved over it.

    Conventions.  A Go [string] that is only ever compared, stored or
    concatenated is a Rocq [string] (a sequence of bytes).  Where the code
    ranges over the runes of a string (the slug normaliser) the string is the
    list of its runes, each a [Z].  Go's [int64] values that the code only
    increments from small constants are [Z].  Functions that return
    [(value, error)] return a [result]. *)

From Stdlib Require Import ZArith List String Ascii Bool Lia Permutation.
From Stdlib Require Import Sorting.Sorted DecimalString DecimalNat.
From stdpp Require Import base option list gmap strings.
Import ListNotations.
Local Open Scope Z_scope.

(** Go's [(T, error)] results. *)
Inductive result (A : Type) : Type :=
| Ok (a : A)
| Err (e : string).
Arguments Ok {A} a.
Arguments Err {A} e.

(* ===================================================================== *)
(** * Slug normalisation ([ccDescriptionToSlug])                          *)
(* ===================================================================== *)

Module Slug.

(** A rune is a Unicode code point. *)
Definition rune := Z.

Definition rune_of (c : ascii) : rune := Z.of_N (N_of_ascii c).

(** The runes of an ASCII literal (every byte below 0x80 is its own rune). *)
Definition runes (s : string) : list rune := map rune_of (list_ascii_of_string s).

Definition between (lo hi : ascii) (r : rune) : bool :=
  (rune_of lo <=? r) && (r <=? rune_of hi).

Definition isRune (c : ascii) (r : rune) : bool := r =? rune_of c.

Definition dash : rune := rune_of "-".

Section WithCaseTable.

(** Go's [unicode.ToLower] on the runes from 0x80 upwards is a lookup in the
    case tables of package [unicode]; the table is a parameter of the model. *)
Variable caseTable : rune -> rune.

(** [unicode.ToLower]: below 0x80 only 'A'..'Z' move, by 'a' - 'A'. *)
Definition unicode_ToLower (r : rune) : rune :=
  if r <? 128 then
    (if between "A" "Z" r then r + (rune_of "a" - rune_of "A") else r)
  else caseTable r.

(** [strings.ToLower]: [unicode.ToLower] on every rune. *)
Definition strings_ToLower (s : list rune) : list rune := map unicode_ToLower s.

(** One iteration of the [for _, r := range ...] loop: the [switch] on [r],
    writing to the builder [b]. *)
Definition writeSlugRune (b : list rune) (r : rune) : list rune :=
  if between "a" "z" r || between "0" "9" r || isRune "-" r then b ++ [r]
  else if isRune " " r || isRune "_" r then b ++ [dash]
  else b.

(** [strings.Contains(s, "--")]. *)
Fixpoint Contains_dashdash (s : list rune) : bool :=
  match s with
  | [] => false
  | a :: s' =>
      match s' with
      | [] => false
      | b :: _ => ((a =? dash) && (b =? dash)) || Contains_dashdash s'
      end
  end.

(** [strings.ReplaceAll(s, "--", "-")]: the non-overlapping occurrences of
    "--", found from the left, each become "-". *)
Fixpoint ReplaceAll_dashdash (s : list rune) : list rune :=
  match s with
  | [] => []
  | a :: s' =>
      match s' with
      | [] => [a]
      | b :: t =>
          if (a =? dash) && (b =? dash) then dash :: ReplaceAll_dashdash t
          else a :: ReplaceAll_dashdash s'
      end
  end.

(** [for strings.Contains(s, "--") { s = strings.ReplaceAll(s, "--", "-") }],
    with the number of iterations bounded by [fuel]. *)
Fixpoint collapseLoop (fuel : nat) (s : list rune) : list rune :=
  match fuel with
  | O => s
  | S fuel' =>
      if Contains_dashdash s then collapseLoop fuel' (ReplaceAll_dashdash s)
      else s
  end.

(** [strings.Trim(s, "-")] goes through [trimLeftByte(trimRightByte(s, c), c)]. *)
Fixpoint trimLeftByte (s : list rune) (c : rune) : list rune :=
  match s with
  | [] => []
  | a :: s' => if a =? c then trimLeftByte s' c else s
  end.

Definition trimRightByte (s : list rune) (c : rune) : list rune :=
  rev (trimLeftByte (rev s) c).

Definition strings_Trim_dash (s : list rune) : list rune :=
  trimLeftByte (trimRightByte s dash) dash.

(** [if len(s) > 40 { s = s[:40] }]. *)
Definition truncate40 (s : list rune) : list rune :=
  if (40 <? Z.of_nat (length s)) then firstn 40 s else s.

Definition ccDescriptionToSlug (description : list rune) : list rune :=
  let b := fold_left writeSlugRune (strings_ToLower description) [] in
  let s := collapseLoop (length b) b in
  let s := strings_Trim_dash s in
  truncate40 s.

(** ** The normaliser as the specification words it *)

(** keep [a-z0-9-], turn ' ' and '_' into '-', drop every other character. *)
Definition keepOrDash (r : rune) : list rune :=
  if between "a" "z" r || between "0" "9" r || isRune "-" r then [r]
  else if isRune " " r || isRune "_" r then [dash]
  else [].

(** every run of consecutive '-' becomes a single '-'. *)
Fixpoint collapseRuns (s : list rune) : list rune :=
  match s with
  | [] => []
  | a :: s' =>
      match s' with
      | [] => [a]
      | b :: _ =>
          if (a =? dash) && (b =? dash) then collapseRuns s'
          else a :: collapseRuns s'
      end
  end.

(** the leading and the trailing '-' are removed. *)
Definition dropDashes (s : list rune) : list rune :=
  rev (trimLeftByte (rev (trimLeftByte s dash)) dash).

Definition slugSpec (description : list rune) : list rune :=
  firstn 40 (dropDashes (collapseRuns (flat_map keepOrDash (map unicode_ToLower description)))).

End WithCaseTable.

(** ** The alphabet of a slug, and what the normaliser leaves of it *)

Definition slugRune (r : rune) : bool :=
  between "a" "z" r || between "0" "9" r || isRune "-" r.

Definition slugText (s : list rune) : Prop := Forall (fun r => slugRune r = true) s.

(** ** Inputs the properties are stated on *)

(** The inputs of [TestCCDescriptionToSlug]. *)
Definition longDescription : list rune :=
  runes "A very long description that exceeds the maximum allowed length for slugs".

(** An input whose slug is cut by the truncation just after a '-'. *)
Definition cutAfterDash : list rune :=
  runes "aaaaaaaaaaaaaaaaaaaaaaaaaaaaaaaaaaaaaaa-b".

End Slug.

(* ===================================================================== *)
(** * The "is the agent working?" computation ([agentWorking])            *)
(* ===================================================================== *)

Module AgentWorking.

(** The message types of package [db] ([MessageTypeUser] and the others). *)
Definition MessageTypeUser : string := "user".
Definition MessageTypeAgent : string := "agent".
Definition MessageTypeTool : string := "tool".
Definition MessageTypeSystem : string := "system".
Definition MessageTypeError : string := "error".
Definition MessageTypeGitInfo : string := "gitinfo".

(** The two fields of [APIMessage] the computation reads: [Type] is a string,
    [EndOfTurn] a [*bool] ([None] is the nil pointer). *)
Record APIMessage : Type := {
  Type_ : string;
  EndOfTurn : option bool
}.

Definition isType (t : string) (m : APIMessage) : bool := String.eqb (Type_ m) t.

(** Strip the trailing [gitinfo] entries: walk back from the end of the list. *)
Fixpoint dropLeadingGitInfo (ms : list APIMessage) : list APIMessage :=
  match ms with
  | [] => []
  | m :: ms' => if isType MessageTypeGitInfo m then dropLeadingGitInfo ms' else ms
  end.

Definition stripTrailingGitInfo (ms : list APIMessage) : list APIMessage :=
  rev (dropLeadingGitInfo (rev ms)).

(** Modelled from the spec: the function [agentWorking] of package [server],
    of which the sources hold only the test. "Given an ordered list of
    messages, strip trailing gitinfo entries, then: if empty, not working;
    otherwise if the last remaining message is type agent with an explicit
    end-of-turn flag true, not working; if the last remaining is type error,
    not working; in all other cases, working." The test reads the result
    through a pointer that is never nil; the model returns the boolean. *)
Definition agentWorking (messages : list APIMessage) : bool :=
  match rev (stripTrailingGitInfo messages) with
  | [] => false
  | lastMsg :: _ =>
      if isType MessageTypeAgent lastMsg then
        match EndOfTurn lastMsg with
        | Some true => false
        | _ => true
        end
      else if isType MessageTypeError lastMsg then false
      else true
  end.

(** The decision read off one message: what the list answers when this message
    is the last one that is not a [gitinfo]. *)
Definition endsTurn (m : APIMessage) : bool :=
  (isType MessageTypeAgent m && match EndOfTurn m with Some true => true | _ => false end)
  || isType MessageTypeError m.

Definition truePtr : option bool := Some true.
Definition falsePtr : option bool := Some false.
Definition msg (t : string) (eot : option bool) : APIMessage :=
  {| Type_ := t; EndOfTurn := eot |}.

(** The table of [TestAgentWorking]: the messages and the wanted answer. *)
Definition testTable : list (list APIMessage * bool) :=
  [ ([], false);
    ([msg MessageTypeAgent truePtr], false);
    ([msg MessageTypeAgent falsePtr], true);
    ([msg MessageTypeAgent None], true);
    ([msg MessageTypeError None], false);
    ([msg MessageTypeAgent truePtr; msg MessageTypeTool None], true);
    ([msg MessageTypeAgent truePtr; msg MessageTypeGitInfo None], false);
    ([msg MessageTypeAgent truePtr; msg MessageTypeGitInfo None; msg MessageTypeGitInfo None], false);
    ([msg MessageTypeAgent falsePtr; msg MessageTypeGitInfo None], true);
    ([msg MessageTypeGitInfo None; msg MessageTypeGitInfo None], false) ].

End AgentWorking.

(* ===================================================================== *)
(** * The sequenced pub/sub bus ([subpub.SubPub])                         *)
(* ===================================================================== *)

Module SubPub.

Section Bus.

(** The payload type ([SubPub[K]]). *)
Variable K : Type.

Definition bufferSlots : nat := 10.

(** Modelled from the spec: package [subpub] ([New], [Subscribe], [Publish]),
    of which the sources hold only the tests. "publish(sequence_id, payload)
    delivers payload to every currently-attached subscriber whose last-seen
    sequence ID is strictly less than sequence_id"; "each subscriber has a
    bounded per-consumer buffer (10 slots). On publish, if a subscriber's
    buffer is full, that subscriber is evicted: its buffer is closed so
    ok=false becomes observable"; a pull "returns [the payload] and advances
    the subscriber's cursor". The buffer is a Go channel: what was buffered
    before the close is still received after it. Publisher and subscriber run
    one after the other in the scenarios stated here, so a pull on an empty
    open buffer, which would block, is its own outcome; the subscriber's
    context is never cancelled in them and is not part of the state. *)
Record subscriber : Type := {
  lastSeen : Z;               (* the cursor *)
  buffer : list (Z * K);      (* buffered (sequence, payload), oldest first *)
  evicted : bool              (* the buffer is closed, the subscriber detached *)
}.

(** The bus: its subscribers in the order they subscribed; a subscriber is
    named by its position. *)
Local Abbreviation bus := (list subscriber).

Definition New : bus := [].

(** [Subscribe(ctx, lastSeen)]: the new subscriber is attached with an empty
    buffer; the pull function it returns is [pull] at the returned position. *)
Definition Subscribe (last_seen : Z) (b : bus) : bus * nat :=
  (b ++ [{| lastSeen := last_seen; buffer := []; evicted := false |}], length b).

(** Modelled from the spec: what [Publish] does to one subscriber. An evicted
    subscriber is no longer attached; one whose cursor is below the sequence
    ID gets the payload into its buffer, or is evicted when the buffer is
    full. *)
Definition deliver (sequence_id : Z) (payload : K) (s : subscriber) : subscriber :=
  if evicted s then s
  else if lastSeen s <? sequence_id then
    if (length (buffer s) <? bufferSlots)%nat then
      {| lastSeen := lastSeen s;
         buffer := buffer s ++ [(sequence_id, payload)];
         evicted := false |}
    else
      {| lastSeen := lastSeen s; buffer := buffer s; evicted := true |}
  else s.

Definition Publish (sequence_id : Z) (payload : K) (b : bus) : bus :=
  deliver sequence_id payload <$> b.

(** Modelled from the spec: the outcome of one call of the pull function
    [Subscribe] returns. *)
Inductive pulled : Type :=
| Payload (payload : K)      (* (payload, true) *)
| NotOk                      (* (zero value, false) *)
| WouldBlock.                (* nothing buffered and the buffer still open *)

(** Modelled from the spec: one call of the pull function. The oldest
    buffered payload is returned and the cursor advanced to its sequence ID;
    with nothing buffered the call returns ok=false once the buffer is closed. *)
Definition pullSubscriber (s : subscriber) : pulled * subscriber :=
  match buffer s with
  | (sequence_id, payload) :: rest =>
      (Payload payload,
       {| lastSeen := sequence_id; buffer := rest; evicted := evicted s |})
  | [] => (if evicted s then NotOk else WouldBlock, s)
  end.

Definition pull (i : nat) (b : bus) : pulled * bus :=
  match b !! i with
  | Some s => let '(r, s') := pullSubscriber s in (r, <[i := s']> b)
  | None => (NotOk, b)
  end.

(** [n] successive pulls of subscriber [i]: what each returned, and the bus. *)
Fixpoint pulls (n : nat) (i : nat) (b : bus) : list pulled * bus :=
  match n with
  | O => ([], b)
  | S n' =>
      let '(r, b') := pull i b in
      let '(rs, b'') := pulls n' i b' in
      (r :: rs, b'')
  end.

(** Publish the payloads [ps] with the sequence IDs [first], [first + 1], ... *)
Fixpoint publishFrom (first : Z) (ps : list K) (b : bus) : bus :=
  match ps with
  | [] => b
  | p :: ps' => publishFrom (first + 1) ps' (Publish first p b)
  end.

Fixpoint deliverFrom (first : Z) (ps : list K) (s : subscriber) : subscriber :=
  match ps with
  | [] => s
  | p :: ps' => deliverFrom (first + 1) ps' (deliver first p s)
  end.

(** Successive pulls of one subscriber, read off that subscriber alone. *)
Fixpoint pullsSubscriber (n : nat) (s : subscriber) : list pulled * subscriber :=
  match n with
  | O => ([], s)
  | S n' =>
      let '(r, s') := pullSubscriber s in
      let '(rs, s'') := pullsSubscriber n' s' in
      (r :: rs, s'')
  end.

End Bus.

Arguments Payload {K} payload.
Arguments NotOk {K}.
Arguments WouldBlock {K}.
Arguments lastSeen {K} s.
Arguments buffer {K} s.
Arguments evicted {K} s.

(** The run of [TestSubPubSubscriberDisconnected]. *)
Definition testPayloads : list string :=
  [ "message1"; "message2"; "message3"; "message4"; "message5"; "message6";
    "message7"; "message8"; "message9"; "message10"; "message11" ]%string.

End SubPub.

(* ===================================================================== *)
(** * The message store (package [db])                                    *)
(* ===================================================================== *)

Module DB.

(** Modelled from the spec: [pool.Tx] of the connection pool, which is not
    among the sources. "Write scope (transactional) -- acquires the single
    writer connection, begins a transaction, runs the caller's closure,
    commits on nil return, rolls back on any non-nil return." The pool's own
    failures (a cancelled context, a busy writer) leave the database as it was
    and are not part of the model. *)
Definition Tx {S A : Type} (fn : S -> S * result A) (db : S) : S * result A :=
  match fn db with
  | (db', Ok a) => (db', Ok a)
  | (_, Err e) => (db, Err e)
  end.

(** ** [CreateMessage] *)

(** A row of table [messages] ([generated.Message]) without its timestamp. *)
Record Message : Type := {
  MessageID : string;
  ConversationID : string;
  SequenceID : Z;
  Type_ : string;
  LlmData : option string;
  UserData : option string;
  UsageData : option string;
  DisplayData : option string
}.

(** The database as [CreateMessage] sees it: the conversations that exist and
    the rows of [messages] in the order they were inserted. *)
Record Store : Type := {
  conversations : list string;
  messages : list Message
}.

(** The sequence IDs of the messages of one conversation, in insertion order. *)
Definition seqIDs (conversationID : string) (ms : list Message) : list Z :=
  map SequenceID (List.filter (fun m => String.eqb (ConversationID m) conversationID) ms).

Definition maximum (x : Z) (l : list Z) : Z := fold_left Z.max l x.

(** Modelled from the spec: the query [GetNextSequenceID] of the generated
    package, which is not among the sources. "sequence_id is assigned by the
    store inside the same transaction that inserts the row, equal to
    max(existing)+1 or 1." *)
Definition GetNextSequenceID (conversationID : string) (tx : Store) : result Z :=
  match seqIDs conversationID (messages tx) with
  | [] => Ok 1
  | x :: l => Ok (maximum x l + 1)
  end.

(** Modelled from the spec: the query [CreateMessage] of the generated package
    (INSERT ... RETURNING), which is not among the sources. The row is added
    unless a constraint fails: the conversation must exist ("inserting a
    message with an unknown conversation ID fails with a constraint violation
    containing FOREIGN KEY") and the message ID must be new ("collisions
    surface as constraint violations"). No constraint on the pair
    (conversation_id, sequence_id) is assumed here: that the pairs stay
    distinct is proved from the way the sequence ID is chosen. *)
Definition q_CreateMessage (row : Message) (tx : Store) : Store * result Message :=
  if negb (existsb (String.eqb (ConversationID row)) (conversations tx)) then
    (tx, Err "constraint failed: FOREIGN KEY constraint failed")
  else if existsb (fun m => String.eqb (MessageID m) (MessageID row)) (messages tx) then
    (tx, Err "constraint failed: UNIQUE constraint failed: messages.message_id")
  else
    ({| conversations := conversations tx; messages := messages tx ++ [row] |}, Ok row).

Section CreateMessage.

(** The payloads are Go values ([interface{}]); [json.Marshal] turns one into
    its JSON text or fails. *)
Variable Payload : Type.
Variable json_Marshal : Payload -> result string.

Record CreateMessageParams : Type := {
  p_ConversationID : string;
  p_Type : string;
  p_LLMData : option Payload;
  p_UserData : option Payload;
  p_UsageData : option Payload;
  p_DisplayData : option Payload
}.

(** [if params.X != nil { data, err := json.Marshal(params.X); ... }] *)
Definition marshalField (what : string) (data : option Payload) : result (option string) :=
  match data with
  | None => Ok None
  | Some d =>
      match json_Marshal d with
      | Ok str => Ok (Some str)
      | Err e => Err ("failed to marshal " +:+ what +:+ " data: " +:+ e)
      end
  end.

(** The closure [CreateMessage] hands to [pool.Tx]. *)
Definition createMessageTx (messageID : string) (params : CreateMessageParams)
    (llm user usage display : option string) (tx : Store) : Store * result Message :=
  match GetNextSequenceID (p_ConversationID params) tx with
  | Err e => (tx, Err ("failed to get next sequence ID: " +:+ e))
  | Ok sequenceID =>
      q_CreateMessage
        {| MessageID := messageID;
           ConversationID := p_ConversationID params;
           SequenceID := sequenceID;
           Type_ := p_Type params;
           LlmData := llm;
           UserData := user;
           UsageData := usage;
           DisplayData := display |} tx
  end.

(** [CreateMessage]; [messageID] is what [uuid.New().String()] returns. *)
Definition CreateMessage (messageID : string) (params : CreateMessageParams)
    (db : Store) : Store * result Message :=
  match marshalField "LLM" (p_LLMData params) with
  | Err e => (db, Err e)
  | Ok llmDataJSON =>
  match marshalField "user" (p_UserData params) with
  | Err e => (db, Err e)
  | Ok userDataJSON =>
  match marshalField "usage" (p_UsageData params) with
  | Err e => (db, Err e)
  | Ok usageDataJSON =>
  match marshalField "display" (p_DisplayData params) with
  | Err e => (db, Err e)
  | Ok displayDataJSON =>
      Tx (createMessageTx messageID params
            llmDataJSON userDataJSON usageDataJSON displayDataJSON) db
  end end end end.

(** All four fields of the parameters marshal. *)
Definition marshals (params : CreateMessageParams) : bool :=
  match marshalField "LLM" (p_LLMData params), marshalField "user" (p_UserData params),
        marshalField "usage" (p_UsageData params),
        marshalField "display" (p_DisplayData params) with
  | Ok _, Ok _, Ok _, Ok _ => true
  | _, _, _, _ => false
  end.

(** A run of [CreateMessage] calls, each with its message ID; the messages
    created, in order. *)
Fixpoint createAll (calls : list (string * CreateMessageParams)) (db : Store)
  : Store * list Message :=
  match calls with
  | [] => (db, [])
  | (messageID, params) :: calls' =>
      match CreateMessage messageID params db with
      | (db', Ok m) => let '(db'', ms) := createAll calls' db' in (db'', m :: ms)
      | (db', Err _) => createAll calls' db'
      end
  end.

End CreateMessage.

(** The invariants of the store the claim names. *)
Definition pairsUnique (ms : list Message) : Prop :=
  NoDup (map (fun m => (ConversationID m, SequenceID m)) ms).

Definition increasing (ms : list Message) : Prop :=
  forall conversationID, StronglySorted Z.lt (seqIDs conversationID ms).

(** ** [Migrate] *)

Definition isDigit (c : ascii) : bool :=
  (48 <=? Z.of_nat (nat_of_ascii c)) && (Z.of_nat (nat_of_ascii c) <=? 57).

Definition newline : ascii := ascii_of_nat 10.

(** The tail [.*\.sql$] of the pattern: [.] is any character but a newline,
    [$] the end of the text; either the rest is ".sql" or the star takes one
    more character. *)
Fixpoint matchesTail (rest : string) : bool :=
  String.eqb rest ".sql" ||
  match rest with
  | EmptyString => false
  | String c rest' => negb (Ascii.eqb c newline) && matchesTail rest'
  end.

(** [migrationPattern.FindStringSubmatch(name)] for the pattern
    [^(\d{3})-.*\.sql$]: nothing when the name does not match, else the match
    (the whole name) and its one group (the three digits). *)
Definition FindStringSubmatch (name : string) : list string :=
  match name with
  | String d1 (String d2 (String d3 (String sep rest))) =>
      if isDigit d1 && isDigit d2 && isDigit d3 && Ascii.eqb sep "-" && matchesTail rest
      then [name; String d1 (String d2 (String d3 EmptyString))]
      else []
  | _ => []
  end.

(** [migrationPattern.MatchString(name)]. *)
Definition MatchString (name : string) : bool :=
  match FindStringSubmatch name with
  | [] => false
  | _ :: _ => true
  end.

Fixpoint digitsValue (s : string) (acc : Z) : option Z :=
  match s with
  | EmptyString => Some acc
  | String c s' =>
      if isDigit c then digitsValue s' (10 * acc + (Z.of_nat (nat_of_ascii c) - 48))
      else None
  end.

(** [strconv.Atoi]: an optional sign, then decimal digits; the value must fit
    Go's 64-bit [int]. *)
Definition Atoi (s : string) : result Z :=
  match s with
  | EmptyString => Err "strconv.Atoi: invalid syntax"
  | String c s' =>
      let signed := Ascii.eqb c "+" || Ascii.eqb c "-" in
      let body := if signed then s' else s in
      match body with
      | EmptyString => Err "strconv.Atoi: invalid syntax"
      | String _ _ =>
          match digitsValue body 0 with
          | None => Err "strconv.Atoi: invalid syntax"
          | Some v =>
              let v := if Ascii.eqb c "-" then - v else v in
              if (- 2 ^ 63 <=? v) && (v <? 2 ^ 63) then Ok v
              else Err "strconv.Atoi: value out of range"
          end
      end
  end.

(** [sort.Strings]: the names in increasing byte-wise order. *)
Fixpoint insertSorted (x : string) (l : list string) : list string :=
  match l with
  | [] => [x]
  | y :: l' => if String.leb x y then x :: l else y :: insertSorted x l'
  end.

Fixpoint sort_Strings (l : list string) : list string :=
  match l with
  | [] => []
  | x :: l' => insertSorted x (sort_Strings l')
  end.

(** An entry of the embedded directory [schema]. *)
Record DirEntry : Type := {
  Name : string;
  IsDir : bool;
  Content : string
}.

Definition inZ (n : Z) (l : list Z) : bool := existsb (Z.eqb n) l.

(** The migration files in the order [Migrate] walks them: of the entries of
    the directory, those that are no directories and whose names match the
    pattern, sorted. *)
Definition migrationFiles (entries : list DirEntry) : list string :=
  sort_Strings
    (map Name (List.filter (fun e => negb (IsDir e) && MatchString (Name e)) entries)).

(** What [Migrate] logs with [slog.Info]: "migrations table not found,
    running all migrations", and "running migration" with the file (and the
    number parsed from its name). *)
Inductive Info : Type :=
| TableNotFound
| RunningMigration (file : string).

(** The error of a read: [sql.ErrNoRows], or any other with its text. *)
Inductive RxError : Type :=
| ErrNoRows
| OtherError (text : string).

Definition errorText (err : RxError) : string :=
  match err with
  | ErrNoRows => "sql: no rows in result set"
  | OtherError text => text
  end.

(** What goes wrong with the two reads of [Migrate] for a reason that is not
    in the database (no reader connection, a context that is done, a failing
    disk): the error of the first read and of the second, if any. Neither is
    [sql.ErrNoRows]. *)
Record Faults : Type := {
  lookupFault : option string;
  loadFault : option string
}.

Definition noFaults : Faults := {| lookupFault := None; loadFault := None |}.

Section Migrate.

(** Everything in the database but the table [migrations]. *)
Variable Schema : Type.

(** The database: the table [migrations] is absent ([None]) or holds its rows
    (migration_number, migration_name). *)
Record Database : Type := {
  schema : Schema;
  migrationsTable : option (list (Z * string))
}.

(** The file system embedded by [//go:embed schema/*.sql]: the entries of its
    directory [schema], or the error of reading that directory. Only some of
    the files are among the sources. *)
Variable schemaFS : result (list DirEntry).

(** [pool.Exec(ctx, sql)] on the text of a migration file. The pool is not
    among the sources; by the specification its exec "wraps a write scope
    around one statement" and a write scope "rolls back on any non-nil
    return", so on an error the database is as before. *)
Variable exec_sql : string -> Database -> result Database.

(** Whether the constraints of table [migrations] admit one more row; its
    CREATE TABLE statement is not among the sources. *)
Variable insertAllowed : list (Z * string) -> Z -> string -> bool.

(** [schemaFS.ReadDir("schema")]. *)
Definition ReadDir : result (list DirEntry) := schemaFS.

(** [schemaFS.ReadFile("schema/" + filename)]. *)
Definition ReadFile (filename : string) : result string :=
  match schemaFS with
  | Err e => Err e
  | Ok entries =>
      match List.find (fun e => String.eqb (Name e) filename && negb (IsDir e)) entries with
      | Some e => Ok (Content e)
      | None => Err ("open schema/" +:+ filename +:+ ": file does not exist")
      end
  end.

Definition executeMigration (filename : string) (db : Database) : result Database :=
  match ReadFile filename with
  | Err e => Err ("failed to read migration file " +:+ filename +:+ ": " +:+ e)
  | Ok content =>
      match exec_sql content db with
      | Err e => Err ("failed to execute migration " +:+ filename +:+ ": " +:+ e)
      | Ok db' => Ok db'
      end
  end.

(** [INSERT INTO migrations (migration_number, migration_name) VALUES (?, ?)]. *)
Definition insertMigration (migrationNumber : Z) (migration : string) (db : Database)
  : result Database :=
  match migrationsTable db with
  | None => Err "no such table: migrations"
  | Some rows =>
      if insertAllowed rows migrationNumber migration then
        Ok {| schema := schema db;
              migrationsTable := Some (rows ++ [(migrationNumber, migration)]) |}
      else Err "constraint failed"
  end.

(** Modelled from the spec: [pool.Rx] of the connection pool, which is not
    among the sources. "Read scope -- acquires one of N reader connections,
    runs the caller's closure with a read-capable handle, releases on
    return." With a fault the read returns its error; else it returns what
    the closure returns. *)
Definition Rx {A : Type} (fault : option string) (fn : Database -> RxError + A)
    (db : Database) : RxError + A :=
  match fault with
  | Some e => inl (OtherError e)
  | None => fn db
  end.

(** The closure of the first read:
    [SELECT name FROM sqlite_master WHERE type='table' AND name='migrations']
    and [row.Scan(&tableName)], which returns [sql.ErrNoRows] when no row is
    found. *)
Definition scanTableName (db : Database) : RxError + string :=
  match migrationsTable db with
  | Some _ => inr "migrations"%string
  | None => inl ErrNoRows
  end.

(** The closure of the second read: [SELECT migration_number FROM migrations]
    and the loop over its rows. *)
Definition scanMigrationNumbers (db : Database) : RxError + list Z :=
  match migrationsTable db with
  | Some rows => inr (map fst rows)
  | None => inl (OtherError "failed to query executed migrations: no such table: migrations")
  end.

(** The loop over the sorted migrations; [executedMigrations] holds the keys
    of the map. The result is the database, the files announced by
    [slog.Info("running migration", ...)] in order, and the error returned,
    if any. *)
Fixpoint runMigrations (executedMigrations : list Z) (migrations : list string)
    (db : Database) : Database * list string * option string :=
  match migrations with
  | [] => (db, [], None)
  | migration :: rest =>
      match FindStringSubmatch migration with
      | [_; digits] =>
          match Atoi digits with
          | Err e =>
              (db, [], Some ("failed to parse migration number from " +:+ migration +:+ ": " +:+ e))
          | Ok migrationNumber =>
              if negb (inZ migrationNumber executedMigrations) then
                match executeMigration migration db with
                | Err e =>
                    (db, [migration],
                     Some ("failed to execute migration " +:+ migration +:+ ": " +:+ e))
                | Ok db1 =>
                    match insertMigration migrationNumber migration db1 with
                    | Err e =>
                        (db1, [migration],
                         Some ("failed to record migration " +:+ migration
                               +:+ " in migrations table: " +:+ e))
                    | Ok db2 =>
                        let '(db', ran, err) := runMigrations executedMigrations rest db2 in
                        (db', migration :: ran, err)
                    end
                end
              else runMigrations executedMigrations rest db
          end
      | _ => (db, [], Some ("invalid migration filename format: " +:+ migration))
      end
  end.

(** [Migrate]: the database it leaves, what it logs, and the error it
    returns, if any. *)
Definition Migrate (faults : Faults) (db : Database)
  : Database * list Info * option string :=
  match ReadDir with
  | Err e => (db, [], Some ("failed to read schema directory: " +:+ e))
  | Ok entries =>
      let migrations := migrationFiles entries in
      let loop (logged : list Info) (executedMigrations : list Z) :=
        let '(db', ran, err) := runMigrations executedMigrations migrations db in
        (db', logged ++ map RunningMigration ran, err) in
      match Rx (lookupFault faults) scanTableName db with
      | inr _ =>
          match Rx (loadFault faults) scanMigrationNumbers db with
          | inr executedMigrations => loop [] executedMigrations
          | inl err =>
              (db, [], Some ("failed to load executed migrations: " +:+ errorText err))
          end
      | inl ErrNoRows => loop [] []
      | inl (OtherError _) => loop [TableNotFound] []
      end
  end.

(** The numbers recorded in table [migrations]; none without the table. *)
Definition ledger (db : Database) : list Z :=
  match migrationsTable db with
  | None => []
  | Some rows => map fst rows
  end.

(** What a run of [Migrate] that gets to its loop has in [executedMigrations]:
    the recorded numbers, or nothing when the first read failed. *)
Definition loaded (faults : Faults) (db : Database) : list Z :=
  match lookupFault faults with
  | None => ledger db
  | Some _ => []
  end.

(** What such a run logs before its loop. *)
Definition notFound (faults : Faults) : list Info :=
  match lookupFault faults with
  | None => []
  | Some _ => [TableNotFound]
  end.

(** The number [Migrate] parses from a file name. *)
Definition migrationNumberOf (migration : string) : option Z :=
  match FindStringSubmatch migration with
  | [_; digits] => match Atoi digits with Ok n => Some n | Err _ => None end
  | _ => None
  end.

End Migrate.

(** The byte-wise order of [sort.Strings]. *)
Definition lexLe (a b : string) : Prop := String.leb a b = true.

(** A migration file the loop will run: its number is not among the executed. *)
Definition pending (executed : list Z) (migration : string) : bool :=
  match migrationNumberOf migration with
  | Some n => negb (inZ n executed)
  | None => false
  end.

(** A small database engine to run [Migrate] on: the schema is the list of
    the scripts executed; the base script creates table [migrations] and fails
    when the table exists; the number of a row is its primary key. *)
Definition baseScript : string := "CREATE TABLE migrations (migration_number INTEGER PRIMARY KEY, migration_name TEXT NOT NULL);".

Definition settingsScript : string :=
  "CREATE TABLE IF NOT EXISTS settings (key TEXT PRIMARY KEY, value TEXT NOT NULL, updated_at DATETIME NOT NULL DEFAULT CURRENT_TIMESTAMP);".

(** Two scripts that no file among the sources has: one creates the table
    only when it is missing, one empties it. *)
Definition lenientBaseScript : string := "CREATE TABLE IF NOT EXISTS migrations (migration_number INTEGER PRIMARY KEY, migration_name TEXT NOT NULL);".

Definition resetScript : string := "DELETE FROM migrations;".

Definition toyFS : list DirEntry :=
  [ {| Name := "016-settings.sql"; IsDir := false; Content := settingsScript |};
    {| Name := "001-base.sql"; IsDir := false; Content := baseScript |};
    {| Name := "README.md"; IsDir := false; Content := "notes" |};
    {| Name := "16-short.sql"; IsDir := false; Content := "DROP TABLE migrations;" |};
    {| Name := "002-archive.sql"; IsDir := true; Content := "" |} ].

(** A directory with a file that empties the ledger. *)
Definition resetFS : list DirEntry :=
  [ {| Name := "001-base.sql"; IsDir := false; Content := lenientBaseScript |};
    {| Name := "002-reset.sql"; IsDir := false; Content := resetScript |} ].

Definition toyExec (sql : string) (db : Database (list string)) : result (Database (list string)) :=
  if String.eqb sql baseScript then
    match migrationsTable _ db with
    | None => Ok {| schema := schema _ db ++ [sql]; migrationsTable := Some [] |}
    | Some _ => Err "table migrations already exists"
    end
  else if String.eqb sql lenientBaseScript then
    match migrationsTable _ db with
    | None => Ok {| schema := schema _ db ++ [sql]; migrationsTable := Some [] |}
    | Some rows => Ok db
    end
  else if String.eqb sql resetScript then
    match migrationsTable _ db with
    | None => Err "no such table: migrations"
    | Some _ => Ok {| schema := schema _ db; migrationsTable := Some [] |}
    end
  else if String.eqb sql "DROP TABLE migrations;" then
    Ok {| schema := schema _ db ++ [sql]; migrationsTable := None |}
  else Ok {| schema := schema _ db ++ [sql]; migrationsTable := migrationsTable _ db |}.

Definition toyInsertAllowed (rows : list (Z * string)) (n : Z) (name : string) : bool :=
  negb (inZ n (map fst rows)).

Definition emptyDatabase : Database (list string) :=
  {| schema := []; migrationsTable := None |}.

(** ** [GetOrCreateSubagentConversation] *)

(** The two columns of [generated.Conversation] the function reads. *)
Record Conversation : Type := {
  c_ConversationID : string;
  c_Slug : string
}.

(** [strings.Contains]. *)
Fixpoint strings_Contains (s substr : string) : bool :=
  String.prefix substr s ||
  match s with
  | EmptyString => false
  | String _ s' => strings_Contains s' substr
  end.

(** [%d] of a number that is not negative. *)
Definition itoa (n : nat) : string := NilEmpty.string_of_uint (Nat.to_uint n).

Definition exhausted : string := "failed to create unique subagent slug after 100 attempts".

Section Subagent.

(** The database together with the source of random conversation IDs. *)
Variable World : Type.

(** [a.DB.GetConversationBySlugAndParent(ctx, slug, parentID)]: an error, no
    conversation ([nil, nil]) or the conversation found. *)
Variable GetConversationBySlugAndParent :
  string -> string -> World -> World * result (option Conversation).

(** [a.DB.CreateSubagentConversation(ctx, slug, parentID, &cwd)]. *)
Variable CreateSubagentConversation :
  string -> string -> string -> World -> World * result Conversation.

(** [strings.ToLower] of package [strings]. *)
Variable strings_ToLower : string -> string.

(** The test on the error text of a failed creation. *)
Definition isUniqueViolation (err : string) : bool :=
  let errLower := strings_ToLower err in
  strings_Contains errLower "unique constraint" || strings_Contains errLower "duplicate".

(** [for attempt := 0; attempt < 100; attempt++ { ... }]: [remaining] is
    [100 - attempt], the iterations the loop may still make. *)
Fixpoint createLoop (remaining attempt : nat) (baseSlug actualSlug parentID cwd : string)
    (w : World) : World * result (string * string) :=
  match remaining with
  | O => (w, Err exhausted)
  | S remaining' =>
      match CreateSubagentConversation actualSlug parentID cwd w with
      | (w', Ok conv) => (w', Ok (c_ConversationID conv, actualSlug))
      | (w', Err err) =>
          if isUniqueViolation err then
            createLoop remaining' (S attempt) baseSlug
              (baseSlug +:+ "-" +:+ itoa (attempt + 1)) parentID cwd w'
          else (w', Err err)
      end
  end.

Definition GetOrCreateSubagentConversation (slug parentID cwd : string) (w : World)
  : World * result (string * string) :=
  match GetConversationBySlugAndParent slug parentID w with
  | (w0, Err err) => (w0, Err err)
  | (w0, Ok (Some existing)) => (w0, Ok (c_ConversationID existing, c_Slug existing))
  | (w0, Ok None) => createLoop 100 0 slug slug parentID cwd w0
  end.

(** ** The run of creation attempts, told apart from the loop *)

(** The slug of attempt number [k], counted from 0. *)
Definition attemptSlug (baseSlug : string) (k : nat) : string :=
  match k with
  | O => baseSlug
  | S _ => baseSlug +:+ "-" +:+ itoa k
  end.

(** The world after the first [k] attempts were made one after the other. *)
Fixpoint worldAfter (baseSlug parentID cwd : string) (k : nat) (w : World) : World :=
  match k with
  | O => w
  | S k' =>
      fst (CreateSubagentConversation (attemptSlug baseSlug k') parentID cwd
             (worldAfter baseSlug parentID cwd k' w))
  end.

(** What attempt number [k] returns. *)
Definition response (baseSlug parentID cwd : string) (k : nat) (w : World)
  : result Conversation :=
  snd (CreateSubagentConversation (attemptSlug baseSlug k) parentID cwd
         (worldAfter baseSlug parentID cwd k w)).

(** Attempt [k] failed and its error is read as a slug collision. *)
Definition collided (baseSlug parentID cwd : string) (w : World) (k : nat) : Prop :=
  exists err, response baseSlug parentID cwd k w = Err err /\ isUniqueViolation err = true.

End Subagent.

(** A world to run the function in: the log of the slugs creation was
    attempted with. The lookup finds nothing; creation fails with SQLite's
    text for a taken slug as long as [taken] says so. *)
Fixpoint lowerASCII (s : string) : string :=
  match s with
  | EmptyString => EmptyString
  | String c s' =>
      let n := nat_of_ascii c in
      String (if ((65 <=? n) && (n <=? 90))%nat then ascii_of_nat (n + 32) else c)
             (lowerASCII s')
  end.

Definition logLookup (slug parentID : string) (w : list string)
  : list string * result (option Conversation) := (w, Ok None).

Definition logCreate (taken : string -> bool) (slug parentID cwd : string) (w : list string)
  : list string * result Conversation :=
  (w ++ [slug],
   if taken slug then Err "constraint failed: UNIQUE constraint failed: conversations.slug"
   else Ok {| c_ConversationID := "cNEW123"; c_Slug := slug |}).

End DB.

(* ===================================================================== *)
(** * SHA-256 ([crypto/sha256.Sum256])                                    *)
(* ===================================================================== *)

Module SHA256.

(** 32-bit words are [Z] reduced modulo 2^32. *)
Definition w32 (x : Z) : Z := Z.land x 4294967295.

Definition add32 (x y : Z) : Z := w32 (x + y).

Definition rotr (n x : Z) : Z :=
  w32 (Z.lor (Z.shiftr x n) (Z.shiftl x (32 - n))).

Definition not32 (x : Z) : Z := Z.lxor x 4294967295.

Definition Ch (x y z : Z) : Z := Z.lxor (Z.land x y) (Z.land (not32 x) z).
Definition Maj (x y z : Z) : Z :=
  Z.lxor (Z.lxor (Z.land x y) (Z.land x z)) (Z.land y z).
Definition Sigma0 (x : Z) : Z := Z.lxor (Z.lxor (rotr 2 x) (rotr 13 x)) (rotr 22 x).
Definition Sigma1 (x : Z) : Z := Z.lxor (Z.lxor (rotr 6 x) (rotr 11 x)) (rotr 25 x).
Definition sigma0 (x : Z) : Z := Z.lxor (Z.lxor (rotr 7 x) (rotr 18 x)) (Z.shiftr x 3).
Definition sigma1 (x : Z) : Z := Z.lxor (Z.lxor (rotr 17 x) (rotr 19 x)) (Z.shiftr x 10).

(** The constants of the standard are given by their definition: the first
    32 bits of the fractional parts of the cube roots (round constants) and of
    the square roots (initial value) of the first primes. *)
Definition isPrime (n : nat) : bool :=
  (2 <=? n)%nat && forallb (fun d => negb (Nat.eqb (n mod d) 0)) (seq 2 (n - 2)).

Definition primes (count : nat) : list Z :=
  map Z.of_nat (firstn count (List.filter isPrime (seq 2 310))).

(** The integer cube root of [n], found bit by bit from bit [bits - 1] down. *)
Fixpoint cubeRoot (bits : nat) (n acc : Z) : Z :=
  match bits with
  | O => acc
  | S bits' =>
      let candidate := acc + 2 ^ Z.of_nat bits' in
      if candidate * candidate * candidate <=? n then cubeRoot bits' n candidate
      else cubeRoot bits' n acc
  end.

Definition K256 : list Z :=
  Eval vm_compute in map (fun q => w32 (cubeRoot 36 (q * 2 ^ 96) 0)) (primes 64).

Definition rootWords : list Z :=
  Eval vm_compute in map (fun q => w32 (Z.sqrt (q * 2 ^ 64))) (primes 8).

(** The chaining value: eight words. *)
Record digest : Type := {
  h0 : Z; h1 : Z; h2 : Z; h3 : Z; h4 : Z; h5 : Z; h6 : Z; h7 : Z
}.

Definition initial : digest :=
  {| h0 := nth 0 rootWords 0; h1 := nth 1 rootWords 0; h2 := nth 2 rootWords 0;
     h3 := nth 3 rootWords 0; h4 := nth 4 rootWords 0; h5 := nth 5 rootWords 0;
     h6 := nth 6 rootWords 0; h7 := nth 7 rootWords 0 |}.

(** Four bytes, big-endian, as a word; a word as its four bytes. *)
Definition wordOfBytes (b : list Z) : Z :=
  fold_left (fun acc x => Z.lor (Z.shiftl acc 8) x) b 0.

Definition bytesOfWord (w : Z) : list Z :=
  [ Z.land (Z.shiftr w 24) 255; Z.land (Z.shiftr w 16) 255;
    Z.land (Z.shiftr w 8) 255; Z.land w 255 ].

Fixpoint chunks (fuel size : nat) (l : list Z) : list (list Z) :=
  match fuel with
  | O => []
  | S fuel' =>
      match l with
      | [] => []
      | _ :: _ => firstn size l :: chunks fuel' size (skipn size l)
      end
  end.

(** The padded message: the bytes, 0x80, zeros up to 56 modulo 64, and the
    length in bits as eight bytes. *)
Definition pad (msg : list Z) : list Z :=
  let len := Z.of_nat (length msg) in
  let zeros := Z.to_nat ((55 - len) mod 64) in
  let bits := 8 * len in
  msg ++ [128] ++ repeat 0 zeros ++
  bytesOfWord (w32 (Z.shiftr bits 32)) ++ bytesOfWord (w32 bits).

(** The message schedule, latest word first; [extend] adds one word. *)
Definition extend (rw : list Z) : list Z :=
  add32 (add32 (sigma1 (nth 1 rw 0)) (nth 6 rw 0))
        (add32 (sigma0 (nth 14 rw 0)) (nth 15 rw 0)) :: rw.

Definition schedule (block : list Z) : list Z :=
  rev (Nat.iter 48 extend (rev (map wordOfBytes (chunks 16 4 block)))).

Definition round (s : digest) (kw : Z * Z) : digest :=
  let '(k, w) := kw in
  let t1 := add32 (add32 (add32 (add32 (h7 s) (Sigma1 (h4 s))) (Ch (h4 s) (h5 s) (h6 s))) k) w in
  let t2 := add32 (Sigma0 (h0 s)) (Maj (h0 s) (h1 s) (h2 s)) in
  {| h0 := add32 t1 t2; h1 := h0 s; h2 := h1 s; h3 := h2 s;
     h4 := add32 (h3 s) t1; h5 := h4 s; h6 := h5 s; h7 := h6 s |}.

Definition compress (s : digest) (block : list Z) : digest :=
  let r := fold_left round (combine K256 (schedule block)) s in
  {| h0 := add32 (h0 s) (h0 r); h1 := add32 (h1 s) (h1 r);
     h2 := add32 (h2 s) (h2 r); h3 := add32 (h3 s) (h3 r);
     h4 := add32 (h4 s) (h4 r); h5 := add32 (h5 s) (h5 r);
     h6 := add32 (h6 s) (h6 r); h7 := add32 (h7 s) (h7 r) |}.

(** [sha256.Sum256(data)]: the 32 bytes of the digest. *)
Definition Sum256 (data : list Z) : list Z :=
  let padded := pad data in
  let s := fold_left compress (chunks (length padded) 64 padded) initial in
  bytesOfWord (h0 s) ++ bytesOfWord (h1 s) ++ bytesOfWord (h2 s) ++ bytesOfWord (h3 s) ++
  bytesOfWord (h4 s) ++ bytesOfWord (h5 s) ++ bytesOfWord (h6 s) ++ bytesOfWord (h7 s).

(** [[]byte(s)]. *)
Definition bytesOfString (s : string) : list Z :=
  map (fun c => Z.of_N (N_of_ascii c)) (list_ascii_of_string s).

Definition hexDigit (n : Z) : ascii :=
  if n <? 10 then ascii_of_N (Z.to_N (48 + n)) else ascii_of_N (Z.to_N (87 + n)).

(** The verb [%x] on a byte slice: two lowercase hexadecimal digits a byte. *)
Fixpoint hex (b : list Z) : string :=
  match b with
  | [] => EmptyString
  | x :: b' => String (hexDigit (Z.shiftr x 4)) (String (hexDigit (Z.land x 15)) (hex b'))
  end.

End SHA256.

(* ===================================================================== *)
(** * The external-agent loop ([claudeCodeLoop])                          *)
(* ===================================================================== *)

Module ClaudeCode.

(** ** The session identifier *)

Definition slice (from to : nat) (b : list Z) : list Z := firstn (to - from) (skipn from b).

(** A verb [%0Nx] on a byte slice: the hexadecimal text, filled on the left up
    to the width [N]. Every slice formatted here has exactly the width of its
    verb, so nothing is ever filled in. *)
Definition fmtHex (width : nat) (b : list Z) : string :=
  let text := SHA256.hex b in
  string_of_list_ascii (repeat "0"%char (width - String.length text)) +:+ text.

(** [conversationIDToUUID]. *)
Definition conversationIDToUUID (id : string) : string :=
  let h := SHA256.Sum256 (SHA256.bytesOfString id) in
  fmtHex 8 (slice 0 4 h) +:+ "-" +:+ fmtHex 4 (slice 4 6 h) +:+ "-" +:+
  fmtHex 4 (slice 6 8 h) +:+ "-" +:+ fmtHex 4 (slice 8 10 h) +:+ "-" +:+
  fmtHex 12 (slice 10 16 h).

(** ** Messages ([llm.Message], [llm.Content]) *)

Inductive ContentType : Type :=
| ContentTypeText
| ContentTypeThinking
| ContentTypeToolUse
| ContentTypeToolResult.

Definition isToolUse (t : ContentType) : bool :=
  match t with ContentTypeToolUse => true | _ => false end.

(** The fields of [llm.Content] the loop writes; the others stay at their
    zero value. *)
#[warnings="-register-all"]
Inductive Content : Type := mkContent {
  c_Type : ContentType;
  c_Text : string;
  c_Thinking : string;
  c_ID : string;
  c_ToolName : string;
  c_ToolInput : string;
  c_ToolUseID : string;
  c_ToolResult : list Content;
  c_ToolError : bool;
  c_MediaType : string;
  c_Data : string
}.

Definition zeroContent (t : ContentType) : Content :=
  {| c_Type := t; c_Text := ""; c_Thinking := ""; c_ID := ""; c_ToolName := "";
     c_ToolInput := ""; c_ToolUseID := ""; c_ToolResult := []; c_ToolError := false;
     c_MediaType := ""; c_Data := "" |}.

Definition textContent (text : string) : Content :=
  {| c_Type := ContentTypeText; c_Text := text; c_Thinking := ""; c_ID := "";
     c_ToolName := ""; c_ToolInput := ""; c_ToolUseID := ""; c_ToolResult := [];
     c_ToolError := false; c_MediaType := ""; c_Data := "" |}.

Definition thinkingContent (thinking : string) : Content :=
  {| c_Type := ContentTypeThinking; c_Text := ""; c_Thinking := thinking; c_ID := "";
     c_ToolName := ""; c_ToolInput := ""; c_ToolUseID := ""; c_ToolResult := [];
     c_ToolError := false; c_MediaType := ""; c_Data := "" |}.

Definition toolUseContent (id name input : string) : Content :=
  {| c_Type := ContentTypeToolUse; c_Text := ""; c_Thinking := ""; c_ID := id;
     c_ToolName := name; c_ToolInput := input; c_ToolUseID := ""; c_ToolResult := [];
     c_ToolError := false; c_MediaType := ""; c_Data := "" |}.

Definition toolResultContent (toolUseID : string) (result : list Content) (isError : bool)
  : Content :=
  {| c_Type := ContentTypeToolResult; c_Text := ""; c_Thinking := ""; c_ID := "";
     c_ToolName := ""; c_ToolInput := ""; c_ToolUseID := toolUseID; c_ToolResult := result;
     c_ToolError := isError; c_MediaType := ""; c_Data := "" |}.

(** The block an image becomes: its type is [llm.ContentTypeText], with the
    media type and the data of the source. *)
Definition imageContent (mediaType data : string) : Content :=
  {| c_Type := ContentTypeText; c_Text := ""; c_Thinking := ""; c_ID := "";
     c_ToolName := ""; c_ToolInput := ""; c_ToolUseID := ""; c_ToolResult := [];
     c_ToolError := false; c_MediaType := mediaType; c_Data := data |}.

Inductive MessageRole : Type := MessageRoleUser | MessageRoleAssistant.

Record Message : Type := {
  Role : MessageRole;
  Contents : list Content;
  EndOfTurn : bool
}.

Definition newMessage (role : MessageRole) : Message :=
  {| Role := role; Contents := []; EndOfTurn := false |}.

Definition appendContent (m : Message) (c : Content) : Message :=
  {| Role := Role m; Contents := Contents m ++ [c]; EndOfTurn := EndOfTurn m |}.

(** [msg.EndOfTurn = !hasToolUse], [hasToolUse] found by the loop over the
    content. *)
Definition setEndOfTurn (m : Message) : Message :=
  {| Role := Role m; Contents := Contents m;
     EndOfTurn := negb (existsb (fun c => isToolUse (c_Type c)) (Contents m)) |}.

(** ** [parseToolResultContent] *)

(** The anonymous struct the block array is decoded into; [b_Source] is the
    pointer field ([None] is nil). *)
Record BlockSource : Type := {
  s_Type : string;
  s_MediaType : string;
  s_Data : string
}.

Record Block : Type := {
  b_Type : string;
  b_Text : string;
  b_Source : option BlockSource
}.

Section ParseToolResult.

(** [json.Unmarshal(raw, &plainText)] and [json.Unmarshal(raw, &blocks)] of
    package [encoding/json]: the decoded value when the error is nil. *)
Variable unmarshalString : string -> option string.
Variable unmarshalBlocks : string -> option (list Block).

(** The body of the loop over the blocks: what one block appends to [out]. *)
Definition blockContent (bl : Block) : list Content :=
  if String.eqb (b_Type bl) "text" then [textContent (b_Text bl)]
  else if String.eqb (b_Type bl) "image" then
    match b_Source bl with
    | Some src =>
        if String.eqb (s_Type src) "base64"
        then [imageContent (s_MediaType src) (s_Data src)]
        else []
    | None => []
    end
  else [].

Definition parseToolResultContent (raw : string) : list Content :=
  match unmarshalString raw with
  | Some plainText => [textContent plainText]
  | None =>
      match unmarshalBlocks raw with
      | Some blocks => fold_left (fun out bl => out ++ blockContent bl) blocks []
      | None => [textContent raw]
      end
  end.

(** A block the loop recognises. *)
Definition recognised (bl : Block) : bool :=
  String.eqb (b_Type bl) "text" ||
  (String.eqb (b_Type bl) "image" &&
   match b_Source bl with
   | Some src => String.eqb (s_Type src) "base64"
   | None => false
   end).

End ParseToolResult.

(** ** The state [processStream] works on *)

(** [ccTaskInput]. *)
Record ccTaskInput : Type := {
  Description : string;
  Prompt : string;
  SubagentType : string
}.

(** Modelled from the spec: the declaration of [subagentStreamEvent] that
    [processStream] decodes a line into is not among the sources (the one that
    is lacks the fields read here). "Each line is an object with a type
    discriminator and an embedded message with role, id, and content blocks";
    the fields are those [processStream] reads. [ev_ToolUseResult] is [None]
    for a nil [ToolUseResult]. *)
Record StreamContent : Type := {
  sc_Type : string;
  sc_Text : string;
  sc_Thinking : string;
  sc_ID : string;
  sc_Name : string;
  sc_Input : string;
  sc_ToolUseID : string;
  sc_Content : string;
  sc_IsError : bool
}.

Record StreamEvent : Type := {
  ev_ParentToolUseID : string;
  ev_ToolUseResult : option string;
  ev_MessageID : string;
  ev_Content : list StreamContent
}.

(** A [*ConversationManager]. *)
Definition ptr : Type := nat.

(** Modelled from the spec: the type [ConversationManager] is not among the
    sources. Of its state the loop uses "conversationID", "cwd", "agentWorking
    -- boolean flag, true while a turn is in flight" and "recordMessage -- a
    function reference used by the turn loop to persist a produced message".
    [recordSet] says that the function reference is not nil; [recorded] holds
    the messages it was called with, in order. *)
Record Manager : Type := {
  conversationID : string;
  cwd : string;
  agentWorking : bool;
  recordSet : bool;
  recorded : list Message
}.

(** The managers, by pointer. *)
Definition Heap : Type := ptr -> Manager.

Definition store (h : Heap) (p : ptr) (m : Manager) : Heap :=
  fun q => if Nat.eqb q p then m else h q.

(** Modelled from the spec: [SetAgentWorking(bool)] "flip[s] the flag". *)
Definition SetAgentWorking (p : ptr) (working : bool) (h : Heap) : Heap :=
  store h p {| conversationID := conversationID (h p); cwd := cwd (h p);
               agentWorking := working; recordSet := recordSet (h p);
               recorded := recorded (h p) |}.

(** [if m.recordMessage != nil { m.recordMessage(ctx, msg, llm.Usage{}) }];
    an error it returns is logged and otherwise ignored. *)
Definition record (p : ptr) (msg : Message) (h : Heap) : Heap :=
  if recordSet (h p) then
    store h p {| conversationID := conversationID (h p); cwd := cwd (h p);
                 agentWorking := agentWorking (h p); recordSet := true;
                 recorded := recorded (h p) ++ [msg] |}
  else h.

(** [ccSubagentSession]. *)
Record ccSubagentSession : Type := {
  manager : ptr;
  lastMsgID : string;
  pendingAssistant : option Message;
  pendingUser : option Message
}.

(** The history of the loop, the managers, and the local variables of
    [processStream]. *)
Record State : Type := {
  heap : Heap;
  history : list Message;
  currentAssistantMsg : option Message;
  currentUserMsg : option Message;
  currentMsgID : string;
  taskInputs : gmap string ccTaskInput;
  subagentSessions : gmap string ccSubagentSession
}.

Definition setHeap (st : State) (h : Heap) : State :=
  {| heap := h; history := history st;
     currentAssistantMsg := currentAssistantMsg st; currentUserMsg := currentUserMsg st;
     currentMsgID := currentMsgID st; taskInputs := taskInputs st;
     subagentSessions := subagentSessions st |}.

Definition setSessions (st : State) (ss : gmap string ccSubagentSession) : State :=
  {| heap := heap st; history := history st;
     currentAssistantMsg := currentAssistantMsg st; currentUserMsg := currentUserMsg st;
     currentMsgID := currentMsgID st; taskInputs := taskInputs st;
     subagentSessions := ss |}.

Definition setTaskInputs (st : State) (ti : gmap string ccTaskInput) : State :=
  {| heap := heap st; history := history st;
     currentAssistantMsg := currentAssistantMsg st; currentUserMsg := currentUserMsg st;
     currentMsgID := currentMsgID st; taskInputs := ti;
     subagentSessions := subagentSessions st |}.

Definition setAssistant (st : State) (id : string) (m : option Message) : State :=
  {| heap := heap st; history := history st;
     currentAssistantMsg := m; currentUserMsg := currentUserMsg st;
     currentMsgID := id; taskInputs := taskInputs st;
     subagentSessions := subagentSessions st |}.

Definition setUser (st : State) (m : option Message) : State :=
  {| heap := heap st; history := history st;
     currentAssistantMsg := currentAssistantMsg st; currentUserMsg := m;
     currentMsgID := currentMsgID st; taskInputs := taskInputs st;
     subagentSessions := subagentSessions st |}.

(** The state [processStream] starts in: the loop's history and the managers
    as they are, every local variable at its zero value. *)
Definition enter (h : Heap) (hist : list Message) : State :=
  {| heap := h; history := hist;
     currentAssistantMsg := None; currentUserMsg := None; currentMsgID := "";
     taskInputs := ∅; subagentSessions := ∅ |}.

(** The text of a slug: every rune of a slug is below 0x80, one byte each. *)
Definition runesToString (rs : list Z) : string :=
  string_of_list_ascii (map (fun r => ascii_of_N (Z.to_N r)) rs).

Definition isNil {A : Type} (o : option A) : bool :=
  match o with None => true | Some _ => false end.

(** The outcome of running the command line client. *)
Inductive Run : Type :=
| PipeFails (err : string)                     (* cmd.StdoutPipe() failed *)
| StartFails (err : string)                    (* cmd.Start() failed *)
| Runs (lines : list string)                   (* what scanner.Scan() yields *)
       (scanErr : option string)               (* scanner.Err() *)
       (waitErr : option string).              (* cmd.Wait() *)

Section Stream.

(** [l.cm], the manager of the main conversation. *)
Variable cm : ptr.

(** [l.cm.ccSubagentBridge]: nil, or the factory of the managers of
    sub-agent conversations, called with the slug, the parent ID and the
    working directory. It may create a manager or hand out one that exists. *)
Variable ccSubagentBridge :
  option (string -> string -> string -> Heap -> Heap * result ptr).

(** Package [encoding/json] on a line of the stream: [unmarshalType] is
    [json.Unmarshal] into a [map[string]any] followed by
    [raw["type"].(string)], [None] when the line is no JSON object;
    [unmarshalEvent] is [json.Unmarshal] into the event, [None] on an error;
    [unmarshalTaskInput] decodes the input of a Task tool call, the error
    being ignored. *)
Variable unmarshalType : string -> option string.
Variable unmarshalEvent : string -> option StreamEvent.
Variable unmarshalTaskInput : string -> ccTaskInput.
Variable unmarshalString : string -> option string.
Variable unmarshalBlocks : string -> option (list Block).

(** The runes a [range] over a Go string yields, and the case table of
    package [unicode] (see [Slug]). *)
Variable utf8_runes : string -> list Z.
Variable caseTable : Z -> Z.

(** The order in which [for ... range subagentSessions] visits the keys. *)
Variable rangeOrder : gmap string ccSubagentSession -> list string.

(** [exec.CommandContext(ctx, "claude", args...)] run in a directory. *)
Variable claude : list string -> string -> Run.

(** [filepath.Join(os.TempDir(), fmt.Sprintf("mcp_%s.json", id))]. *)
Variable mcpFile : string -> string.

Definition ccDescriptionToSlug (description : string) : string :=
  runesToString (Slug.ccDescriptionToSlug caseTable (utf8_runes description)).

Definition flushAssistant (st : State) : State :=
  match currentAssistantMsg st with
  | None => st
  | Some m =>
      let m' := setEndOfTurn m in
      {| heap := record cm m' (heap st); history := history st ++ [m'];
         currentAssistantMsg := None; currentUserMsg := currentUserMsg st;
         currentMsgID := currentMsgID st; taskInputs := taskInputs st;
         subagentSessions := subagentSessions st |}
  end.

Definition flushUser (st : State) : State :=
  match currentUserMsg st with
  | None => st
  | Some m =>
      {| heap := record cm m (heap st); history := history st ++ [m];
         currentAssistantMsg := currentAssistantMsg st; currentUserMsg := None;
         currentMsgID := currentMsgID st; taskInputs := taskInputs st;
         subagentSessions := subagentSessions st |}
  end.

(** The session [sa] the closures receive is the one stored under [key]. *)
Definition flushSubagentAssistant (key : string) (st : State) : State :=
  match subagentSessions st !! key with
  | None => st
  | Some sa =>
      match pendingAssistant sa with
      | None => st
      | Some msg =>
          let sa' := {| manager := manager sa; lastMsgID := lastMsgID sa;
                        pendingAssistant := None; pendingUser := pendingUser sa |} in
          setHeap (setSessions st (<[key := sa']> (subagentSessions st)))
                  (record (manager sa) (setEndOfTurn msg) (heap st))
      end
  end.

Definition flushSubagentUser (key : string) (st : State) : State :=
  match subagentSessions st !! key with
  | None => st
  | Some sa =>
      match pendingUser sa with
      | None => st
      | Some msg =>
          let sa' := {| manager := manager sa; lastMsgID := lastMsgID sa;
                        pendingAssistant := pendingAssistant sa; pendingUser := None |} in
          setHeap (setSessions st (<[key := sa']> (subagentSessions st)))
                  (record (manager sa) msg (heap st))
      end
  end.

(** [flushSubagentAssistant(sa); flushSubagentUser(sa);
    sa.manager.SetAgentWorking(false)]. *)
Definition closeSession (key : string) (st : State) : State :=
  match subagentSessions st !! key with
  | None => st
  | Some sa =>
      let st' := flushSubagentUser key (flushSubagentAssistant key st) in
      setHeap st' (SetAgentWorking (manager sa) false (heap st'))
  end.

(** [getOrCreateSubagentSession]: the key of the session, or [None] for nil. *)
Definition getOrCreateSubagentSession (parentToolUseID : string) (st : State)
  : State * option string :=
  match ccSubagentBridge with
  | None => (st, None)
  | Some bridge =>
      match subagentSessions st !! parentToolUseID with
      | Some _ => (st, Some parentToolUseID)
      | None =>
          match taskInputs st !! parentToolUseID with
          | None => (st, None)
          | Some input =>
              let slug := ccDescriptionToSlug (Description input) in
              let slug :=
                if String.eqb slug "" then
                  (if (12 <? String.length parentToolUseID)%nat
                   then String.substring 0 12 parentToolUseID
                   else parentToolUseID)
                else slug in
              match bridge slug (conversationID (heap st cm)) (cwd (heap st cm)) (heap st) with
              | (h, Err _) => (setHeap st h, None)
              | (h, Ok subManager) =>
                  let sa := {| manager := subManager; lastMsgID := "";
                               pendingAssistant := None; pendingUser := None |} in
                  (setSessions (setHeap st (SetAgentWorking subManager true h))
                               (<[parentToolUseID := sa]> (subagentSessions st)),
                   Some parentToolUseID)
              end
          end
      end
  end.

Definition parseResult (raw : string) : list Content :=
  parseToolResultContent unmarshalString unmarshalBlocks raw.

(** The bodies of the loops over [ev.Message.Content]. *)
Definition appendAssistantBlock (m : Message) (c : StreamContent) : Message :=
  if String.eqb (sc_Type c) "text" then appendContent m (textContent (sc_Text c))
  else if String.eqb (sc_Type c) "thinking" then appendContent m (thinkingContent (sc_Thinking c))
  else if String.eqb (sc_Type c) "tool_use"
  then appendContent m (toolUseContent (sc_ID c) (sc_Name c) (sc_Input c))
  else m.

Definition appendSubagentUserBlock (m : Message) (c : StreamContent) : Message :=
  if String.eqb (sc_Type c) "text" then appendContent m (textContent (sc_Text c))
  else if String.eqb (sc_Type c) "tool_result"
  then appendContent m (toolResultContent (sc_ToolUseID c) (parseResult (sc_Content c)) (sc_IsError c))
  else m.

Definition appendUserBlock (m : Message) (c : StreamContent) : Message :=
  if String.eqb (sc_Type c) "tool_result"
  then appendContent m (toolResultContent (sc_ToolUseID c) (parseResult (sc_Content c)) (sc_IsError c))
  else m.

(** "Track Task tool_use events". *)
Definition trackTaskInputs (ev : StreamEvent) (st : State) : State :=
  fold_left
    (fun st c =>
       if String.eqb (sc_Type c) "tool_use" && String.eqb (sc_Name c) "Task"
       then setTaskInputs st (<[sc_ID c := unmarshalTaskInput (sc_Input c)]> (taskInputs st))
       else st)
    (ev_Content ev) st.

(** "When CC reports a Task tool_result at top level with tool_use_result
    metadata, the subagent has completed. Flush and mark it done." *)
Definition completeSubagents (ev : StreamEvent) (st : State) : State :=
  fold_left
    (fun st c =>
       if String.eqb (sc_Type c) "tool_result" then closeSession (sc_ToolUseID c) st
       else st)
    (ev_Content ev) st.

Definition subagentAssistant (key : string) (ev : StreamEvent) (st : State) : State :=
  match subagentSessions st !! key with
  | None => st
  | Some sa =>
      let st1 :=
        if negb (String.eqb (ev_MessageID ev) (lastMsgID sa)) || isNil (pendingAssistant sa)
        then flushSubagentUser key (flushSubagentAssistant key st)
        else st in
      match subagentSessions st1 !! key with
      | None => st1
      | Some sa1 =>
          let fresh :=
            negb (String.eqb (ev_MessageID ev) (lastMsgID sa)) || isNil (pendingAssistant sa) in
          let pending :=
            if fresh then newMessage MessageRoleAssistant
            else match pendingAssistant sa1 with
                 | Some m => m
                 | None => newMessage MessageRoleAssistant
                 end in
          let sa2 := {| manager := manager sa1;
                        lastMsgID := if fresh then ev_MessageID ev else lastMsgID sa1;
                        pendingAssistant :=
                          Some (fold_left appendAssistantBlock (ev_Content ev) pending);
                        pendingUser := pendingUser sa1 |} in
          setSessions st1 (<[key := sa2]> (subagentSessions st1))
      end
  end.

Definition subagentUser (key : string) (ev : StreamEvent) (st : State) : State :=
  let st1 := flushSubagentAssistant key st in
  match subagentSessions st1 !! key with
  | None => st1
  | Some sa1 =>
      let pending := match pendingUser sa1 with
                     | Some m => m
                     | None => newMessage MessageRoleUser
                     end in
      let sa2 := {| manager := manager sa1; lastMsgID := lastMsgID sa1;
                    pendingAssistant := pendingAssistant sa1;
                    pendingUser :=
                      Some (fold_left appendSubagentUserBlock (ev_Content ev) pending) |} in
      setSessions st1 (<[key := sa2]> (subagentSessions st1))
  end.

Definition topAssistant (ev : StreamEvent) (st : State) : State :=
  let fresh :=
    negb (String.eqb (ev_MessageID ev) (currentMsgID st)) || isNil (currentAssistantMsg st) in
  let st1 :=
    if fresh
    then setAssistant (flushUser (flushAssistant st)) (ev_MessageID ev)
           (Some (newMessage MessageRoleAssistant))
    else st in
  let pending := match currentAssistantMsg st1 with
                 | Some m => m
                 | None => newMessage MessageRoleAssistant
                 end in
  setAssistant st1 (currentMsgID st1)
    (Some (fold_left appendAssistantBlock (ev_Content ev) pending)).

Definition topUser (ev : StreamEvent) (st : State) : State :=
  let st1 := flushAssistant st in
  let pending := match currentUserMsg st1 with
                 | Some m => m
                 | None => newMessage MessageRoleUser
                 end in
  setUser st1 (Some (fold_left appendUserBlock (ev_Content ev) pending)).

(** The body of [for scanner.Scan() { ... }] for one line. *)
Definition processLine (st : State) (line : string) : State :=
  if String.eqb line "" then st
  else
    match unmarshalType line with
    | None => st
    | Some typ =>
        if String.eqb typ "assistant" || String.eqb typ "user" then
          match unmarshalEvent line with
          | None => st
          | Some ev =>
              let top := String.eqb (ev_ParentToolUseID ev) "" in
              let st :=
                if String.eqb typ "assistant" && top then trackTaskInputs ev st else st in
              let st :=
                if String.eqb typ "user" && top && negb (isNil (ev_ToolUseResult ev))
                then completeSubagents ev st else st in
              if negb top then
                let '(st, sa) := getOrCreateSubagentSession (ev_ParentToolUseID ev) st in
                match sa with
                | Some key =>
                    if String.eqb typ "assistant" then subagentAssistant key ev st
                    else subagentUser key ev st
                | None => st
                end
              else if String.eqb typ "assistant" then topAssistant ev st
              else topUser ev st
          end
        else st
    end.

(** The loop over the lines the scanner yields. *)
Definition scan (lines : list string) (st : State) : State :=
  fold_left processLine lines st.

(** The deferred function. *)
Definition deferred (st : State) : State :=
  let st := flushUser (flushAssistant st) in
  fold_left (fun st key => closeSession key st) (rangeOrder (subagentSessions st)) st.

(** [processStream]: the state it leaves and the error it returns
    ([scanner.Err()]). *)
Definition processStream (lines : list string) (scanErr : option string) (st : State)
  : State * option string :=
  (deferred (scan lines st), scanErr).

(** ** [processMessage] and [Go] *)

Definition promptOf (msg : Message) : string :=
  fold_left
    (fun prompt c =>
       match c_Type c with
       | ContentTypeText => prompt +:+ c_Text c
       | _ => prompt
       end)
    (Contents msg) "".

(** The argument list of the command. *)
Definition commandArgs (prompt mcp sessionID : string) (isFirstTurn : bool) : list string :=
  [ "-p"; prompt; "--verbose"; "--output-format"; "stream-json"; "--max-turns"; "25";
    "--permission-mode"; "bypassPermissions"; "--mcp-config"; mcp;
    "--include-partial-messages" ]
  ++ (if isFirstTurn then ["--session-id"; sessionID] else ["--resume"; sessionID]).

(** [processMessage]: the managers and the history it leaves, the arguments
    the command was built with, and the error returned. *)
Definition processMessage (msg : Message) (h : Heap) (hist : list Message)
  : Heap * list Message * list string * option string :=
  let h := SetAgentWorking cm true h in
  let prompt := promptOf msg in
  let sessionID := conversationIDToUUID (conversationID (h cm)) in
  let isFirstTurn := (length hist =? 0)%nat in
  let args := commandArgs prompt (mcpFile (conversationID (h cm))) sessionID isFirstTurn in
  match claude args (cwd (h cm)) with
  | PipeFails err => (SetAgentWorking cm false h, hist, args, Some err)
  | StartFails err =>
      (SetAgentWorking cm false h, hist, args, Some ("start claude: " +:+ err))
  | Runs lines scanErr waitErr =>
      let st := fst (processStream lines scanErr (enter h hist)) in
      (SetAgentWorking cm false (heap st), history st, args, waitErr)
  end.

(** [Go]: the messages taken from [l.msgChan] before the context is done,
    one turn each; the argument lists of the turns, in order. *)
Fixpoint Go (msgs : list Message) (h : Heap) (hist : list Message)
  : Heap * list Message * list (list string) :=
  match msgs with
  | [] => (h, hist, [])
  | msg :: msgs' =>
      let '(h1, hist1, args, _) := processMessage msg h hist in
      let '(h2, hist2, argss) := Go msgs' h1 hist1 in
      (h2, hist2, args :: argss)
  end.

End Stream.

(** Decoders to run the function with: a text between two quotes decodes into
    a string; the two arrays below decode into blocks. *)
Definition quote : ascii := ascii_of_nat 34.

Definition toyUnmarshalString (raw : string) : option string :=
  match raw with
  | String q rest =>
      if Ascii.eqb q quote && (1 <=? String.length rest)%nat
         && String.eqb (String.substring (String.length rest - 1) 1 rest) (String quote EmptyString)
      then Some (String.substring 0 (String.length rest - 1) rest)
      else None
  | EmptyString => None
  end.

Definition toyUnmarshalBlocks (raw : string) : option (list Block) :=
  if String.eqb raw "[{text:hello},{image:base64},{image:url},{audio}]" then
    Some [ {| b_Type := "text"; b_Text := "hello"; b_Source := None |};
           {| b_Type := "image"; b_Text := "";
              b_Source := Some {| s_Type := "base64"; s_MediaType := "image/png"; s_Data := "iVBOR" |} |};
           {| b_Type := "image"; b_Text := "";
              b_Source := Some {| s_Type := "url"; s_MediaType := ""; s_Data := "" |} |};
           {| b_Type := "audio"; b_Text := ""; b_Source := None |} ]
  else if String.eqb raw "[]" then Some []
  else None.

(** ** Relations between states of [processStream] *)

(** The sessions of [ss] are still there in [ss'], each with its manager. *)
Definition keeps (ss ss' : gmap string ccSubagentSession) : Prop :=
  forall key sa, ss !! key = Some sa ->
    exists sa', ss' !! key = Some sa' /\ manager sa' = manager sa.

(** From [st] to [st'] the history was only appended to and no session was
    dropped or given another manager. *)
Definition extends (st st' : State) : Prop :=
  history st `prefix_of` history st' /\
  keeps (subagentSessions st) (subagentSessions st').

(** A lowercase hexadecimal digit. *)
Definition isLowerHex (c : ascii) : bool :=
  let n := Z.of_N (N_of_ascii c) in
  ((48 <=? n) && (n <=? 57)) || ((97 <=? n) && (n <=? 102)).

(** A loop to run: no bridge, every line refused by the decoders, the
    sessions ranged over in the order of the map, the command starting and
    printing nothing. *)
Definition noBridge : option (string -> string -> string -> Heap -> Heap * result ptr) := None.
Definition mapOrder (m : gmap string ccSubagentSession) : list string := (map_to_list m).*1.
Definition silentClaude (args : list string) (dir : string) : Run := Runs [] None None.
Definition tmpMcpFile (id : string) : string := "/tmp/mcp_" +:+ id +:+ ".json".
Definition idleHeap : Heap :=
  fun _ => {| conversationID := "cABC123"; cwd := "/work"; agentWorking := false;
              recordSet := true; recorded := [] |}.
Definition hello : Message :=
  {| Role := MessageRoleUser; Contents := [textContent "hello"]; EndOfTurn := false |}.

(** ** Relations between heaps *)

(** From [h] to [h'] every manager was only recorded to, kept its
    [recordMessage], and was not put to work. *)
Definition grows (h h' : Heap) : Prop :=
  forall q, recorded (h q) `prefix_of` recorded (h' q) /\
            recordSet (h' q) = recordSet (h q) /\
            (agentWorking (h' q) = true -> agentWorking (h q) = true).

(** A session with nothing pending. *)
Definition flushed (sa : ccSubagentSession) : ccSubagentSession :=
  {| manager := manager sa; lastMsgID := lastMsgID sa;
     pendingAssistant := None; pendingUser := None |}.

Definition recordOpt (p : ptr) (o : option Message) (h : Heap) : Heap :=
  match o with
  | Some m => record p m h
  | None => h
  end.

(** The messages pending at top level, as the deferred function records them. *)
Definition pendingTop (st : State) : list Message :=
  match currentAssistantMsg st with Some m => [setEndOfTurn m] | None => [] end ++
  match currentUserMsg st with Some m => [m] | None => [] end.

Definition closeAll (order : list string) (st : State) : State :=
  fold_left (fun st key => closeSession key st) order st.

(** A stream to run [processStream] on: an assistant message that starts a
    Task, then the sub-agent's prompt, its Bash call and the result of the
    call; the stream ends there, without the result of the Task. The lines are
    named, and the decoders look the names up. *)
Definition toyEvents : list (string * (string * StreamEvent)) :=
  [ ("main-1", ("assistant",
       {| ev_ParentToolUseID := ""; ev_ToolUseResult := None; ev_MessageID := "msg_1";
          ev_Content :=
            [ {| sc_Type := "thinking"; sc_Text := ""; sc_Thinking := "plan"; sc_ID := "";
                 sc_Name := ""; sc_Input := ""; sc_ToolUseID := ""; sc_Content := "";
                 sc_IsError := false |} ] |}));
    ("main-2", ("assistant",
       {| ev_ParentToolUseID := ""; ev_ToolUseResult := None; ev_MessageID := "msg_1";
          ev_Content :=
            [ {| sc_Type := "tool_use"; sc_Text := ""; sc_Thinking := ""; sc_ID := "toolu_01";
                 sc_Name := "Task"; sc_Input := "task-input"; sc_ToolUseID := "";
                 sc_Content := ""; sc_IsError := false |} ] |}));
    ("sub-1", ("user",
       {| ev_ParentToolUseID := "toolu_01"; ev_ToolUseResult := None; ev_MessageID := "";
          ev_Content :=
            [ {| sc_Type := "text"; sc_Text := "run echo"; sc_Thinking := ""; sc_ID := "";
                 sc_Name := ""; sc_Input := ""; sc_ToolUseID := ""; sc_Content := "";
                 sc_IsError := false |} ] |}));
    ("sub-2", ("assistant",
       {| ev_ParentToolUseID := "toolu_01"; ev_ToolUseResult := None; ev_MessageID := "msg_2";
          ev_Content :=
            [ {| sc_Type := "tool_use"; sc_Text := ""; sc_Thinking := ""; sc_ID := "toolu_02";
                 sc_Name := "Bash"; sc_Input := "echo"; sc_ToolUseID := ""; sc_Content := "";
                 sc_IsError := false |} ] |}));
    ("sub-3", ("user",
       {| ev_ParentToolUseID := "toolu_01"; ev_ToolUseResult := None; ev_MessageID := "";
          ev_Content :=
            [ {| sc_Type := "tool_result"; sc_Text := ""; sc_Thinking := ""; sc_ID := "";
                 sc_Name := ""; sc_Input := ""; sc_ToolUseID := "toolu_02";
                 sc_Content := "hi"; sc_IsError := false |} ] |}));
    ("main-3", ("user",
       {| ev_ParentToolUseID := ""; ev_ToolUseResult := Some "{status:completed}";
          ev_MessageID := "";
          ev_Content :=
            [ {| sc_Type := "tool_result"; sc_Text := ""; sc_Thinking := ""; sc_ID := "";
                 sc_Name := ""; sc_Input := ""; sc_ToolUseID := "toolu_01";
                 sc_Content := "echoed"; sc_IsError := false |} ] |}));
    ("main-4", ("assistant",
       {| ev_ParentToolUseID := ""; ev_ToolUseResult := None; ev_MessageID := "msg_3";
          ev_Content :=
            [ {| sc_Type := "text"; sc_Text := "All done."; sc_Thinking := ""; sc_ID := "";
                 sc_Name := ""; sc_Input := ""; sc_ToolUseID := ""; sc_Content := "";
                 sc_IsError := false |} ] |})) ]%string.

Definition lookupLine (l : string) : option (string * StreamEvent) :=
  snd <$> List.find (fun e => String.eqb (fst e) l) toyEvents.

Definition toyType (l : string) : option string :=
  match lookupLine l with
  | Some (typ, _) => Some typ
  | None => if String.eqb l "system" then Some "system"%string else None
  end.

Definition toyEvent (l : string) : option StreamEvent := snd <$> lookupLine l.

Definition toyTaskInput (raw : string) : ccTaskInput :=
  {| Description := "Run echo command"; Prompt := "run echo"; SubagentType := "general" |}.

(** The bridge hands out manager 1 and notes the slug as its conversation. *)
Definition toyBridge : option (string -> string -> string -> Heap -> Heap * result ptr) :=
  Some (fun slug parentID dir h =>
          (store h 1%nat {| conversationID := slug; cwd := dir; agentWorking := false;
                            recordSet := true; recorded := [] |}, Ok 1%nat)).

Definition toyStream : list string :=
  ["system"; "main-1"; ""; "main-2"; "not json"; "sub-1"; "sub-2"; "sub-3"]%string.

(** The whole exchange of [TestClaudeCodeLoop_ProcessStream_SubagentBridge]:
    the stream goes on with the result of the Task and the final answer. *)
Definition wholeStream : list string :=
  ["system"; "main-1"; "main-2"; "sub-1"; "sub-2"; "sub-3"; "main-3"; "main-4"]%string.

Definition toyRun : State :=
  fst (processStream 0%nat toyBridge toyType toyEvent toyTaskInput
         (fun _ => None) (fun _ => None) Slug.runes (fun r => r) mapOrder
         toyStream None (enter idleHeap [])).

End ClaudeCode.

(* ===================================================================== *)
(** * Package [strings] on bytes                                        *)
(* ===================================================================== *)

Module GoStrings.

(** ** Package [strings] on bytes *)

Definition newline : ascii := ascii_of_nat 10.
Definition tab : ascii := ascii_of_nat 9.

(** [strings.Index(s, substr)]: the index of the first occurrence, [None] for
    -1. *)
Fixpoint strings_Index (s substr : string) : option nat :=
  if String.prefix substr s then Some 0%nat
  else
    match s with
    | EmptyString => None
    | String _ s' => S <$> strings_Index s' substr
    end.

(** [strings.Split(s, sep)] for a separator of one byte. *)
Fixpoint strings_Split (s : string) (sep : ascii) : list string :=
  match s with
  | EmptyString => [EmptyString]
  | String c s' =>
      match strings_Split s' sep with
      | part :: parts =>
          if Ascii.eqb c sep then EmptyString :: part :: parts
          else String c part :: parts
      | [] => [String c EmptyString]
      end
  end.

(** [s[n:]] for [n] up to the length of [s]. *)
Definition sliceFrom (n : nat) (s : string) : string :=
  String.substring n (String.length s - n) s.

(** [strings.TrimPrefix]. *)
Definition strings_TrimPrefix (s prefix : string) : string :=
  if String.prefix prefix s then sliceFrom (String.length prefix) s else s.

End GoStrings.


(* ===================================================================== *)
(** * More on [processStream]: lines, shapes, sessions                  *)
(* ===================================================================== *)

Module StreamFacts.

Import ClaudeCode.

Section Lines.

Variable unmarshalType : string -> option string.
Variable unmarshalEvent : string -> option StreamEvent.

(** The type and the event of a line the loop of [processStream] acts on: the
    line is not empty, it is a JSON object whose type is "assistant" or "user",
    and it decodes into an event. Every other line is passed over by one of
    the [continue] statements or by the [if] on the type. *)
Definition eventOf (line : string) : option (string * StreamEvent) :=
  if String.eqb line "" then None
  else
    match unmarshalType line with
    | Some typ =>
        if String.eqb typ "assistant" || String.eqb typ "user"
        then (fun ev => (typ, ev)) <$> unmarshalEvent line
        else None
    | None => None
    end.

Definition acts (line : string) : bool := negb (isNil (eventOf line)).

(** A line of a sub-agent: its event has a parent tool-use ID. *)
Definition subagentLine (line : string) : bool :=
  match eventOf line with
  | Some (_, ev) => negb (String.eqb (ev_ParentToolUseID ev) "")
  | None => false
  end.

End Lines.

(** ** The shape of the messages of the main conversation *)

Definition isToolResult (t : ContentType) : bool :=
  match t with ContentTypeToolResult => true | _ => false end.

Definition isUser (m : Message) : bool :=
  match Role m with MessageRoleUser => true | MessageRoleAssistant => false end.

(** An assistant message as [flushAssistant] leaves it: text, thinking and
    tool-use blocks, and the turn ends exactly when no tool is used. *)
Definition assistantShape (m : Message) : bool :=
  negb (isUser m) &&
  Bool.eqb (EndOfTurn m) (negb (existsb (fun c => isToolUse (c_Type c)) (Contents m))) &&
  forallb (fun c => negb (isToolResult (c_Type c))) (Contents m).

(** A user message as [flushUser] leaves it: tool results only, and the turn
    goes on. *)
Definition userShape (m : Message) : bool :=
  isUser m && negb (EndOfTurn m) &&
  forallb (fun c => isToolResult (c_Type c)) (Contents m).

Definition shaped (m : Message) : bool := assistantShape m || userShape m.

(** No two user messages in a row. *)
Fixpoint noUserPairs (ms : list Message) : bool :=
  match ms with
  | a :: (b :: _) as rest => negb (isUser a && isUser b) && noUserPairs rest
  | _ => true
  end.

(** The event that carries the blocks of two events of one message. *)
Definition merged (ev1 ev2 : StreamEvent) : StreamEvent :=
  {| ev_ParentToolUseID := ev_ParentToolUseID ev1;
     ev_ToolUseResult := ev_ToolUseResult ev1;
     ev_MessageID := ev_MessageID ev1;
     ev_Content := ev_Content ev1 ++ ev_Content ev2 |}.

(** What [processStream] keeps for the main conversation is the same in two
    states. *)
Definition sameMain (st st' : State) : Prop :=
  history st' = history st /\
  currentAssistantMsg st' = currentAssistantMsg st /\
  currentUserMsg st' = currentUserMsg st /\
  currentMsgID st' = currentMsgID st /\
  taskInputs st' = taskInputs st.

Definition lastIsUser (ms : list Message) : bool :=
  match last ms with
  | Some m => isUser m
  | None => false
  end.

(** The messages pending for the main conversation have the shape of their
    role, and a pending user message never follows a user message. *)
Definition pendingShaped (st : State) (new : list Message) : Prop :=
  match currentAssistantMsg st with
  | Some m =>
      isUser m = false /\
      forallb (fun c => negb (isToolResult (c_Type c))) (Contents m) = true
  | None => True
  end /\
  match currentUserMsg st with
  | Some m =>
      isUser m = true /\ EndOfTurn m = false /\
      forallb (fun c => isToolResult (c_Type c)) (Contents m) = true
  | None => True
  end /\
  match currentAssistantMsg st, currentUserMsg st with
  | None, None => new = []
  | None, Some _ => lastIsUser new = false
  | Some _, _ => True
  end.

(** The history is the one the stream began with and the messages in [new],
    which are well shaped. *)
Definition mainShaped (hist : list Message) (st : State) (new : list Message) : Prop :=
  history st = hist ++ new /\
  forallb shaped new = true /\
  noUserPairs new = true.

(** The bridge keeps away from the main conversation: it leaves the manager
    [cm] as it is and never hands it out for a sub-agent. *)
Definition bridgeApart (cm : ptr)
    (ccSubagentBridge : option (string -> string -> string -> Heap -> Heap * result ptr))
  : Prop :=
  forall bridge slug parentID dir (g : Heap),
    ccSubagentBridge = Some bridge ->
    fst (bridge slug parentID dir g) cm = g cm /\
    snd (bridge slug parentID dir g) <> Ok cm.

(** What the main manager was handed since the stream began, when it has a
    [recordMessage]. *)
Definition handed (h : Heap) (cm : ptr) (new : list Message) : list Message :=
  if recordSet (h cm) then new else [].

(** The sessions a top-level user event with [tool_use_result] closes: those
    of the tool-use IDs of its tool-result blocks, in order. *)
Definition completedKeys (ev : StreamEvent) : list string :=
  map sc_ToolUseID (List.filter (fun c => String.eqb (sc_Type c) "tool_result") (ev_Content ev)).

(** The test stream read up to the last event of the sub-agent. *)
Definition subagentRunning : State :=
  scan 0%nat toyBridge toyType toyEvent toyTaskInput toyUnmarshalString toyUnmarshalBlocks
    Slug.runes (fun r => r) ["main-1"; "main-2"; "sub-1"; "sub-2"; "sub-3"]%string
    (enter idleHeap []).

(** Decoders to run the loop with: those of the test stream, and one more
    line that carries the blocks of its first two lines in one event. *)
Definition mergedType (l : string) : option string :=
  if String.eqb l "main-1+2" then Some "assistant"%string else toyType l.

Definition mergedEvent (l : string) : option StreamEvent :=
  if String.eqb l "main-1+2" then
    match toyEvent "main-1", toyEvent "main-2" with
    | Some ev1, Some ev2 => Some (merged ev1 ev2)
    | _, _ => None
    end
  else toyEvent l.

(** A state in which the Task of the test stream was seen and no session was
    opened for it yet. *)
Definition taskSeen : State :=
  setTaskInputs (enter idleHeap []) (<["toolu_01"%string := toyTaskInput ""]> ∅).

End StreamFacts.


(* ===================================================================== *)
(** * Opening the database; the order of the migrations                 *)
(* ===================================================================== *)

Module DBOpen.

Import DB.

(** ** [New] *)

(** [Config]. *)
Record Config : Type := {
  DSN : string
}.

Section New.

(** The file system and the open databases; a connection pool. *)
Variable World : Type.
Variable Pool : Type.

(** [filepath.Dir], [os.MkdirAll(dir, 0o755)] (its error, if any) and
    [NewPool(dsn, readers)] of the pool, which is not among the sources. *)
Variable filepath_Dir : string -> string.
Variable os_MkdirAll : string -> World -> World * option string.
Variable NewPool : string -> nat -> World -> World * result Pool.

(** The DSN the pool is opened with. *)
Definition poolDSN (dsn : string) : string :=
  if negb (strings_Contains dsn "?") then dsn +:+ "?_foreign_keys=on"
  else if negb (strings_Contains dsn "_foreign_keys") then dsn +:+ "&_foreign_keys=on"
  else dsn.

(** [New]: the [*DB] is its pool. *)
Definition New (cfg : Config) (w : World) : World * result Pool :=
  if String.eqb (DSN cfg) "" then (w, Err "database DSN cannot be empty")
  else if String.eqb (DSN cfg) ":memory:" then
    (w, Err ":memory: database not supported (requires multiple connections); use a temp file")
  else
    let '(w, failed) :=
      if negb (String.eqb (DSN cfg) ":memory:") then
        let dir := filepath_Dir (DSN cfg) in
        if negb (String.eqb dir ".") && negb (String.eqb dir "") then os_MkdirAll dir w
        else (w, None)
      else (w, None) in
    match failed with
    | Some err => (w, Err ("failed to create database directory: " +:+ err))
    | None =>
        match NewPool (poolDSN (DSN cfg)) 3 w with
        | (w, Err err) => (w, Err ("failed to create connection pool: " +:+ err))
        | (w, Ok pool) => (w, Ok pool)
        end
    end.

End New.

(** ** The order of the migrations *)

(** The numbers of two migration files are in order. *)
Definition numberLe (a b : string) : Prop :=
  match migrationNumberOf a, migrationNumberOf b with
  | Some x, Some y => x <= y
  | _, _ => False
  end.

End DBOpen.


(* ===================================================================== *)
(** * The Claude Code runner of sub-agents                              *)
(* ===================================================================== *)

Module Runner.

Import ClaudeCode GoStrings.

(** ** The port of the MCP endpoint *)

(** The port [run] derives from [s.listenAddr]. *)
Definition listenPort (listenAddr : string) : string :=
  let parts := strings_Split listenAddr ":" in
  if (1 <? length parts)%nat then List.last parts "8000"%string else "8000"%string.

Definition hasColon (s : string) : bool :=
  existsb (Ascii.eqb ":") (list_ascii_of_string s).

(** ** The events of the stream *)

(** An entry of [claudeStreamMessage.Content]. *)
Record claudeStreamContent : Type := {
  csc_Type : string;
  csc_Text : string;
  csc_ID : string;
  csc_Name : string;
  csc_Input : string;
  csc_ToolUseID : string;
  csc_Content : string;
  csc_IsError : bool
}.

Record claudeStreamMessage : Type := {
  csm_Role : string;
  csm_Content : list claudeStreamContent
}.

(** [subagentStreamEvent] as this file declares it. *)
Record subagentStreamEvent : Type := {
  e_Type : string;
  e_Message : claudeStreamMessage;
  e_Result : string
}.

(** The body of the [switch] on the type of a block: the content so far and
    [hasContent]. *)
Definition addBlock (acc : list Content * bool) (c : claudeStreamContent)
  : list Content * bool :=
  if String.eqb (csc_Type c) "text" then (fst acc ++ [textContent (csc_Text c)], true)
  else if String.eqb (csc_Type c) "tool_use"
  then (fst acc ++ [toolUseContent (csc_ID c) (csc_Name c) (csc_Input c)], true)
  else if String.eqb (csc_Type c) "tool_result"
  then (fst acc ++ [toolResultContent (csc_ToolUseID c) [textContent (csc_Content c)]
                      (csc_IsError c)], true)
  else acc.

(** A block [run] keeps. *)
Definition kept (c : claudeStreamContent) : bool :=
  String.eqb (csc_Type c) "text" || String.eqb (csc_Type c) "tool_use" ||
  String.eqb (csc_Type c) "tool_result".

Section Run.

(** The server: its managers, its database, its files. *)
Variable World : Type.

(** A row of [messages] ([generated.Message]) and a conversation. *)
Variable Created : Type.
Variable Conversation : Type.
Variable SequenceID : Created -> Z.

(** [s.listenAddr]. *)
Variable listenAddr : string.

(** [s.getOrCreateSubagentConversationManager]; [os.WriteFile] and
    [os.Remove] on the configuration file, whose path [mcpFile] gives;
    [json.Marshal] of the configuration with a URL; the working directory of
    the manager's tool set, made when there is none; the command;
    [manager.SetAgentWorking]; [s.db.CreateMessage] with the conversation, the
    type and the message; [q.GetConversation] under [s.db.Queries], whose
    error is ignored; [manager.subpub.Publish] of a created message under its
    sequence ID. *)
Variable getOrCreateSubagentConversationManager : string -> World -> World * result ptr.
Variable mcpFile : string -> string.
Variable json_Marshal : string -> string.
Variable os_WriteFile : string -> string -> World -> World.
Variable os_Remove : string -> World -> World.
Variable workingDir : ptr -> World -> World * string.
Variable claude : list string -> string -> Run.
Variable SetAgentWorking : ptr -> bool -> World -> World.
Variable CreateMessage : string -> string -> Message -> World -> World * result Created.
Variable GetConversation : string -> World -> World * Conversation.
Variable Publish : ptr -> Z -> Created -> Conversation -> World -> World.
Variable unmarshalEvent : string -> option subagentStreamEvent.

(** [mcpConfigJSON]. *)
Definition mcpConfigJSON (port conversationID : string) : string :=
  json_Marshal ("http://localhost:" +:+ port +:+ "/api/conversation/" +:+ conversationID
                +:+ "/mcp").

(** [s.db.CreateMessage(...)] and, when it succeeds, the publication of the
    message. *)
Definition createAndPublish (manager : ptr) (conversationID msgType : string) (msg : Message)
    (w : World) : World :=
  match CreateMessage conversationID msgType msg w with
  | (w, Ok created) =>
      let '(w, conv) := GetConversation conversationID w in
      Publish manager (SequenceID created) created conv w
  | (w, Err _) => w
  end.

(** The body of [for scanner.Scan() { ... }]: the world and [finalResult]. *)
Definition runLine (manager : ptr) (conversationID : string) (st : World * string)
    (line : string) : World * string :=
  if String.eqb line "" then st
  else
    match unmarshalEvent line with
    | None => st
    | Some ev =>
        if String.eqb (e_Type ev) "assistant" || String.eqb (e_Type ev) "user" then
          let role := if String.eqb (e_Type ev) "user" then MessageRoleUser
                      else MessageRoleAssistant in
          let msgType := if String.eqb (e_Type ev) "user" then AgentWorking.MessageTypeUser
                         else AgentWorking.MessageTypeAgent in
          let '(content, hasContent) :=
            fold_left addBlock (csm_Content (e_Message ev)) ([], false) in
          if hasContent then
            (createAndPublish manager conversationID msgType
               {| Role := role; Contents := content; EndOfTurn := false |} (fst st),
             snd st)
          else st
        else if String.eqb (e_Type ev) "result" then (fst st, e_Result ev)
        else st
    end.

(** The arguments of the command. *)
Definition runArgs (mcp prompt : string) : list string :=
  [ "--print"; "--verbose"; "--output-format"; "stream-json"; "--max-turns"; "25";
    "--permission-mode"; "bypassPermissions"; "--mcp-config"; mcp; "-p"; prompt ]%string.

(** [run]; the deferred calls run in the reverse order of their [defer]
    statements. *)
Definition run (conversationID prompt : string) (w : World) : World * result string :=
  match getOrCreateSubagentConversationManager conversationID w with
  | (w, Err err) => (w, Err ("failed to get conversation manager: " +:+ err))
  | (w, Ok manager) =>
      let port := listenPort listenAddr in
      let w := os_WriteFile (mcpFile conversationID) (mcpConfigJSON port conversationID) w in
      let '(w, cwd) := workingDir manager w in
      match claude (runArgs (mcpFile conversationID) prompt) cwd with
      | PipeFails err => (os_Remove (mcpFile conversationID) w, Err err)
      | StartFails err =>
          (os_Remove (mcpFile conversationID) w, Err ("start claude: " +:+ err))
      | Runs lines _ waitErr =>
          let w := SetAgentWorking manager true w in
          let w := createAndPublish manager conversationID AgentWorking.MessageTypeUser
                     {| Role := MessageRoleUser; Contents := [textContent prompt];
                        EndOfTurn := false |} w in
          let '(w, finalResult) :=
            fold_left (runLine manager conversationID) lines (w, EmptyString) in
          let w := os_Remove (mcpFile conversationID) (SetAgentWorking manager false w) in
          match waitErr with
          | Some err =>
              if String.eqb finalResult "" then (w, Err ("claude code error: " +:+ err))
              else (w, Ok finalResult)
          | None => (w, Ok finalResult)
          end
      end
  end.

(** The text of the result events of a stream, in order. *)
Definition results (lines : list string) : list string :=
  flat_map
    (fun line =>
       if String.eqb line "" then []
       else match unmarshalEvent line with
            | Some ev =>
                if String.eqb (e_Type ev) "assistant" || String.eqb (e_Type ev) "user" then []
                else if String.eqb (e_Type ev) "result" then [e_Result ev] else []
            | None => []
            end)
    lines.

(** A line that makes [run] store a message: an assistant or user event with
    a block that is kept. *)
Definition stores (line : string) : bool :=
  negb (String.eqb line "") &&
  match unmarshalEvent line with
  | Some ev =>
      (String.eqb (e_Type ev) "assistant" || String.eqb (e_Type ev) "user") &&
      existsb kept (csm_Content (e_Message ev))
  | None => false
  end.

End Run.

End Runner.


(* ===================================================================== *)
(** * Skill preambles                                                   *)
(* ===================================================================== *)

Module Skill.

Import GoStrings.

(** The line that closes the front matter, from the end of the line before. *)
Definition closing : string := String newline "---".

Section Parse.

(** [strings.TrimSpace], which follows Unicode's definition of white space. *)
Variable strings_TrimSpace : string -> string.

(** The inner loop, from [j := i + 1]: the indented lines that follow. *)
Fixpoint multiline (rest : list string) : list string :=
  match rest with
  | [] => []
  | line :: rest' =>
      match line with
      | EmptyString => multiline rest'
      | String c _ =>
          if Ascii.eqb c " " || Ascii.eqb c tab
          then strings_TrimSpace line :: multiline rest'
          else []
      end
  end.

(** The loop over the lines of the front matter: [name] and [description]. *)
Fixpoint fields (lines : list string) (name description : string) : string * string :=
  match lines with
  | [] => (name, description)
  | line :: rest =>
      let trimmed := strings_TrimSpace line in
      if String.prefix "name:" trimmed then
        fields rest (strings_TrimSpace (strings_TrimPrefix trimmed "name:")) description
      else if String.prefix "description:" trimmed then
        let value := strings_TrimSpace (strings_TrimPrefix trimmed "description:") in
        if negb (String.eqb value "") && negb (String.eqb value "|")
           && negb (String.eqb value ">")
        then fields rest name value
        else fields rest name (String.concat " " (multiline rest))
      else fields rest name description
  end.

(** [parseSkillPreamble]. The slice [content[4 : endIdx+3]] panics when its
    bounds are out of order; [Err] is that panic. *)
Definition parseSkillPreamble (content : string) : result string :=
  if negb (String.prefix "---" content) then Ok EmptyString
  else
    match strings_Index (sliceFrom 3 content) closing with
    | None => Ok EmptyString
    | Some endIdx =>
        if (endIdx + 3 <? 4)%nat then
          Err ("runtime error: slice bounds out of range [4:"
               +:+ DB.itoa (endIdx + 3) +:+ "]")
        else
          let frontmatter := String.substring 4 (endIdx + 3 - 4) content in
          let '(name, description) :=
            fields (strings_Split frontmatter newline) EmptyString EmptyString in
          if String.eqb name "" then Ok EmptyString
          else if String.eqb description "" then Ok name
          else Ok (name +:+ ": " +:+ description)
    end.

End Parse.

(** The front matter of [content] is closed. *)
Definition closed (content : string) : bool :=
  String.prefix "---" content &&
  match strings_Index (sliceFrom 3 content) closing with
  | Some _ => true
  | None => false
  end.

Definition panics {A : Type} (r : result A) : bool :=
  match r with
  | Ok _ => false
  | Err _ => true
  end.

(** ** A run of the function *)

(** [strings.TrimSpace] on a text of ASCII: blank, tab, newline, vertical tab,
    form feed and carriage return are cut from both ends. *)
Definition asciiSpace (c : ascii) : bool :=
  let n := nat_of_ascii c in
  ((9 <=? n) && (n <=? 13))%nat || (n =? 32)%nat.

Fixpoint trimLeft (s : string) : string :=
  match s with
  | String c s' => if asciiSpace c then trimLeft s' else s
  | EmptyString => EmptyString
  end.

Fixpoint trimRight (s : string) : string :=
  match s with
  | String c s' =>
      match trimRight s' with
      | EmptyString => if asciiSpace c then EmptyString else String c EmptyString
      | t => String c t
      end
  | EmptyString => EmptyString
  end.

Definition trimASCII (s : string) : string := trimRight (trimLeft s).

(** A text from its lines, each ended by a newline. *)
Fixpoint text (lines : list string) : string :=
  match lines with
  | [] => EmptyString
  | l :: lines' => l +:+ String newline (text lines')
  end.

End Skill.


(* ===================================================================== *)
(** * Guidance files of a directory                                     *)
(* ===================================================================== *)

Module Guidance.

(** [findGuidanceFilesInDir] of the system prompt: the guidance files of one
    directory, one for each name whatever its case. *)

(** An [os.DirEntry], as far as the function reads it. *)
Record DirEntry : Type := { Name : string; IsDir : bool }.

(** A Go [map[string]bool] read at a key: [false] when the key is missing. *)
Definition at_ (m : gmap string bool) (k : string) : bool :=
  match m !! k with
  | Some b => b
  | None => false
  end.

Definition guidanceNames : gmap string bool :=
  <["agent.md" := true]> (<["agents.md" := true]> (<["claude.md" := true]>
    (<["dear_llm.md" := true]> (<["readme.md" := true]> ∅)))).

Section Find.

(** [strings.ToLower], [filepath.Join] and [os.ReadDir] ([None] for an error). *)
Variable strings_ToLower : string -> string.
Variable filepath_Join : string -> string -> string.
Variable os_ReadDir : string -> option (list DirEntry).

(** One turn of the loop over the entries, on [found] and [seen]. *)
Definition visit (dir : string) (acc : list string * gmap string bool) (entry : DirEntry)
  : list string * gmap string bool :=
  let '(found, seen) := acc in
  if IsDir entry then acc
  else
    let lowerName := strings_ToLower (Name entry) in
    if at_ guidanceNames lowerName && negb (at_ seen lowerName)
    then (found ++ [filepath_Join dir (Name entry)], <[lowerName := true]> seen)
    else acc.

Definition findGuidanceFilesInDir (dir : string) : list string :=
  match os_ReadDir dir with
  | None => []
  | Some entries => fst (fold_left (visit dir) entries ([], ∅))
  end.

(** The lower-cased name of an entry, and whether the entry is a file with a
    guidance name. *)
Definition lowerName (entry : DirEntry) : string := strings_ToLower (Name entry).

Definition guidanceFile (entry : DirEntry) : bool :=
  negb (IsDir entry) && at_ guidanceNames (lowerName entry).

End Find.

End Guidance.


(* ===================================================================== *)
(** * The ntfy notification channel                                     *)
(* ===================================================================== *)

Module Ntfy.

(** A value of Go's type [any], as far as the factory looks at it: a string,
    or something else. *)
Inductive any : Type :=
| AnyString (s : string)
| AnyOther.

(** [v, _ := config[key].(string)]: the string, or "" when the key is absent
    or its value is no string. *)
Definition stringAt (config : gmap string any) (key : string) : string :=
  match config !! key with
  | Some (AnyString s) => s
  | _ => EmptyString
  end.

(** [ntfyPriorities]. *)
Definition ntfyPriorities (name : string) : option Z :=
  if String.eqb name "min" then Some 1
  else if String.eqb name "low" then Some 2
  else if String.eqb name "default" then Some 3
  else if String.eqb name "high" then Some 4
  else if String.eqb name "max" then Some 5
  else None.

(** [ntfy], without its HTTP client. *)
Record ntfy : Type := {
  server : string;
  topic : string;
  token : string;
  username : string;
  password : string;
  donePriority : Z;
  errorPriority : Z
}.

Section Factory.

(** The verb [%q]: [strconv.Quote]. *)
Variable strconv_Quote : string -> string.

(** The function [init] registers under the name "ntfy". *)
Definition newNtfy (config : gmap string any) : result ntfy :=
  let server := stringAt config "server" in
  if String.eqb server "" then
    Err ("ntfy channel requires " +:+ String ClaudeCode.quote "server" +:+
         String ClaudeCode.quote EmptyString)
  else
    let topic := stringAt config "topic" in
    if String.eqb topic "" then
      Err ("ntfy channel requires " +:+ String ClaudeCode.quote "topic" +:+
           String ClaudeCode.quote EmptyString)
    else
      let token := stringAt config "token" in
      let username := stringAt config "username" in
      let password := stringAt config "password" in
      let donePriorityStr := stringAt config "done_priority" in
      let donePriorityStr :=
        if String.eqb donePriorityStr "" then "default"%string else donePriorityStr in
      match ntfyPriorities donePriorityStr with
      | None =>
          Err ("ntfy channel: invalid done_priority " +:+ strconv_Quote donePriorityStr)
      | Some donePriority =>
          let errorPriorityStr := stringAt config "error_priority" in
          let errorPriorityStr :=
            if String.eqb errorPriorityStr "" then "high"%string else errorPriorityStr in
          match ntfyPriorities errorPriorityStr with
          | None =>
              Err ("ntfy channel: invalid error_priority "
                   +:+ strconv_Quote errorPriorityStr)
          | Some errorPriority =>
              Ok {| server := server; topic := topic; token := token;
                    username := username; password := password;
                    donePriority := donePriority; errorPriority := errorPriority |}
          end
      end.

End Factory.

(** A priority the configuration may name: one of the five names, or nothing. *)
Definition priorityName (s : string) : bool :=
  String.eqb s "" || String.eqb s "min" || String.eqb s "low" || String.eqb s "default" ||
  String.eqb s "high" || String.eqb s "max".

Definition isOk {A : Type} (r : result A) : bool :=
  match r with
  | Ok _ => true
  | Err _ => false
  end.

End Ntfy.

(* ===================================================================== *)
(** * Properties of [Slug]                                                *)
(* ===================================================================== *)

Module SlugProps.

Import Slug.

(** ** Lemmas on the string helpers *)

Lemma exists_last_or_nil {A : Type} (l : list A) :
  l = [] \/ exists l' a, l = l' ++ [a].
Proof.
  destruct l as [|x l]; [now left | right].
  destruct (exists_last (l := x :: l)) as (l' & a & E); [discriminate|].
  now exists l', a.
Qed.

Lemma fold_writeSlugRune (l b : list rune) :
  fold_left writeSlugRune l b = b ++ flat_map keepOrDash l.
Proof.
  revert b. induction l as [|r l IH]; intros b; simpl.
  - now rewrite app_nil_r.
  - rewrite IH. unfold writeSlugRune, keepOrDash.
    destruct (between "a" "z" r || between "0" "9" r || isRune "-" r).
    + now rewrite <- app_assoc.
    + destruct (isRune " " r || isRune "_" r).
      * now rewrite <- app_assoc.
      * reflexivity.
Qed.

Lemma ReplaceAll_cons2 (a b : rune) (t : list rune) :
  ReplaceAll_dashdash (a :: b :: t) =
  if (a =? dash) && (b =? dash) then dash :: ReplaceAll_dashdash t
  else a :: ReplaceAll_dashdash (b :: t).
Proof. reflexivity. Qed.

Lemma collapseRuns_cons2 (a b : rune) (t : list rune) :
  collapseRuns (a :: b :: t) =
  if (a =? dash) && (b =? dash) then collapseRuns (b :: t)
  else a :: collapseRuns (b :: t).
Proof. reflexivity. Qed.

Lemma Contains_cons2 (a b : rune) (t : list rune) :
  Contains_dashdash (a :: b :: t) =
  ((a =? dash) && (b =? dash)) || Contains_dashdash (b :: t).
Proof. reflexivity. Qed.

Lemma collapseRuns_fixed (s : list rune) :
  Contains_dashdash s = false -> collapseRuns s = s.
Proof.
  induction s as [|a s IH]; [reflexivity|].
  destruct s as [|b t]; [reflexivity|].
  intros H. rewrite Contains_cons2 in H. apply orb_false_iff in H as [H1 H2].
  rewrite collapseRuns_cons2, H1. f_equal. now apply IH.
Qed.

Lemma ReplaceAll_head (s : list rune) (d : rune) :
  hd d (ReplaceAll_dashdash s) = hd d s.
Proof.
  destruct s as [|a [|b t]]; try reflexivity.
  rewrite ReplaceAll_cons2.
  destruct ((a =? dash) && (b =? dash)) eqn:E; [|reflexivity].
  apply andb_true_iff in E as [Ea _]. apply Z.eqb_eq in Ea. now subst.
Qed.

Lemma ReplaceAll_nil (s : list rune) : ReplaceAll_dashdash s = [] -> s = [].
Proof.
  destruct s as [|a [|b t]]; try easy.
  rewrite ReplaceAll_cons2. now destruct ((a =? dash) && (b =? dash)).
Qed.

Lemma collapseRuns_cons_congr (c : rune) (u v : list rune) :
  collapseRuns u = collapseRuns v -> hd 0 u = hd 0 v -> (u = [] <-> v = []) ->
  collapseRuns (c :: u) = collapseRuns (c :: v).
Proof.
  intros Hc Hh Hn.
  destruct u as [|x u], v as [|y v]; try reflexivity.
  - destruct Hn as [Hn _]. now specialize (Hn eq_refl).
  - destruct Hn as [_ Hn]. now specialize (Hn eq_refl).
  - simpl in Hh. subst y. rewrite !collapseRuns_cons2.
    destruct ((c =? dash) && (x =? dash)); now rewrite Hc.
Qed.

Lemma collapseRuns_ReplaceAll_len (n : nat) :
  forall s : list rune, (length s <= n)%nat ->
    collapseRuns (ReplaceAll_dashdash s) = collapseRuns s.
Proof.
  induction n as [|n IH]; intros s Hn.
  - destruct s; [reflexivity | simpl in Hn; lia].
  - destruct s as [|a [|b t]]; try reflexivity.
    rewrite ReplaceAll_cons2.
    destruct ((a =? dash) && (b =? dash)) eqn:E.
    + apply andb_true_iff in E as [Ea Eb].
      apply Z.eqb_eq in Ea, Eb. subst a b.
      transitivity (collapseRuns (dash :: t)).
      * apply collapseRuns_cons_congr.
        -- apply IH. simpl in Hn. lia.
        -- apply ReplaceAll_head.
        -- split; [apply ReplaceAll_nil | now intros ->].
      * rewrite (collapseRuns_cons2 dash dash). now rewrite Z.eqb_refl.
    + apply collapseRuns_cons_congr.
      * apply IH. cbn [length] in *. lia.
      * apply ReplaceAll_head.
      * split; [apply ReplaceAll_nil | intros [=]].
Qed.

Lemma collapseRuns_ReplaceAll (s : list rune) :
  collapseRuns (ReplaceAll_dashdash s) = collapseRuns s.
Proof. now apply (collapseRuns_ReplaceAll_len (length s)). Qed.

Lemma ReplaceAll_length_le (n : nat) :
  forall s : list rune, (length s <= n)%nat ->
    (length (ReplaceAll_dashdash s) <= length s)%nat.
Proof.
  induction n as [|n IH]; intros s Hn.
  - destruct s; [simpl; lia | simpl in Hn; lia].
  - destruct s as [|a [|b t]]; try (simpl; lia).
    rewrite ReplaceAll_cons2.
    destruct ((a =? dash) && (b =? dash)).
    + cbn [length]. assert (length (ReplaceAll_dashdash t) <= length t)%nat.
      { apply IH. simpl in Hn. lia. } lia.
    + cbn [length]. assert (length (ReplaceAll_dashdash (b :: t)) <= length (b :: t))%nat.
      { apply IH. cbn [length] in *. lia. } cbn [length] in *. lia.
Qed.

Lemma ReplaceAll_length_lt (s : list rune) :
  Contains_dashdash s = true ->
  (length (ReplaceAll_dashdash s) < length s)%nat.
Proof.
  induction s as [|a s IH]; [discriminate|].
  destruct s as [|b t]; [discriminate|].
  rewrite Contains_cons2, ReplaceAll_cons2. intros H.
  destruct ((a =? dash) && (b =? dash)).
  - cbn [length].
    pose proof (ReplaceAll_length_le (length t) t (Nat.le_refl _)). lia.
  - simpl orb in H. specialize (IH H). cbn [length] in *. lia.
Qed.

(** The loop runs to its exit within [length s] iterations, and what it
    leaves is [s] with its runs of '-' collapsed. *)
Lemma collapseLoop_collapseRuns (fuel : nat) :
  forall s : list rune, (length s <= fuel)%nat -> collapseLoop fuel s = collapseRuns s.
Proof.
  induction fuel as [|fuel IH]; intros s Hn.
  - destruct s; [reflexivity | simpl in Hn; lia].
  - cbn [collapseLoop]. destruct (Contains_dashdash s) eqn:E.
    + rewrite IH.
      * apply collapseRuns_ReplaceAll.
      * apply ReplaceAll_length_lt in E. lia.
    + symmetry. now apply collapseRuns_fixed.
Qed.

Lemma collapseRuns_head (s : list rune) (d : rune) :
  hd d (collapseRuns s) = hd d s.
Proof.
  induction s as [|a s IH]; [reflexivity|].
  destruct s as [|b t]; [reflexivity|].
  rewrite collapseRuns_cons2.
  destruct ((a =? dash) && (b =? dash)) eqn:E; [|reflexivity].
  rewrite IH. apply andb_true_iff in E as [Ea Eb].
  apply Z.eqb_eq in Ea, Eb. now subst.
Qed.

Lemma collapseRuns_no_dashdash (s : list rune) :
  Contains_dashdash (collapseRuns s) = false.
Proof.
  induction s as [|a s IH]; [reflexivity|].
  destruct s as [|b t]; [reflexivity|].
  rewrite collapseRuns_cons2.
  destruct ((a =? dash) && (b =? dash)) eqn:E; [exact IH|].
  pose proof (collapseRuns_head (b :: t) 0) as Hh.
  destruct (collapseRuns (b :: t)) as [|x v] eqn:Ev; [reflexivity|].
  rewrite Contains_cons2. cbn [hd] in Hh. subst x. rewrite E. exact IH.
Qed.

Lemma trimLeftByte_snoc (l : list rune) (a c : rune) :
  trimLeftByte (l ++ [a]) c =
  match trimLeftByte l c with
  | [] => trimLeftByte [a] c
  | _ :: _ => trimLeftByte l c ++ [a]
  end.
Proof.
  induction l as [|x l IH]; [reflexivity|].
  cbn [app trimLeftByte]. destruct (x =? c); [exact IH | reflexivity].
Qed.

Lemma trimRightByte_cons (a : rune) (s : list rune) (c : rune) :
  trimRightByte (a :: s) c =
  match trimRightByte s c with
  | [] => if a =? c then [] else [a]
  | _ :: _ => a :: trimRightByte s c
  end.
Proof.
  unfold trimRightByte. cbn [rev]. rewrite trimLeftByte_snoc.
  destruct (trimLeftByte (rev s) c) as [|x v] eqn:E.
  - cbn. now destruct (a =? c).
  - rewrite rev_app_distr. cbn [rev app].
    destruct (rev v ++ [x]) eqn:E'; [now destruct (rev v)|reflexivity].
Qed.

Lemma trimLeftByte_head (s : list rune) (c x : rune) (v : list rune) :
  trimLeftByte s c = x :: v -> x <> c.
Proof.
  induction s as [|a s IH]; [discriminate|].
  cbn [trimLeftByte]. destruct (a =? c) eqn:E; [exact IH|].
  intros [= -> _]. now apply Z.eqb_neq.
Qed.

Lemma trimLeftByte_id (s : list rune) (c d : rune) :
  hd d s <> c -> trimLeftByte s c = s.
Proof.
  destruct s as [|a s]; [reflexivity|]. cbn [hd trimLeftByte].
  intros H. apply Z.eqb_neq in H. now rewrite H.
Qed.

Lemma trimLeftByte_length (s : list rune) (c : rune) :
  (length (trimLeftByte s c) <= length s)%nat.
Proof.
  induction s as [|a s IH]; [reflexivity|].
  cbn [trimLeftByte]. destruct (a =? c); cbn [length]; lia.
Qed.

Lemma trimRightByte_length (s : list rune) (c : rune) :
  (length (trimRightByte s c) <= length s)%nat.
Proof.
  unfold trimRightByte. rewrite length_rev.
  etransitivity; [apply trimLeftByte_length|]. now rewrite length_rev.
Qed.

Lemma trimRightByte_head (s : list rune) (c d : rune) :
  trimRightByte s c <> [] -> hd d (trimRightByte s c) = hd d s.
Proof.
  destruct s as [|a s]; [easy|]. rewrite trimRightByte_cons.
  destruct (trimRightByte s c); [|reflexivity].
  now destruct (a =? c).
Qed.

(** Trimming on the left and on the right commute. *)
Lemma trim_commute (s : list rune) (c : rune) :
  trimLeftByte (trimRightByte s c) c = trimRightByte (trimLeftByte s c) c.
Proof.
  induction s as [|a s IH]; [reflexivity|].
  rewrite trimRightByte_cons. cbn [trimLeftByte].
  destruct (a =? c) eqn:E.
  - destruct (trimRightByte s c) as [|x v] eqn:Ev.
    + rewrite <- IH. reflexivity.
    + cbn [trimLeftByte]. rewrite E. exact IH.
  - rewrite trimRightByte_cons.
    destruct (trimRightByte s c) as [|x v]; cbn [trimLeftByte]; now rewrite E.
Qed.

Lemma trimRightByte_id (s : list rune) (c d : rune) :
  List.last s d <> c -> trimRightByte s c = s.
Proof.
  destruct (exists_last_or_nil s) as [-> | (l & a & ->)]; [reflexivity|].
  rewrite last_last. intros H. unfold trimRightByte.
  rewrite rev_app_distr. cbn [rev app trimLeftByte].
  apply Z.eqb_neq in H. rewrite H. cbn [rev]. now rewrite rev_involutive.
Qed.

Lemma trimRightByte_changes (s : list rune) (c d : rune) :
  s <> [] -> List.last s d = c -> trimRightByte s c <> s.
Proof.
  destruct (exists_last_or_nil s) as [-> | (l & a & ->)]; [easy|].
  rewrite last_last. intros _ -> H.
  pose proof (trimRightByte_length l c) as Hl.
  apply (f_equal (@length _)) in H. revert H. unfold trimRightByte in *.
  rewrite rev_app_distr. cbn [rev app trimLeftByte]. rewrite Z.eqb_refl.
  rewrite length_app. cbn [length]. lia.
Qed.

Lemma keepOrDash_slugText (l : list rune) : slugText (flat_map keepOrDash l).
Proof.
  induction l as [|r l IH]; [constructor|].
  cbn [flat_map]. apply Forall_app. split; [|exact IH].
  unfold keepOrDash.
  destruct (between "a" "z" r || between "0" "9" r || isRune "-" r) eqn:E.
  - repeat constructor. exact E.
  - destruct (isRune " " r || isRune "_" r); repeat constructor.
Qed.

Lemma keepOrDash_id (s : list rune) : slugText s -> flat_map keepOrDash s = s.
Proof.
  induction 1 as [|r s Hr _ IH]; [reflexivity|].
  cbn [flat_map]. rewrite IH. unfold keepOrDash.
  unfold slugRune in Hr. now rewrite Hr.
Qed.

Lemma collapseRuns_Forall (P : rune -> Prop) (s : list rune) :
  Forall P s -> Forall P (collapseRuns s).
Proof.
  induction 1 as [|a s Ha Hs IH]; [constructor|].
  destruct s as [|b t]; [repeat constructor; exact Ha|].
  rewrite collapseRuns_cons2.
  destruct ((a =? dash) && (b =? dash)); [exact IH|].
  now constructor.
Qed.

Lemma trimLeftByte_Forall (P : rune -> Prop) (s : list rune) (c : rune) :
  Forall P s -> Forall P (trimLeftByte s c).
Proof.
  induction 1 as [|a s Ha Hs IH]; [constructor|].
  cbn [trimLeftByte]. destruct (a =? c); [exact IH | now constructor].
Qed.

Lemma trimRightByte_Forall (P : rune -> Prop) (s : list rune) (c : rune) :
  Forall P s -> Forall P (trimRightByte s c).
Proof.
  intros H. unfold trimRightByte.
  apply Forall_rev, trimLeftByte_Forall, Forall_rev, H.
Qed.

Lemma Contains_tail (a : rune) (s : list rune) :
  Contains_dashdash (a :: s) = false -> Contains_dashdash s = false.
Proof.
  destruct s as [|b t]; [reflexivity|]. rewrite Contains_cons2.
  intros H. now apply orb_false_iff in H.
Qed.

Lemma Contains_trimLeft (s : list rune) (c : rune) :
  Contains_dashdash s = false -> Contains_dashdash (trimLeftByte s c) = false.
Proof.
  induction s as [|a s IH]; [reflexivity|]. intros H.
  cbn [trimLeftByte]. destruct (a =? c); [|exact H].
  apply IH. now apply Contains_tail in H.
Qed.

Lemma Contains_trimRight (s : list rune) (c : rune) :
  Contains_dashdash s = false -> Contains_dashdash (trimRightByte s c) = false.
Proof.
  induction s as [|a s IH]; [reflexivity|]. intros H.
  rewrite trimRightByte_cons.
  pose proof (trimRightByte_head s c 0) as Hh.
  destruct (trimRightByte s c) as [|x v] eqn:E.
  - now destruct (a =? c).
  - specialize (Hh ltac:(discriminate)). cbn [hd] in Hh.
    destruct s as [|b t]; [discriminate|]. cbn [hd] in Hh. subst x.
    rewrite Contains_cons2 in *. apply orb_false_iff in H as [H1 H2].
    rewrite H1. now apply IH.
Qed.

Lemma Contains_firstn (n : nat) (s : list rune) :
  Contains_dashdash s = false -> Contains_dashdash (firstn n s) = false.
Proof.
  revert s. induction n as [|n IH]; intros s H; [reflexivity|].
  destruct s as [|a s]; [reflexivity|]. cbn [firstn].
  destruct n as [|n]; [reflexivity|].
  destruct s as [|b t]; [reflexivity|].
  change (firstn (S n) (b :: t)) with (b :: firstn n t) in *.
  rewrite Contains_cons2 in *. apply orb_false_iff in H as [H1 H2].
  rewrite H1. specialize (IH (b :: t) H2). exact IH.
Qed.

Section SlugLaws.

Variable caseTable : rune -> rune.

Lemma ToLower_slugRune (r : rune) :
  slugRune r = true -> unicode_ToLower caseTable r = r.
Proof.
  unfold slugRune, unicode_ToLower, between, isRune.
  change (rune_of "a") with 97. change (rune_of "z") with 122.
  change (rune_of "0") with 48. change (rune_of "9") with 57.
  change (rune_of "-") with 45. change (rune_of "A") with 65.
  change (rune_of "Z") with 90.
  intros H.
  destruct (r <? 128) eqn:E1; [|lia].
  destruct ((65 <=? r) && (r <=? 90)) eqn:E2; [lia | reflexivity].
Qed.

Lemma ToLower_slugText (s : list rune) :
  slugText s -> strings_ToLower caseTable s = s.
Proof.
  induction 1 as [|r s Hr _ IH]; [reflexivity|].
  unfold strings_ToLower in *. cbn [map]. rewrite IH.
  now rewrite ToLower_slugRune.
Qed.

(** What every slug looks like. *)
Lemma slug_shape (x : list rune) :
  let s := ccDescriptionToSlug caseTable x in
  slugText s /\ Contains_dashdash s = false /\ hd 0 s <> dash /\
  (length s <= 40)%nat.
Proof.
  cbv zeta. unfold ccDescriptionToSlug.
  rewrite fold_writeSlugRune, app_nil_l.
  rewrite collapseLoop_collapseRuns by reflexivity.
  set (b := flat_map keepOrDash (strings_ToLower caseTable x)).
  assert (Hb : slugText b) by apply keepOrDash_slugText.
  set (t := strings_Trim_dash (collapseRuns b)).
  assert (Ht : slugText t).
  { apply trimLeftByte_Forall, trimRightByte_Forall, collapseRuns_Forall, Hb. }
  assert (Hc : Contains_dashdash t = false).
  { apply Contains_trimLeft, Contains_trimRight, collapseRuns_no_dashdash. }
  assert (Hh : hd 0 t <> dash).
  { unfold t, strings_Trim_dash.
    destruct (trimLeftByte (trimRightByte (collapseRuns b) dash) dash) eqn:E.
    - discriminate.
    - cbn [hd]. eapply trimLeftByte_head, E. }
  unfold truncate40. destruct (40 <? Z.of_nat (length t)) eqn:E.
  - repeat split.
    + now apply Forall_take.
    + now apply Contains_firstn.
    + destruct t; [exact Hh | exact Hh].
    + rewrite length_firstn. lia.
  - repeat split; try assumption. lia.
Qed.

(** On a text that already has the shape of a slug the normaliser only
    removes trailing '-'. *)
Lemma slug_of_slugText (o : list rune) :
  slugText o -> Contains_dashdash o = false -> hd 0 o <> dash ->
  (length o <= 40)%nat ->
  ccDescriptionToSlug caseTable o = trimRightByte o dash.
Proof.
  intros Ho Hc Hh Hl. unfold ccDescriptionToSlug.
  rewrite fold_writeSlugRune, app_nil_l, ToLower_slugText, keepOrDash_id by assumption.
  rewrite collapseLoop_collapseRuns, collapseRuns_fixed by (assumption || reflexivity).
  unfold strings_Trim_dash.
  rewrite (trimLeftByte_id _ dash 0).
  - unfold truncate40. pose proof (trimRightByte_length o dash).
    destruct (40 <? _) eqn:E; [lia | reflexivity].
  - destruct (trimRightByte o dash) eqn:E; [discriminate|].
    rewrite <- E, trimRightByte_head; [exact Hh | now rewrite E].
Qed.

Lemma slug_twice (x : list rune) :
  ccDescriptionToSlug caseTable (ccDescriptionToSlug caseTable x) =
  trimRightByte (ccDescriptionToSlug caseTable x) dash.
Proof.
  destruct (slug_shape x) as (H1 & H2 & H3 & H4). now apply slug_of_slugText.
Qed.

(** The code against the words of the specification, step by step. *)
Lemma slug_refines_spec (x : list rune) :
  ccDescriptionToSlug caseTable x = slugSpec caseTable x.
Proof.
  unfold ccDescriptionToSlug, slugSpec.
  rewrite fold_writeSlugRune, app_nil_l.
  rewrite collapseLoop_collapseRuns by reflexivity.
  unfold strings_Trim_dash. rewrite trim_commute.
  fold (strings_ToLower caseTable x).
  change (trimRightByte (trimLeftByte ?s dash) dash) with (dropDashes s).
  unfold truncate40.
  destruct (40 <? _) eqn:E; [reflexivity|].
  symmetry. apply firstn_all2. lia.
Qed.

End SlugLaws.

(** C6. For every description, [ccDescriptionToSlug] returns the lowercased
    input with only [a-z0-9-] kept, each space and underscore turned into '-',
    every run of '-' collapsed to one, the leading and trailing '-' trimmed and
    the result cut to at most 40 characters; the loop that collapses the runs
    ends within the fuel it is given; and the inputs of the test map as the
    specification lists them. *)
Theorem ccDescriptionToSlug_spec :
  forall caseTable : rune -> rune,
    (forall description,
        ccDescriptionToSlug caseTable description = slugSpec caseTable description) /\
    (forall description, (length (ccDescriptionToSlug caseTable description) <= 40)%nat) /\
    (forall b fuel, (length b <= fuel)%nat ->
        collapseLoop fuel b = collapseLoop (length b) b /\
        Contains_dashdash (collapseLoop fuel b) = false) /\
    ccDescriptionToSlug caseTable (runes "Run echo command") = runes "run-echo-command" /\
    ccDescriptionToSlug caseTable (runes "  multiple   spaces  ") = runes "multiple-spaces" /\
    ccDescriptionToSlug caseTable (runes "under_score test") = runes "under-score-test" /\
    ccDescriptionToSlug caseTable (runes "") = runes "" /\
    ccDescriptionToSlug caseTable longDescription =
      firstn 40 (runes "a-very-long-description-that-exceeds-the-maximum-allowed-length-for-slugs").
Proof.
  intros caseTable. split; [apply slug_refines_spec|].
  split; [intros d; apply (slug_shape caseTable d)|].
  split.
  { intros b fuel H. rewrite !collapseLoop_collapseRuns by (assumption || reflexivity).
    split; [reflexivity | apply collapseRuns_no_dashdash]. }
  repeat split; reflexivity.
Qed.

(** C5, as the code has it. The normaliser is idempotent on every input whose
    slug does not end in '-'. *)
Theorem slug_idempotent_unless_cut :
  forall (caseTable : rune -> rune) (x : list rune),
    List.last (ccDescriptionToSlug caseTable x) 0 <> dash ->
    ccDescriptionToSlug caseTable (ccDescriptionToSlug caseTable x) =
    ccDescriptionToSlug caseTable x.
Proof.
  intros caseTable x H. rewrite slug_twice. now apply (trimRightByte_id _ dash 0).
Qed.

Lemma slug_idempotent_unless_cut_witness :
  List.last (ccDescriptionToSlug (fun r => r) (runes "Run echo command")) 0 <> dash /\
  ccDescriptionToSlug (fun r => r) (ccDescriptionToSlug (fun r => r) (runes "Run echo command")) =
  ccDescriptionToSlug (fun r => r) (runes "Run echo command").
Proof.
  split.
  - vm_compute. discriminate.
  - apply (slug_idempotent_unless_cut (fun r => r) (runes "Run echo command")).
    vm_compute. discriminate.
Defined.

(** C5 as stated fails: the slug of 39 letters, a '-' and one more letter is
    cut after the '-', and normalising it again removes that '-'. This holds
    whatever the case table is. *)
Lemma slug_not_idempotent :
  exists x : list rune,
    x = cutAfterDash /\
    forall caseTable : rune -> rune,
      ccDescriptionToSlug caseTable x = firstn 40 cutAfterDash /\
      ccDescriptionToSlug caseTable (ccDescriptionToSlug caseTable x) = firstn 39 cutAfterDash /\
      ccDescriptionToSlug caseTable (ccDescriptionToSlug caseTable x) <>
      ccDescriptionToSlug caseTable x.
Proof.
  exists cutAfterDash. split; [reflexivity|]. intros caseTable.
  assert (E1 : ccDescriptionToSlug caseTable cutAfterDash = firstn 40 cutAfterDash)
    by reflexivity.
  assert (E2 : ccDescriptionToSlug caseTable (firstn 40 cutAfterDash) = firstn 39 cutAfterDash)
    by reflexivity.
  rewrite E1, E2. repeat split. discriminate.
Qed.

End SlugProps.

(* ===================================================================== *)
(** * Properties of [AgentWorking]                                        *)
(* ===================================================================== *)

Module AgentWorkingProps.

Import AgentWorking.

Lemma dropLeadingGitInfo_split (ms : list APIMessage) :
  exists gs, ms = gs ++ dropLeadingGitInfo ms /\
             Forall (fun m => isType MessageTypeGitInfo m = true) gs.
Proof.
  induction ms as [|m ms (gs & E & F)].
  - exists []. split; [reflexivity | constructor].
  - cbn [dropLeadingGitInfo]. destruct (isType MessageTypeGitInfo m) eqn:G.
    + exists (m :: gs). split; [cbn; now rewrite <- E | now constructor].
    + exists []. split; [reflexivity | constructor].
Qed.

Lemma dropLeadingGitInfo_head (ms : list APIMessage) (m : APIMessage) (r : list APIMessage) :
  dropLeadingGitInfo ms = m :: r -> isType MessageTypeGitInfo m = false.
Proof.
  induction ms as [|a ms IH]; [discriminate|].
  cbn [dropLeadingGitInfo]. destruct (isType MessageTypeGitInfo a) eqn:G; [exact IH|].
  now intros [= -> _].
Qed.

Lemma dropLeadingGitInfo_app (gs ms : list APIMessage) :
  Forall (fun m => isType MessageTypeGitInfo m = true) gs ->
  dropLeadingGitInfo (gs ++ ms) = dropLeadingGitInfo ms.
Proof.
  induction 1 as [|g gs Hg _ IH]; [reflexivity|].
  cbn [app dropLeadingGitInfo]. now rewrite Hg.
Qed.

(** C2. For every ordered list of messages the computation splits the list
    into the messages it keeps and the trailing [gitinfo] messages it strips,
    the kept part not ending in a [gitinfo]; it answers "not working" when
    nothing is kept, and otherwise decides on the last kept message alone:
    "not working" for an agent message whose end-of-turn flag is explicitly
    true and for an error message, "working" for everything else (a tool
    message, an agent message whose flag is false or absent, a user message).
    Appending [gitinfo] messages never changes the answer, and the table of
    the test is met. *)
Theorem agentWorking_spec :
  forall messages : list APIMessage,
    (exists kept stripped,
        messages = kept ++ stripped /\
        Forall (fun m => Type_ m = MessageTypeGitInfo) stripped /\
        stripTrailingGitInfo messages = kept /\
        match rev kept with
        | [] => agentWorking messages = false
        | lastMsg :: _ =>
            Type_ lastMsg <> MessageTypeGitInfo /\
            agentWorking messages = negb (endsTurn lastMsg) /\
            (Type_ lastMsg = MessageTypeAgent -> EndOfTurn lastMsg = Some true ->
             agentWorking messages = false) /\
            (Type_ lastMsg = MessageTypeError -> agentWorking messages = false) /\
            (Type_ lastMsg = MessageTypeTool -> agentWorking messages = true) /\
            (Type_ lastMsg = MessageTypeUser -> agentWorking messages = true) /\
            (Type_ lastMsg = MessageTypeAgent -> EndOfTurn lastMsg <> Some true ->
             agentWorking messages = true) /\
            (Type_ lastMsg <> MessageTypeAgent -> Type_ lastMsg <> MessageTypeError ->
             agentWorking messages = true)
        end) /\
    (forall gs, Forall (fun m => Type_ m = MessageTypeGitInfo) gs ->
                agentWorking (messages ++ gs) = agentWorking messages) /\
    Forall (fun t => agentWorking (fst t) = snd t) testTable.
Proof.
  intros messages. split; [|split].
  - destruct (dropLeadingGitInfo_split (rev messages)) as (gs & E & F).
    exists (stripTrailingGitInfo messages), (rev gs).
    split; [|split; [|split]].
    + unfold stripTrailingGitInfo. rewrite <- rev_app_distr, <- E.
      now rewrite rev_involutive.
    + apply Forall_rev. eapply Forall_impl; [exact F|].
      intros m Hm. now apply String.eqb_eq in Hm.
    + reflexivity.
    + unfold agentWorking.
      destruct (rev (stripTrailingGitInfo messages)) as [|lastMsg r] eqn:R; [reflexivity|].
      assert (G : isType MessageTypeGitInfo lastMsg = false).
      { unfold stripTrailingGitInfo in R. rewrite rev_involutive in R.
        eapply dropLeadingGitInfo_head, R. }
      unfold endsTurn, isType in *.
      split; [intros T; rewrite T in G; discriminate|].
      unfold MessageTypeAgent, MessageTypeError, MessageTypeTool, MessageTypeUser in *.
      destruct (String.eqb_spec (Type_ lastMsg) "agent") as [A|A];
        destruct (String.eqb_spec (Type_ lastMsg) "error") as [Er|Er];
        destruct (EndOfTurn lastMsg) as [[|]|] eqn:Eo;
        cbn; repeat split; intros; try reflexivity; congruence.
  - intros gs Hgs. unfold agentWorking, stripTrailingGitInfo.
    rewrite rev_app_distr, dropLeadingGitInfo_app; [reflexivity|].
    apply Forall_rev. eapply Forall_impl; [exact Hgs|].
    intros m Hm. now apply String.eqb_eq.
  - repeat constructor.
Qed.

End AgentWorkingProps.

(* ===================================================================== *)
(** * Properties of [SubPub]                                              *)
(* ===================================================================== *)

Module SubPubProps.

Import SubPub.

Section BusLaws.

Variable K : Type.

Local Abbreviation bus := (list (subscriber K)).
Local Abbreviation Subscribe := (Subscribe K).
Local Abbreviation Publish := (Publish K).
Local Abbreviation publishFrom := (publishFrom K).
Local Abbreviation deliverFrom := (deliverFrom K).
Local Abbreviation pullSubscriber := (pullSubscriber K).
Local Abbreviation pull := (pull K).
Local Abbreviation pulls := (pulls K).
Local Abbreviation pullsSubscriber := (pullsSubscriber K).

Lemma Publish_length (n : Z) (p : K) (b : bus) : length (Publish n p b) = length b.
Proof. apply length_fmap. Qed.

Lemma publishFrom_lookup (ps : list K) :
  forall (first : Z) (b : bus) (i : nat) (s : subscriber K),
    b !! i = Some s ->
    publishFrom first ps b !! i = Some (deliverFrom first ps s).
Proof.
  induction ps as [|p ps IH]; intros first b i s H; [exact H|].
  cbn [publishFrom deliverFrom]. apply IH.
  unfold Publish. rewrite list_lookup_fmap, H. reflexivity.
Qed.

Lemma Subscribe_lookup (n : Z) (b : bus) :
  fst (Subscribe n b) !! snd (Subscribe n b) =
  Some {| lastSeen := n; buffer := []; evicted := false |}.
Proof.
  cbn [Subscribe fst snd]. rewrite lookup_app_r by reflexivity.
  now rewrite Nat.sub_diag.
Qed.

Lemma pull_lookup (i : nat) (b : bus) (s : subscriber K) :
  b !! i = Some s ->
  pull i b = (fst (pullSubscriber s), <[i := snd (pullSubscriber s)]> b) /\
  snd (pull i b) !! i = Some (snd (pullSubscriber s)).
Proof.
  intros H. unfold pull. rewrite H. destruct (pullSubscriber s) as [r s'].
  split; [reflexivity|]. cbn [snd].
  apply list_lookup_insert_eq. now apply lookup_lt_Some in H.
Qed.

Lemma pulls_lookup (n : nat) :
  forall (i : nat) (b : bus) (s : subscriber K),
    b !! i = Some s ->
    fst (pulls n i b) = fst (pullsSubscriber n s) /\
    snd (pulls n i b) !! i = Some (snd (pullsSubscriber n s)).
Proof.
  induction n as [|n IH]; intros i b s H; [now split|].
  cbn [pulls pullsSubscriber].
  destruct (pull_lookup i b s H) as [E1 E2]. rewrite E1 in *. cbn [snd] in E2.
  destruct (pullSubscriber s) as [r s']. cbn [fst snd] in *.
  destruct (IH i _ s' E2) as [F1 F2].
  destruct (pulls n i (<[i:=s']> b)) as [rs b''].
  destruct (pullsSubscriber n s') as [rs' s''].
  cbn [fst snd] in *. subst. now split.
Qed.

Lemma pullsSubscriber_add (n m : nat) :
  forall s : subscriber K,
    pullsSubscriber (n + m) s =
    (fst (pullsSubscriber n s) ++ fst (pullsSubscriber m (snd (pullsSubscriber n s))),
     snd (pullsSubscriber m (snd (pullsSubscriber n s)))).
Proof.
  induction n as [|n IH]; intros s.
  - cbn [Nat.add pullsSubscriber fst snd app]. now destruct (pullsSubscriber m s).
  - cbn [Nat.add pullsSubscriber]. destruct (pullSubscriber s) as [r s'].
    rewrite IH. destruct (pullsSubscriber n s') as [rs s'']. reflexivity.
Qed.

Lemma pullsSubscriber_closed (n : nat) (s : subscriber K) :
  buffer s = [] -> evicted s = true ->
  pullsSubscriber n s = (repeat NotOk n, s).
Proof.
  intros Hb He. induction n as [|n IH]; [reflexivity|].
  cbn [pullsSubscriber repeat]. unfold pullSubscriber at 1.
  rewrite Hb, He, IH. reflexivity.
Qed.

End BusLaws.

(** C3. A subscriber subscribes with last-seen sequence 0, to a bus that may
    already have other subscribers; 11 payloads are then published with the
    sequence IDs 1 to 11 before it pulls. Its first 10 pulls return the first
    10 payloads in publish order, the next pull returns ok=false, and so does
    every later one. *)
Theorem overflow_evicts :
  forall (K : Type) (b0 : list (subscriber K)) (ps : list K),
    length ps = 11%nat ->
    let '(b1, next) := Subscribe K 0 b0 in
    let b2 := publishFrom K 1 ps b1 in
    fst (pulls K 10 next b2) = map Payload (firstn 10 ps) /\
    (forall later : nat,
        fst (pulls K (10 + 1 + later) next b2) =
        map Payload (firstn 10 ps) ++ NotOk :: repeat NotOk later).
Proof.
  intros K b0 ps Hlen.
  pose proof (Subscribe_lookup K 0 b0) as Hs.
  destruct (Subscribe K 0 b0) as [b1 next]. cbn [fst snd] in Hs. cbv zeta.
  pose proof (publishFrom_lookup K ps 1 b1 next _ Hs) as Hp.
  do 12 (destruct ps as [|? ps]; try discriminate Hlen). clear Hlen.
  split.
  - destruct (pulls_lookup K 10 next _ _ Hp) as [E _]. rewrite E. reflexivity.
  - intros later.
    destruct (pulls_lookup K (10 + 1 + later) next _ _ Hp) as [E _]. rewrite E.
    rewrite pullsSubscriber_add. cbn [fst].
    match goal with
    | |- context [pullsSubscriber K later ?s] =>
        rewrite (pullsSubscriber_closed K later s) by reflexivity
    end.
    reflexivity.
Qed.

Lemma overflow_evicts_witness :
  length testPayloads = 11%nat /\
  fst (pulls string 10 0 (publishFrom string 1 testPayloads (fst (Subscribe string 0 (New string)))))
  = map Payload (firstn 10 testPayloads) /\
  (forall later : nat,
      fst (pulls string (10 + 1 + later) 0
             (publishFrom string 1 testPayloads (fst (Subscribe string 0 (New string)))))
      = map Payload (firstn 10 testPayloads) ++ NotOk :: repeat NotOk later).
Proof.
  split; [reflexivity|].
  exact (overflow_evicts string (New string) testPayloads eq_refl).
Defined.

End SubPubProps.

(* ===================================================================== *)
(** * Properties of [DB]                                                  *)
(* ===================================================================== *)

Module DBProps.

Import DB.

(** ** Lemmas on the sequence IDs *)

Lemma maximum_spec (l : list Z) :
  forall x, In (maximum x l) (x :: l) /\ Forall (fun y => y <= maximum x l) (x :: l).
Proof.
  unfold maximum. induction l as [|a l IH]; intros x.
  - cbn. split; [now left | repeat constructor; lia].
  - cbn [fold_left]. destruct (IH (Z.max x a)) as [Hin Hall].
    split.
    + destruct Hin as [E | Hin].
      * rewrite <- E. destruct (Z.max_spec x a) as [[_ ->] | [_ ->]];
          [right; now left | now left].
      * right. now right.
    + inversion Hall as [|? ? H1 H2]; subst.
      constructor; [lia|]. constructor; [lia | exact H2].
Qed.

Lemma seqIDs_snoc (c : string) (ms : list Message) (m : Message) :
  seqIDs c (ms ++ [m]) =
  seqIDs c ms ++ (if String.eqb (ConversationID m) c then [SequenceID m] else []).
Proof.
  unfold seqIDs. rewrite List.filter_app, map_app. cbn [List.filter].
  now destruct (String.eqb (ConversationID m) c).
Qed.

Lemma seqIDs_app (c : string) (ms ms' : list Message) :
  seqIDs c (ms ++ ms') = seqIDs c ms ++ seqIDs c ms'.
Proof. unfold seqIDs. now rewrite List.filter_app, map_app. Qed.

Lemma seqIDs_In (c : string) (ms : list Message) (m : Message) :
  In m ms -> ConversationID m = c -> In (SequenceID m) (seqIDs c ms).
Proof.
  intros Hin Hc. unfold seqIDs. apply in_map, List.filter_In.
  split; [exact Hin | now apply String.eqb_eq].
Qed.

Lemma StronglySorted_snoc (l : list Z) (x : Z) :
  StronglySorted Z.lt l -> Forall (fun y => y < x) l -> StronglySorted Z.lt (l ++ [x]).
Proof.
  induction 1 as [|a l Hl IH Ha]; intros Hx.
  - repeat constructor.
  - inversion Hx as [|? ? H1 H2]; subst. cbn [app]. constructor.
    + now apply IH.
    + apply Forall_app. split; [exact Ha | now repeat constructor].
Qed.

(** The next sequence ID is 1 for a conversation without messages, else one
    more than the largest existing one; in both cases above every existing one. *)
Lemma GetNextSequenceID_spec (c : string) (tx : Store) :
  exists n, GetNextSequenceID c tx = Ok n /\
    match seqIDs c (messages tx) with
    | [] => n = 1
    | x :: l => In (n - 1) (x :: l) /\ Forall (fun y => y <= n - 1) (x :: l)
    end /\
    Forall (fun y => y < n) (seqIDs c (messages tx)).
Proof.
  unfold GetNextSequenceID. destruct (seqIDs c (messages tx)) as [|x l].
  - exists 1. repeat split. constructor.
  - exists (maximum x l + 1). destruct (maximum_spec l x) as [H1 H2].
    replace (maximum x l + 1 - 1) with (maximum x l) by lia.
    repeat split; try assumption.
    eapply Forall_impl; [exact H2|]. cbn. intros; lia.
Qed.

Lemma pairsUnique_snoc (ms : list Message) (m : Message) :
  pairsUnique ms ->
  Forall (fun y => y < SequenceID m) (seqIDs (ConversationID m) ms) ->
  pairsUnique (ms ++ [m]).
Proof.
  unfold pairsUnique. intros Hu Hlt. rewrite map_app. cbn [map].
  apply NoDup_app. split; [exact Hu|]. split.
  - intros p Hp Hin. apply list_elem_of_In in Hp, Hin.
    destruct Hin as [<- | []].
    apply in_map_iff in Hp as (old & E & Hold). injection E as Ec Es.
    pose proof (seqIDs_In _ _ _ Hold Ec) as Hs.
    rewrite Forall_forall in Hlt. apply list_elem_of_In in Hs.
    specialize (Hlt _ Hs). lia.
  - apply NoDup_singleton.
Qed.

Lemma increasing_snoc (ms : list Message) (m : Message) :
  increasing ms ->
  Forall (fun y => y < SequenceID m) (seqIDs (ConversationID m) ms) ->
  increasing (ms ++ [m]).
Proof.
  intros Hi Hlt c. rewrite seqIDs_snoc.
  destruct (String.eqb_spec (ConversationID m) c) as [<- | _].
  - now apply StronglySorted_snoc.
  - rewrite app_nil_r. apply Hi.
Qed.

Section CreateMessageLaws.

Variable Payload : Type.
Variable json_Marshal : Payload -> result string.

Lemma createMessageTx_spec (messageID : string) (params : CreateMessageParams Payload)
    (llm user usage display : option string) (tx : Store) :
  match createMessageTx Payload messageID params llm user usage display tx with
  | (tx', Ok m) =>
      conversations tx' = conversations tx /\
      messages tx' = messages tx ++ [m] /\
      ConversationID m = p_ConversationID Payload params /\
      GetNextSequenceID (p_ConversationID Payload params) tx = Ok (SequenceID m)
  | (tx', Err _) => tx' = tx
  end.
Proof.
  unfold createMessageTx.
  destruct (GetNextSequenceID_spec (p_ConversationID Payload params) tx) as (n & -> & _).
  unfold q_CreateMessage.
  destruct (negb _); [reflexivity|].
  destruct (existsb _ (messages tx)); [reflexivity|].
  cbn. repeat split.
Qed.

Lemma CreateMessage_cases (messageID : string) (params : CreateMessageParams Payload)
    (db : Store) :
  match CreateMessage Payload json_Marshal messageID params db with
  | (db', Ok m) =>
      conversations db' = conversations db /\
      messages db' = messages db ++ [m] /\
      ConversationID m = p_ConversationID Payload params /\
      GetNextSequenceID (p_ConversationID Payload params) db = Ok (SequenceID m)
  | (db', Err _) => db' = db
  end.
Proof.
  unfold CreateMessage.
  destruct (marshalField _ _ "LLM" _); [|reflexivity].
  destruct (marshalField _ _ "user" _); [|reflexivity].
  destruct (marshalField _ _ "usage" _); [|reflexivity].
  destruct (marshalField _ _ "display" _); [|reflexivity].
  unfold Tx.
  pose proof (createMessageTx_spec messageID params a a0 a1 a2 db) as H.
  destruct (createMessageTx _ _ _ _ _ _ _ db) as [db' [m|e]]; [exact H | reflexivity].
Qed.

Lemma CreateMessage_above (messageID : string) (params : CreateMessageParams Payload)
    (db db' : Store) (m : Message) :
  CreateMessage Payload json_Marshal messageID params db = (db', Ok m) ->
  messages db' = messages db ++ [m] /\
  Forall (fun y => y < SequenceID m) (seqIDs (ConversationID m) (messages db)).
Proof.
  intros E. pose proof (CreateMessage_cases messageID params db) as H.
  rewrite E in H. destruct H as (_ & Hm & Hc & Hn). split; [exact Hm|].
  rewrite Hc.
  destruct (GetNextSequenceID_spec (p_ConversationID Payload params) db) as (n & En & _ & Hlt).
  rewrite En in Hn. injection Hn as <-. exact Hlt.
Qed.

(** What a run of calls adds to the store is exactly the messages it created,
    and every one of them lies above all the sequence IDs its conversation
    had before the run. *)
Lemma createAll_spec (calls : list (string * CreateMessageParams Payload)) :
  forall db : Store,
    let '(db', ms) := createAll Payload json_Marshal calls db in
    messages db' = messages db ++ ms /\
    (forall c, Forall (fun n => Forall (fun y => y < n) (seqIDs c (messages db))) (seqIDs c ms)) /\
    (forall c, StronglySorted Z.lt (seqIDs c ms)) /\
    (pairsUnique (messages db) -> pairsUnique (messages db')) /\
    (increasing (messages db) -> increasing (messages db')).
Proof.
  induction calls as [|[messageID params] calls IH]; intros db.
  - cbn [createAll]. rewrite app_nil_r. repeat split; try tauto; intros c; constructor.
  - cbn [createAll].
    destruct (CreateMessage Payload json_Marshal messageID params db) as [db1 [m|e]] eqn:E.
    + apply CreateMessage_above in E as [Hm Hlt].
      specialize (IH db1). destruct (createAll _ _ calls db1) as [db2 ms].
      destruct IH as (Hms & Habove & Hsorted & Hu & Hi).
      rewrite Hm in *. split; [now rewrite Hms, <- app_assoc|].
      assert (Hrest : forall c, Forall (fun n => Forall (fun y => y < n)
                 (seqIDs c (messages db) ++
                  (if String.eqb (ConversationID m) c then [SequenceID m] else [])))
                 (seqIDs c ms)).
      { intros c. specialize (Habove c). now rewrite seqIDs_snoc in Habove. }
      split; [|split; [|split]].
      * intros c. unfold seqIDs at 2. cbn [List.filter].
        fold (seqIDs c ms).
        destruct (String.eqb_spec (ConversationID m) c) as [<- | _].
        -- cbn [map]. constructor; [exact Hlt|].
           eapply Forall_impl; [apply (Hrest (ConversationID m))|].
           cbn. intros n Hn. now apply Forall_app in Hn as [Hn _].
        -- fold (seqIDs c ms). eapply Forall_impl; [apply (Hrest c)|].
           cbn. intros n Hn. now apply Forall_app in Hn as [Hn _].
      * intros c. unfold seqIDs. cbn [List.filter].
        fold (seqIDs c ms).
        destruct (String.eqb_spec (ConversationID m) c) as [<- | _]; [|apply Hsorted].
        cbn [map]. fold (seqIDs (ConversationID m) ms).
        constructor; [apply Hsorted|].
        eapply Forall_impl; [apply (Hrest (ConversationID m))|].
        cbn. intros n Hn. apply Forall_app in Hn as [_ Hn].
        rewrite String.eqb_refl in Hn. now inversion Hn.
      * intros H. apply Hu. now apply pairsUnique_snoc.
      * intros H. apply Hi. now apply increasing_snoc.
    + pose proof (CreateMessage_cases messageID params db) as H.
      rewrite E in H. subst db1. apply IH.
Qed.

End CreateMessageLaws.

(** [CreateMessage] succeeds exactly when the four fields marshal, the
    conversation exists and the message ID is new; then the row it returns is
    the one it adds, made of the message ID, the parameters and the marshalled
    fields. In every other case it returns an error and the store as it was. *)
Lemma CreateMessage_outcome (Payload : Type) (json_Marshal : Payload -> result string)
    (messageID : string) (params : CreateMessageParams Payload) (db : Store) :
  match marshalField Payload json_Marshal "LLM" (p_LLMData Payload params),
        marshalField Payload json_Marshal "user" (p_UserData Payload params),
        marshalField Payload json_Marshal "usage" (p_UsageData Payload params),
        marshalField Payload json_Marshal "display" (p_DisplayData Payload params) with
  | Ok llm, Ok user, Ok usage, Ok display =>
      if existsb (String.eqb (p_ConversationID Payload params)) (conversations db) &&
         negb (existsb (fun m => String.eqb (MessageID m) messageID) (messages db))
      then
        exists m : Message,
          CreateMessage Payload json_Marshal messageID params db =
            ({| conversations := conversations db; messages := messages db ++ [m] |}, Ok m) /\
          MessageID m = messageID /\
          ConversationID m = p_ConversationID Payload params /\
          Type_ m = p_Type Payload params /\
          LlmData m = llm /\ UserData m = user /\
          UsageData m = usage /\ DisplayData m = display
      else
        exists e, CreateMessage Payload json_Marshal messageID params db = (db, Err e)
  | _, _, _, _ =>
      exists e, CreateMessage Payload json_Marshal messageID params db = (db, Err e)
  end.
Proof.
  unfold CreateMessage.
  generalize (marshalField Payload json_Marshal "LLM" (p_LLMData Payload params)).
  generalize (marshalField Payload json_Marshal "user" (p_UserData Payload params)).
  generalize (marshalField Payload json_Marshal "usage" (p_UsageData Payload params)).
  generalize (marshalField Payload json_Marshal "display" (p_DisplayData Payload params)).
  intros [display|e4] [usage|e3] [user|e2] [llm|e1]; try (now eexists).
  unfold Tx, createMessageTx.
  destruct (GetNextSequenceID_spec (p_ConversationID Payload params) db) as (n & -> & _).
  unfold q_CreateMessage. cbn [ConversationID MessageID].
  destruct (existsb (String.eqb (p_ConversationID Payload params)) (conversations db));
    cbn [negb andb]; [|now eexists].
  destruct (existsb _ (messages db)); cbn [negb]; [now eexists|].
  eexists. split; [reflexivity|]. now cbn.
Qed.

(** No call of a run is lost: when the parameters of every call marshal and
    name a conversation of the store, and the message IDs are new and differ
    from each other, every call creates its message. *)
Lemma createAll_all (Payload : Type) (json_Marshal : Payload -> result string)
    (calls : list (string * CreateMessageParams Payload)) :
  forall db : Store,
    Forall (fun call => marshals Payload json_Marshal (snd call) = true /\
                        In (p_ConversationID Payload (snd call)) (conversations db)) calls ->
    NoDup (map fst calls) ->
    (forall m, In m (messages db) -> ~ In (MessageID m) (map fst calls)) ->
    map MessageID (snd (createAll Payload json_Marshal calls db)) = map fst calls.
Proof.
  induction calls as [|[messageID params] calls IH]; intros db Hall Hnd Hfresh; [reflexivity|].
  inversion Hall as [|? ? [Hm Hc] Hall']; subst. cbn [snd] in Hm, Hc.
  cbn [map fst] in Hnd. apply NoDup_cons in Hnd as [Hnew Hnd].
  cbn [createAll].
  pose proof (CreateMessage_outcome Payload json_Marshal messageID params db) as H.
  unfold marshals in Hm.
  destruct (marshalField _ _ "LLM" _); [|discriminate Hm].
  destruct (marshalField _ _ "user" _); [|discriminate Hm].
  destruct (marshalField _ _ "usage" _); [|discriminate Hm].
  destruct (marshalField _ _ "display" _); [|discriminate Hm].
  assert (E1 : existsb (String.eqb (p_ConversationID Payload params)) (conversations db) = true).
  { apply existsb_exists. exists (p_ConversationID Payload params).
    split; [exact Hc | apply String.eqb_refl]. }
  assert (E2 : existsb (fun m => String.eqb (MessageID m) messageID) (messages db) = false).
  { apply not_true_iff_false. intros Hex. apply existsb_exists in Hex as (m & Hin & Heq).
    apply String.eqb_eq in Heq. apply (Hfresh m Hin). rewrite Heq. now left. }
  rewrite E1, E2 in H. cbn [negb andb] in H. destruct H as (m & -> & Hid & _).
  specialize (IH {| conversations := conversations db; messages := messages db ++ [m] |}).
  destruct (createAll Payload json_Marshal calls _) as [db'' ms]. cbn [snd map fst] in *.
  rewrite Hid. f_equal. apply IH; [exact Hall' | exact Hnd |].
  intros m' Hin Hm'. apply in_app_or in Hin as [Hin | [<- | []]].
  - apply (Hfresh m' Hin). now right.
  - rewrite Hid in Hm'. apply Hnew. now apply list_elem_of_In.
Qed.

(** C1. [CreateMessage] creates a message exactly when the four fields
    marshal, the conversation exists and the message ID is new: it then adds
    one row, the one it returns, made of the message ID, the parameters and
    the marshalled fields; in every other case it returns an error and leaves
    the store as it was. It chooses the sequence ID and inserts the row inside
    one transaction: the sequence ID of the row is 1 when the conversation had
    no message and otherwise one more than the largest sequence ID the
    conversation had. Hence the sequence ID is above every earlier one of the
    conversation, the pairs (conversation ID, sequence ID) stay distinct, and
    the messages created by any run of calls carry, conversation by
    conversation, strictly increasing sequence IDs; and no call of a run is
    lost: when the parameters of every call marshal and name a conversation of
    the store, and the message IDs are new and differ from each other, every
    call creates its message. *)
Theorem CreateMessage_sequence :
  forall (Payload : Type) (json_Marshal : Payload -> result string)
         (messageID : string) (params : CreateMessageParams Payload) (db : Store),
    match marshalField Payload json_Marshal "LLM" (p_LLMData Payload params),
          marshalField Payload json_Marshal "user" (p_UserData Payload params),
          marshalField Payload json_Marshal "usage" (p_UsageData Payload params),
          marshalField Payload json_Marshal "display" (p_DisplayData Payload params) with
    | Ok llm, Ok user, Ok usage, Ok display =>
        if existsb (String.eqb (p_ConversationID Payload params)) (conversations db) &&
           negb (existsb (fun m => String.eqb (MessageID m) messageID) (messages db))
        then
          exists m : Message,
            CreateMessage Payload json_Marshal messageID params db =
              ({| conversations := conversations db; messages := messages db ++ [m] |}, Ok m) /\
            MessageID m = messageID /\
            ConversationID m = p_ConversationID Payload params /\
            Type_ m = p_Type Payload params /\
            LlmData m = llm /\ UserData m = user /\
            UsageData m = usage /\ DisplayData m = display
        else
          exists e, CreateMessage Payload json_Marshal messageID params db = (db, Err e)
    | _, _, _, _ =>
        exists e, CreateMessage Payload json_Marshal messageID params db = (db, Err e)
    end /\
    match CreateMessage Payload json_Marshal messageID params db with
    | (db', Ok m) =>
        messages db' = messages db ++ [m] /\
        ConversationID m = p_ConversationID Payload params /\
        Tx (createMessageTx Payload messageID params
              (LlmData m) (UserData m) (UsageData m) (DisplayData m)) db = (db', Ok m) /\
        match seqIDs (ConversationID m) (messages db) with
        | [] => SequenceID m = 1
        | x :: l =>
            In (SequenceID m - 1) (x :: l) /\
            Forall (fun y => y <= SequenceID m - 1) (x :: l)
        end /\
        Forall (fun y => y < SequenceID m) (seqIDs (ConversationID m) (messages db)) /\
        (pairsUnique (messages db) -> pairsUnique (messages db')) /\
        (increasing (messages db) -> increasing (messages db'))
    | (db', Err _) => db' = db
    end /\
    (forall calls : list (string * CreateMessageParams Payload),
        let '(db', created) := createAll Payload json_Marshal calls db in
        messages db' = messages db ++ created /\
        (forall c, StronglySorted Z.lt (seqIDs c created)) /\
        (pairsUnique (messages db) -> pairsUnique (messages db')) /\
        (increasing (messages db) -> increasing (messages db')) /\
        (Forall (fun call => marshals Payload json_Marshal (snd call) = true /\
                             In (p_ConversationID Payload (snd call)) (conversations db))
                calls ->
         NoDup (map fst calls) ->
         (forall m, In m (messages db) -> ~ In (MessageID m) (map fst calls)) ->
         map MessageID created = map fst calls)).
Proof.
  intros Payload json_Marshal messageID params db.
  split; [apply CreateMessage_outcome|]. split.
  - pose proof (CreateMessage_cases Payload json_Marshal messageID params db) as H.
    destruct (CreateMessage Payload json_Marshal messageID params db) as [db' [m|e]] eqn:E;
      [|exact H].
    destruct H as (Hc & Hm & Hconv & Hn).
    destruct (CreateMessage_above _ _ _ _ _ _ _ E) as [_ Hlt].
    split; [exact Hm|]. split; [exact Hconv|]. split.
    { revert E. unfold CreateMessage.
      destruct (marshalField _ _ "LLM" _) as [llm|]; [|discriminate].
      destruct (marshalField _ _ "user" _) as [user|]; [|discriminate].
      destruct (marshalField _ _ "usage" _) as [usage|]; [|discriminate].
      destruct (marshalField _ _ "display" _) as [display|]; [|discriminate].
      intros E. assert (Hf : LlmData m = llm /\ UserData m = user /\
                             UsageData m = usage /\ DisplayData m = display).
      { revert E. unfold Tx, createMessageTx, q_CreateMessage.
        destruct (GetNextSequenceID _ db); [|discriminate].
        destruct (negb _); [discriminate|].
        destruct (existsb _ (messages db)); [discriminate|].
        intros [= _ <-]. now cbn. }
      destruct Hf as (-> & -> & -> & ->). exact E. }
    split.
    { rewrite Hconv.
      destruct (GetNextSequenceID_spec (p_ConversationID Payload params) db) as (n & En & Hmax & _).
      rewrite En in Hn. injection Hn as <-. exact Hmax. }
    split; [exact Hlt|]. rewrite Hm. split; intros H.
    + now apply pairsUnique_snoc.
    + now apply increasing_snoc.
  - intros calls. pose proof (createAll_spec Payload json_Marshal calls db) as H.
    pose proof (createAll_all Payload json_Marshal calls db) as Hall.
    destruct (createAll _ _ calls db) as [db' ms].
    destruct H as (H1 & _ & H3 & H4 & H5). repeat split; assumption.
Qed.

Lemma insertSorted_perm (x : string) (l : list string) :
  Permutation (insertSorted x l) (x :: l).
Proof.
  induction l as [|y l IH]; [reflexivity|].
  cbn [insertSorted]. destruct (String.leb x y); [reflexivity|].
  rewrite IH. apply perm_swap.
Qed.

Lemma sort_Strings_perm (l : list string) : Permutation (sort_Strings l) l.
Proof.
  induction l as [|x l IH]; [reflexivity|].
  cbn [sort_Strings]. rewrite insertSorted_perm. now constructor.
Qed.

Lemma insertSorted_sorted (x : string) (l : list string) :
  Sorted lexLe l -> Sorted lexLe (insertSorted x l).
Proof.
  induction 1 as [|y l Hl IH Hy]; [repeat constructor|].
  cbn [insertSorted]. destruct (String.leb x y) eqn:E.
  - constructor; [now constructor | now constructor].
  - constructor; [exact IH|].
    assert (Hyx : lexLe y x).
    { unfold lexLe. destruct (String.leb_total x y) as [H|H]; [congruence | exact H]. }
    destruct l as [|z l]; cbn [insertSorted].
    + now constructor.
    + destruct (String.leb x z); constructor; [exact Hyx | now inversion Hy].
Qed.

Lemma sort_Strings_sorted (l : list string) : Sorted lexLe (sort_Strings l).
Proof.
  induction l as [|x l IH]; [constructor|]. now apply insertSorted_sorted.
Qed.

Lemma filter_sorted (f : string -> bool) (l : list string) :
  StronglySorted lexLe l -> StronglySorted lexLe (List.filter f l).
Proof.
  induction 1 as [|x l Hl IH Hx]; [constructor|].
  cbn [List.filter]. destruct (f x); [|exact IH].
  constructor; [exact IH|].
  rewrite Forall_forall in *. intros y Hy. apply Hx.
  apply list_elem_of_In in Hy. apply list_elem_of_In.
  now apply List.filter_In in Hy as [Hy _].
Qed.

Lemma leb_trans (a b c : string) : lexLe a b -> lexLe b c -> lexLe a c.
Proof.
  unfold lexLe, String.leb. revert b c.
  induction a as [|x a IH]; intros [|y b] [|z c]; cbn; try easy.
  unfold Ascii.compare.
  destruct (N.compare_spec (N_of_ascii x) (N_of_ascii y)) as [Exy|Exy|Exy];
    destruct (N.compare_spec (N_of_ascii y) (N_of_ascii z)) as [Eyz|Eyz|Eyz];
    destruct (N.compare_spec (N_of_ascii x) (N_of_ascii z)) as [Exz|Exz|Exz];
    try easy; try lia.
  apply IH.
Qed.

Lemma sort_Strings_strongly (l : list string) : StronglySorted lexLe (sort_Strings l).
Proof.
  apply Sorted_StronglySorted; [|apply sort_Strings_sorted].
  intros a b c. apply leb_trans.
Qed.

Lemma isDigit_range (c : ascii) :
  isDigit c = true -> 48 <= Z.of_nat (nat_of_ascii c) <= 57.
Proof. unfold isDigit. lia. Qed.

Lemma isDigit_not_sign (c : ascii) :
  isDigit c = true -> Ascii.eqb c "+" = false /\ Ascii.eqb c "-" = false.
Proof.
  intros H. split.
  - destruct (Ascii.eqb_spec c "+") as [-> |]; [vm_compute in H; discriminate H | reflexivity].
  - destruct (Ascii.eqb_spec c "-") as [-> |]; [vm_compute in H; discriminate H | reflexivity].
Qed.

(** A name that matches the pattern yields its three digits, and they parse
    to a number from 0 to 999. *)
Lemma MatchString_number (name : string) :
  MatchString name = true ->
  exists digits n,
    FindStringSubmatch name = [name; digits] /\
    Atoi digits = Ok n /\ 0 <= n <= 999 /\
    migrationNumberOf name = Some n.
Proof.
  unfold MatchString, migrationNumberOf.
  destruct name as [|d1 [|d2 [|d3 [|sep rest]]]]; try discriminate.
  cbn [FindStringSubmatch].
  destruct (isDigit d1) eqn:D1; [|discriminate].
  destruct (isDigit d2) eqn:D2; [|discriminate].
  destruct (isDigit d3) eqn:D3; [|discriminate].
  destruct (Ascii.eqb sep "-") eqn:T1; [|discriminate].
  destruct (matchesTail rest) eqn:T2; [|discriminate].
  cbn [andb]. intros _.
  pose proof (isDigit_range _ D1). pose proof (isDigit_range _ D2).
  pose proof (isDigit_range _ D3).
  destruct (isDigit_not_sign _ D1) as [S1 S2].
  set (v := 10 * (10 * (10 * 0 + (Z.of_nat (nat_of_ascii d1) - 48))
                  + (Z.of_nat (nat_of_ascii d2) - 48))
            + (Z.of_nat (nat_of_ascii d3) - 48)).
  assert (EA : Atoi (String d1 (String d2 (String d3 EmptyString))) = Ok v).
  { unfold Atoi. rewrite S1, S2. cbn [orb digitsValue]. rewrite D1, D2, D3.
    fold v.
    assert (R : (- 2 ^ 63 <=? v) && (v <? 2 ^ 63) = true).
    { apply andb_true_iff. rewrite Z.leb_le, Z.ltb_lt.
      change (2 ^ 63) with 9223372036854775808. subst v. lia. }
    now rewrite R. }
  exists (String d1 (String d2 (String d3 EmptyString))), v.
  rewrite EA. repeat split; subst v; lia.
Qed.

Lemma inZ_In (n : Z) (l : list Z) : inZ n l = true <-> In n l.
Proof.
  unfold inZ. rewrite existsb_exists. split.
  - intros (x & Hx & E). apply Z.eqb_eq in E. now subst.
  - intros H. exists n. split; [exact H | apply Z.eqb_refl].
Qed.

Section MigrateLaws.

Variable Schema : Type.
Variable entries : list DirEntry.
Variable exec_sql : string -> Database Schema -> result (Database Schema).
Variable insertAllowed : list (Z * string) -> Z -> string -> bool.

(** No migration file removes a row from the ledger: a number recorded in
    table [migrations] before a file is executed is recorded after it. *)
Hypothesis exec_keeps :
  forall (e : DirEntry) (db db' : Database Schema),
    In e entries -> IsDir e = false -> MatchString (Name e) = true ->
    exec_sql (Content e) db = Ok db' ->
    incl (ledger Schema db) (ledger Schema db').

Local Abbreviation run := (runMigrations Schema (Ok entries) exec_sql insertAllowed).
Local Abbreviation migrate := (Migrate Schema (Ok entries) exec_sql insertAllowed).

Lemma executeMigration_keeps (m : string) (db db1 : Database Schema) :
  MatchString m = true ->
  executeMigration Schema (Ok entries) exec_sql m db = Ok db1 ->
  incl (ledger Schema db) (ledger Schema db1).
Proof.
  intros Hm. unfold executeMigration, ReadFile.
  destruct (List.find _ entries) as [e|] eqn:F; [|discriminate].
  apply List.find_some in F as [Hin Hf].
  apply andb_true_iff in Hf as [Hname Hdir].
  apply String.eqb_eq in Hname. subst m.
  destruct (exec_sql (Content e) db) as [db'|] eqn:E; [|discriminate].
  intros [= <-]. apply (exec_keeps e db db'); try assumption.
  now destruct (IsDir e).
Qed.

Lemma insertMigration_records (n : Z) (m : string) (db1 db2 : Database Schema) :
  insertMigration Schema insertAllowed n m db1 = Ok db2 ->
  ledger Schema db2 = ledger Schema db1 ++ [n].
Proof.
  unfold insertMigration, ledger.
  destruct (migrationsTable Schema db1) as [rows|]; [|discriminate].
  destruct (insertAllowed rows n m); [|discriminate].
  intros [= <-]. cbn. now rewrite map_app.
Qed.

Lemma run_success (ms : list string) :
  forall (executed : list Z) (db db' : Database Schema) (ran : list string),
    Forall (fun m => MatchString m = true) ms ->
    run executed ms db = (db', ran, None) ->
    incl (ledger Schema db) (ledger Schema db') /\
    (forall m n, In m ms -> migrationNumberOf m = Some n ->
                 In n executed \/ In n (ledger Schema db')) /\
    ran = List.filter (pending executed) ms.
Proof.
  induction ms as [|m ms IH]; intros executed db db' ran Hall Hrun.
  - cbn in Hrun. injection Hrun as <- <-. repeat split; [apply incl_refl | easy].
  - inversion Hall as [|? ? Hm Hms]; subst.
    destruct (MatchString_number m Hm) as (digits & n & EF & EA & _ & EN).
    cbn [runMigrations List.filter] in *. unfold pending at 1. rewrite EN.
    rewrite EF, EA in Hrun.
    destruct (inZ n executed) eqn:Ein; cbn [negb] in *.
    + destruct (IH _ _ _ _ Hms Hrun) as (H1 & H2 & H3).
      repeat split; try assumption.
      intros m' n' [<- | Hin] En'.
      * rewrite EN in En'. injection En' as <-. left. now apply inZ_In.
      * now apply H2 with m'.
    + destruct (executeMigration _ _ _ m db) as [db1|] eqn:Eexec; [|discriminate].
      destruct (insertMigration _ _ n m db1) as [db2|] eqn:Eins; [|discriminate].
      destruct (run executed ms db2) as [[db'' ran'] err] eqn:Erest.
      injection Hrun as <- <- ->.
      destruct (IH _ _ _ _ Hms Erest) as (H1 & H2 & H3).
      apply (executeMigration_keeps _ _ _ Hm) in Eexec.
      apply insertMigration_records in Eins.
      assert (Hkeep : incl (ledger Schema db) (ledger Schema db'')).
      { intros x Hx. apply H1. rewrite Eins. apply in_or_app. left. now apply Eexec. }
      repeat split; [exact Hkeep | | now rewrite H3].
      intros m' n' [<- | Hin] En'.
      * rewrite EN in En'. injection En' as <-. right. apply H1.
        rewrite Eins. apply in_or_app. right. now left.
      * now apply H2 with m'.
Qed.

Lemma run_nothing_pending (ms : list string) (executed : list Z) (db : Database Schema) :
  Forall (fun m => exists n, MatchString m = true /\ migrationNumberOf m = Some n /\
                             In n executed) ms ->
  run executed ms db = (db, [], None).
Proof.
  induction 1 as [|m ms (n & Hm & EN & Hin) _ IH]; [reflexivity|].
  destruct (MatchString_number m Hm) as (digits & n' & EF & EA & _ & EN').
  rewrite EN in EN'. injection EN' as <-.
  cbn [runMigrations]. rewrite EF, EA.
  apply inZ_In in Hin. rewrite Hin. exact IH.
Qed.

Lemma migrationFiles_match :
  Forall (fun m => MatchString m = true /\
                   exists e, In e entries /\ Name e = m /\ IsDir e = false)
         (migrationFiles entries).
Proof.
  rewrite Forall_forall. intros m Hm. apply list_elem_of_In in Hm.
  unfold migrationFiles in Hm.
  apply (Permutation_in _ (sort_Strings_perm _)) in Hm.
  apply in_map_iff in Hm as (e & <- & He).
  apply List.filter_In in He as [He Hf].
  apply andb_true_iff in Hf as [Hd Hmatch].
  split; [exact Hmatch|]. exists e. repeat split; [exact He|].
  now destruct (IsDir e).
Qed.

(** The ways of [Migrate] once the directory is read: the second read fails
    and nothing is done, or the loop runs with what was loaded. *)
Lemma Migrate_cases (faults : Faults) (db : Database Schema) :
  migrate faults db =
    match lookupFault faults, migrationsTable Schema db, loadFault faults with
    | None, Some _, Some cause =>
        (db, [], Some ("failed to load executed migrations: " +:+ cause))
    | _, _, _ =>
        let '(db', ran, err) := run (loaded Schema faults db) (migrationFiles entries) db in
        (db', notFound faults ++ map RunningMigration ran, err)
    end.
Proof.
  unfold Migrate, ReadDir, Rx, scanTableName, scanMigrationNumbers, loaded, notFound, ledger.
  destruct (lookupFault faults), (migrationsTable Schema db), (loadFault faults); reflexivity.
Qed.

Lemma Migrate_twice (first second : Faults) (db db1 : Database Schema) (log : list Info) :
  lookupFault second = None ->
  migrate first db = (db1, log, None) ->
  migrate second db1 =
    (db1, [], match migrationsTable Schema db1, loadFault second with
              | Some _, Some cause => Some ("failed to load executed migrations: " +:+ cause)
              | _, _ => None
              end) /\
  log = notFound first ++
        map RunningMigration
          (List.filter (pending (loaded Schema first db)) (migrationFiles entries)).
Proof.
  intros Hlookup Hrun.
  assert (Hall : Forall (fun m => MatchString m = true) (migrationFiles entries)).
  { eapply Forall_impl; [apply migrationFiles_match|]. now intros m [H _]. }
  assert (Hloop : exists ran,
             run (loaded Schema first db) (migrationFiles entries) db = (db1, ran, None) /\
             log = notFound first ++ map RunningMigration ran).
  { rewrite Migrate_cases in Hrun.
    destruct (run (loaded Schema first db) (migrationFiles entries) db) as [[db' ran] err].
    exists ran.
    destruct (lookupFault first), (migrationsTable Schema db), (loadFault first);
      try discriminate Hrun; injection Hrun as <- <- <-; now split. }
  destruct Hloop as (ran & Hloop & ->).
  destruct (run_success _ _ _ _ _ Hall Hloop) as (H1 & H2 & ->).
  split; [|reflexivity].
  assert (Hagain : run (ledger Schema db1) (migrationFiles entries) db1 = (db1, [], None)).
  { apply run_nothing_pending. rewrite Forall_forall. intros m Hm.
    rewrite Forall_forall in Hall. pose proof (Hall m Hm) as Hmatch.
    destruct (MatchString_number m Hmatch) as (digits & n & _ & _ & _ & EN).
    exists n. repeat split; try assumption.
    apply list_elem_of_In in Hm. destruct (H2 m n Hm EN) as [Hin | Hin]; [|exact Hin].
    apply H1. unfold loaded in Hin. now destruct (lookupFault first). }
  rewrite Migrate_cases. unfold loaded, notFound. rewrite Hlookup, Hagain.
  now destruct (migrationsTable Schema db1), (loadFault second).
Qed.

End MigrateLaws.




Section SubagentLaws.

Variable World : Type.
Variable CreateSubagentConversation :
  string -> string -> string -> World -> World * result Conversation.
Variable strings_ToLower : string -> string.

Local Abbreviation isUniqueViolation := (isUniqueViolation strings_ToLower).
Local Abbreviation createLoop :=
  (createLoop World CreateSubagentConversation strings_ToLower).
Local Abbreviation worldAfter := (worldAfter World CreateSubagentConversation).
Local Abbreviation response := (response World CreateSubagentConversation).
Local Abbreviation collided :=
  (collided World CreateSubagentConversation strings_ToLower).

Lemma createLoop_spec (baseSlug parentID cwd : string) (w0 : World) (remaining : nat) :
  forall attempt : nat,
    (forall j, (j < attempt)%nat -> collided baseSlug parentID cwd w0 j) ->
    let out := createLoop remaining attempt baseSlug (attemptSlug baseSlug attempt)
                 parentID cwd (worldAfter baseSlug parentID cwd attempt w0) in
    (forall k, (attempt <= k < attempt + remaining)%nat ->
       (forall j, (j < k)%nat -> collided baseSlug parentID cwd w0 j) ->
       match response baseSlug parentID cwd k w0 with
       | Ok conv =>
           out = (worldAfter baseSlug parentID cwd (S k) w0,
                  Ok (c_ConversationID conv, attemptSlug baseSlug k))
       | Err err =>
           isUniqueViolation err = false ->
           out = (worldAfter baseSlug parentID cwd (S k) w0, Err err)
       end) /\
    ((forall j, (j < attempt + remaining)%nat -> collided baseSlug parentID cwd w0 j) ->
     out = (worldAfter baseSlug parentID cwd (attempt + remaining) w0, Err exhausted)).
Proof.
  induction remaining as [|remaining IH]; intros attempt Hbefore; cbv zeta.
  - split.
    + intros k Hk. lia.
    + intros _. cbn [createLoop]. now rewrite Nat.add_0_r.
  - cbn [createLoop].
    assert (Estep : CreateSubagentConversation (attemptSlug baseSlug attempt) parentID cwd
                      (worldAfter baseSlug parentID cwd attempt w0)
                    = (worldAfter baseSlug parentID cwd (S attempt) w0,
                       response baseSlug parentID cwd attempt w0)).
    { unfold response. cbn [worldAfter]. now destruct (CreateSubagentConversation _ _ _ _). }
    rewrite Estep.
    assert (Enext : baseSlug +:+ "-" +:+ itoa (attempt + 1) = attemptSlug baseSlug (S attempt)).
    { unfold attemptSlug. now rewrite Nat.add_1_r. }
    split.
    + intros k Hk Hcoll.
      destruct (Nat.eq_dec k attempt) as [-> | Hne].
      * destruct (response baseSlug parentID cwd attempt w0) as [conv|err]; [reflexivity|].
        intros Hno. now rewrite Hno.
      * assert (Hc : collided baseSlug parentID cwd w0 attempt) by (apply Hcoll; lia).
        destruct Hc as (err & Er & Hv). rewrite Er, Hv, Enext.
        apply (IH (S attempt)); [|lia|exact Hcoll].
        intros j Hj. apply Hcoll. lia.
    + intros Hall.
      destruct (Hall attempt ltac:(lia)) as (err & Er & Hv). rewrite Er, Hv, Enext.
      replace (attempt + S remaining)%nat with (S attempt + remaining)%nat by lia.
      apply (IH (S attempt)).
      * intros j Hj. apply Hall. lia.
      * intros j Hj. apply Hall. lia.
Qed.

End SubagentLaws.

(** C7. When no conversation with the requested slug exists under the parent,
    [GetOrCreateSubagentConversation] tries the slug itself and then the slug
    with the suffixes -1, -2, ... one after the other. A failed creation counts
    as a collision exactly when the lowercased error text contains
    "unique constraint" or "duplicate". The first attempt that does not
    collide ends the call: with the new conversation and the slug of that
    attempt when it succeeded, with its error when it failed otherwise, and no
    further attempt is made. When all of the first 100 attempts collide the
    call ends after the 100th with an error. *)
Theorem GetOrCreateSubagentConversation_retries :
  forall (World : Type)
         (GetConversationBySlugAndParent :
            string -> string -> World -> World * result (option Conversation))
         (CreateSubagentConversation :
            string -> string -> string -> World -> World * result Conversation)
         (strings_ToLower : string -> string)
         (slug parentID cwd : string) (w : World),
    let call := GetOrCreateSubagentConversation World GetConversationBySlugAndParent
                  CreateSubagentConversation strings_ToLower slug parentID cwd w in
    let after := worldAfter World CreateSubagentConversation slug parentID cwd in
    let answer := response World CreateSubagentConversation slug parentID cwd in
    let collision := collided World CreateSubagentConversation strings_ToLower slug parentID cwd in
    (forall err,
        isUniqueViolation strings_ToLower err =
        strings_Contains (strings_ToLower err) "unique constraint"
        || strings_Contains (strings_ToLower err) "duplicate") /\
    (forall k, attemptSlug slug (S k) = slug +:+ "-" +:+ itoa (S k)) /\
    attemptSlug slug 0 = slug /\
    match GetConversationBySlugAndParent slug parentID w with
    | (w0, Err err) => call = (w0, Err err)
    | (w0, Ok (Some existing)) =>
        call = (w0, Ok (c_ConversationID existing, c_Slug existing))
    | (w0, Ok None) =>
        (forall k, (k < 100)%nat ->
           (forall j, (j < k)%nat -> collision w0 j) ->
           match answer k w0 with
           | Ok conv => call = (after (S k) w0, Ok (c_ConversationID conv, attemptSlug slug k))
           | Err err =>
               isUniqueViolation strings_ToLower err = false ->
               call = (after (S k) w0, Err err)
           end) /\
        ((forall j, (j < 100)%nat -> collision w0 j) ->
         call = (after 100%nat w0, Err exhausted))
    end.
Proof.
  intros World Get Create lower slug parentID cwd w. cbv zeta.
  split; [reflexivity|]. split; [reflexivity|]. split; [reflexivity|].
  unfold GetOrCreateSubagentConversation.
  destruct (Get slug parentID w) as [w0 [[existing|]|err]]; try reflexivity.
  pose proof (createLoop_spec World Create lower slug parentID cwd w0 100 0) as H.
  cbn [attemptSlug worldAfter] in H.
  destruct H as [H1 H2]; [intros j Hj; lia|].
  split.
  - intros k Hk. apply H1. lia.
  - exact H2.
Qed.

Example retries_until_free :
  GetOrCreateSubagentConversation (list string) logLookup
    (logCreate (fun s => String.eqb s "task" || String.eqb s "task-1")) lowerASCII
    "task" "cPARENT" "/tmp" []
  = (["task"; "task-1"; "task-2"]%string, Ok ("cNEW123", "task-2")%string).
Proof. vm_compute. reflexivity. Qed.

Example gives_up_after_100 :
  let '(attempts, out) :=
    GetOrCreateSubagentConversation (list string) logLookup
      (logCreate (fun _ => true)) lowerASCII "task" "cPARENT" "/tmp" [] in
  length attempts = 100%nat /\ List.last attempts EmptyString = "task-99"%string /\
  out = Err exhausted.
Proof. vm_compute. repeat split. Qed.

Example other_error_returned_at_once :
  GetOrCreateSubagentConversation (list string) logLookup
    (fun slug parentID cwd w => (w ++ [slug], Err "database is locked")) lowerASCII
    "task" "cPARENT" "/tmp" []
  = (["task"]%string, Err "database is locked").
Proof. vm_compute. reflexivity. Qed.

(** [CreateMessage] run on a small store. *)
Example createAll_runs :
  let params c := {| p_ConversationID := c; p_Type := "user"; p_LLMData := Some "{}"%string;
                     p_UserData := None; p_UsageData := None; p_DisplayData := None |} in
  map (fun m => (ConversationID m, SequenceID m))
    (snd (createAll string (fun p => Ok p)
            [("m1", params "cA"); ("m2", params "cA"); ("m3", params "cB");
             ("m4", params "cX"); ("m5", params "cA")]%string
            {| conversations := ["cA"; "cB"]%string; messages := [] |}))
  = [("cA", 1); ("cA", 2); ("cB", 1); ("cA", 3)]%string.
Proof. vm_compute. reflexivity. Qed.

End DBProps.

(* ===================================================================== *)
(** * Properties of [SHA256]                                              *)
(* ===================================================================== *)

Module SHA256Props.

Import SHA256.

Lemma Sum256_length (data : list Z) : length (Sum256 data) = 32%nat.
Proof. reflexivity. Qed.

Lemma Sum256_bytes (data : list Z) : Forall (fun b => 0 <= b < 256) (Sum256 data).
Proof.
  unfold Sum256, bytesOfWord. cbn [app].
  repeat constructor;
    try (apply Z.land_nonneg; right; lia);
    match goal with
    | |- Z.land ?x 255 < 256 =>
        change 255 with (Z.ones 8); rewrite Z.land_ones by lia;
        apply Z.mod_pos_bound; lia
    end.
Qed.

Example constants_check :
  length K256 = 64%nat /\ nth 0 K256 0 = 0x428a2f98 /\ nth 63 K256 0 = 0xc67178f2 /\
  h0 initial = 0x6a09e667 /\ h7 initial = 0x5be0cd19.
Proof. repeat split. Qed.

(** The test vectors of FIPS 180-4 (one block, the empty message, two blocks). *)
Example Sum256_abc :
  hex (Sum256 (bytesOfString "abc")) =
  "ba7816bf8f01cfea414140de5dae2223b00361a396177a9cb410ff61f20015ad"%string.
Proof. vm_compute. reflexivity. Qed.

Example Sum256_empty :
  hex (Sum256 (bytesOfString "")) =
  "e3b0c44298fc1c149afbf4c8996fb92427ae41e4649b934ca495991b7852b855"%string.
Proof. vm_compute. reflexivity. Qed.

Example Sum256_two_blocks :
  hex (Sum256 (bytesOfString "abcdbcdecdefdefgefghfghighijhijkijkljklmklmnlmnomnopnopq")) =
  "248d6a61d20638b8e5c026930c3e6039a33ce45964ff2167f6ecedd419db06c1"%string.
Proof. vm_compute. reflexivity. Qed.

End SHA256Props.

(* ===================================================================== *)
(** * Properties of [ClaudeCode]                                          *)
(* ===================================================================== *)

Module ClaudeCodeProps.

Import ClaudeCode.

(** ** [parseToolResultContent]: the three shapes *)

Lemma fold_blockContent (blocks : list Block) (out : list Content) :
  fold_left (fun out bl => out ++ blockContent bl) blocks out =
  out ++ flat_map blockContent blocks.
Proof.
  revert out. induction blocks as [|bl blocks IH]; intros out; cbn [fold_left flat_map].
  - now rewrite app_nil_r.
  - now rewrite IH, <- app_assoc.
Qed.

Lemma blockContent_cases (bl : Block) :
  (b_Type bl = "text"%string -> blockContent bl = [textContent (b_Text bl)]) /\
  (forall src, b_Type bl = "image"%string -> b_Source bl = Some src ->
               s_Type src = "base64"%string ->
               blockContent bl = [imageContent (s_MediaType src) (s_Data src)]) /\
  (recognised bl = false -> blockContent bl = []) /\
  length (blockContent bl) = (if recognised bl then 1 else 0)%nat /\
  Forall (fun c => c_Type c = ContentTypeText) (blockContent bl).
Proof.
  unfold blockContent, recognised.
  destruct (String.eqb_spec (b_Type bl) "text") as [Et|Et].
  - repeat split; try easy.
    + intros src Ei. rewrite Et in Ei. discriminate.
    + repeat constructor.
  - destruct (String.eqb_spec (b_Type bl) "image") as [Ei|Ei].
    + destruct (b_Source bl) as [src|].
      * destruct (String.eqb_spec (s_Type src) "base64") as [Eb|Eb];
          repeat split; try easy; try (repeat constructor).
        -- now intros src' _ [= <-] _.
        -- intros src' _ [= <-] Hb. contradiction.
      * repeat split; try easy; try constructor.
    + repeat split; try easy; try constructor.
Qed.


Example parseToolResultContent_runs :
  parseToolResultContent toyUnmarshalString toyUnmarshalBlocks
    (String quote ("done" +:+ String quote EmptyString))
    = [textContent "done"] /\
  parseToolResultContent toyUnmarshalString toyUnmarshalBlocks
    "[{text:hello},{image:base64},{image:url},{audio}]"
    = [textContent "hello"; imageContent "image/png" "iVBOR"] /\
  parseToolResultContent toyUnmarshalString toyUnmarshalBlocks "[]" = [] /\
  parseToolResultContent toyUnmarshalString toyUnmarshalBlocks "{a:1}"
    = [textContent "{a:1}"].
Proof. repeat split. Qed.

Lemma keeps_refl (ss : gmap string ccSubagentSession) : keeps ss ss.
Proof. intros key sa H. now exists sa. Qed.

Lemma keeps_trans (a b c : gmap string ccSubagentSession) :
  keeps a b -> keeps b c -> keeps a c.
Proof.
  intros Hab Hbc key sa H. destruct (Hab _ _ H) as (sb & Hb & Eb).
  destruct (Hbc _ _ Hb) as (sc & Hc & Ec). exists sc. split; [exact Hc | congruence].
Qed.

Lemma keeps_insert_same (ss : gmap string ccSubagentSession) (key : string)
    (sa sa' : ccSubagentSession) :
  ss !! key = Some sa -> manager sa' = manager sa -> keeps ss (<[key := sa']> ss).
Proof.
  intros H E k s Hk. destruct (decide (key = k)) as [<- | Hne].
  - exists sa'. rewrite lookup_insert_eq. split; [reflexivity | congruence].
  - exists s. rewrite lookup_insert_ne by exact Hne. now split.
Qed.

Lemma keeps_insert_new (ss : gmap string ccSubagentSession) (key : string)
    (sa' : ccSubagentSession) :
  ss !! key = None -> keeps ss (<[key := sa']> ss).
Proof.
  intros H k s Hk. destruct (decide (key = k)) as [<- | Hne]; [congruence|].
  exists s. rewrite lookup_insert_ne by exact Hne. now split.
Qed.

Lemma extends_refl (st : State) : extends st st.
Proof. split; [reflexivity | apply keeps_refl]. Qed.

Lemma extends_trans (a b c : State) : extends a b -> extends b c -> extends a c.
Proof.
  intros [H1 K1] [H2 K2]. split; [now transitivity (history b) | eapply keeps_trans; eassumption].
Qed.

Section StreamLaws.

Variable cm : ptr.
Variable ccSubagentBridge :
  option (string -> string -> string -> Heap -> Heap * result ptr).
Variable unmarshalType : string -> option string.
Variable unmarshalEvent : string -> option StreamEvent.
Variable unmarshalTaskInput : string -> ccTaskInput.
Variable unmarshalString : string -> option string.
Variable unmarshalBlocks : string -> option (list Block).
Variable utf8_runes : string -> list Z.
Variable caseTable : Z -> Z.
Variable rangeOrder : gmap string ccSubagentSession -> list string.

Local Abbreviation line := (processLine cm ccSubagentBridge unmarshalType unmarshalEvent
  unmarshalTaskInput unmarshalString unmarshalBlocks utf8_runes caseTable).

Lemma flushAssistant_extends (st : State) : extends st (flushAssistant cm st).
Proof.
  unfold flushAssistant. destruct (currentAssistantMsg st); [|apply extends_refl].
  split; cbn; [now apply prefix_app_r | apply keeps_refl].
Qed.

Lemma flushUser_extends (st : State) : extends st (flushUser cm st).
Proof.
  unfold flushUser. destruct (currentUserMsg st); [|apply extends_refl].
  split; cbn; [now apply prefix_app_r | apply keeps_refl].
Qed.

Lemma flushSubagentAssistant_extends (key : string) (st : State) :
  extends st (flushSubagentAssistant key st).
Proof.
  unfold flushSubagentAssistant.
  destruct (subagentSessions st !! key) as [sa|] eqn:E; [|apply extends_refl].
  destruct (pendingAssistant sa); [|apply extends_refl].
  split; cbn; [reflexivity | now apply keeps_insert_same with sa].
Qed.

Lemma flushSubagentUser_extends (key : string) (st : State) :
  extends st (flushSubagentUser key st).
Proof.
  unfold flushSubagentUser.
  destruct (subagentSessions st !! key) as [sa|] eqn:E; [|apply extends_refl].
  destruct (pendingUser sa); [|apply extends_refl].
  split; cbn; [reflexivity | now apply keeps_insert_same with sa].
Qed.

Lemma closeSession_extends (key : string) (st : State) :
  extends st (closeSession key st).
Proof.
  unfold closeSession.
  destruct (subagentSessions st !! key) as [sa|] eqn:E; [|apply extends_refl].
  eapply extends_trans; [apply flushSubagentAssistant_extends|].
  eapply extends_trans; [apply flushSubagentUser_extends|].
  split; cbn; [reflexivity | apply keeps_refl].
Qed.

Lemma fold_extends {A : Type} (f : State -> A -> State) (l : list A) :
  (forall st a, extends st (f st a)) -> forall st, extends st (fold_left f l st).
Proof.
  intros Hf. induction l as [|a l IH]; intros st; [apply extends_refl|].
  cbn [fold_left]. eapply extends_trans; [apply Hf | apply IH].
Qed.

Lemma getOrCreate_extends (parentToolUseID : string) (st : State) :
  extends st (fst (getOrCreateSubagentSession cm ccSubagentBridge utf8_runes caseTable
                     parentToolUseID st)).
Proof.
  unfold getOrCreateSubagentSession.
  destruct ccSubagentBridge as [bridge|]; [|apply extends_refl].
  destruct (subagentSessions st !! parentToolUseID) eqn:E; [apply extends_refl|].
  destruct (taskInputs st !! parentToolUseID); [|apply extends_refl].
  destruct (bridge _ _ _ _) as [h [subManager|err]]; cbn.
  - split; cbn; [reflexivity | now apply keeps_insert_new].
  - split; cbn; [reflexivity | apply keeps_refl].
Qed.

Lemma subagentAssistant_extends (key : string) (ev : StreamEvent) (st : State) :
  extends st (subagentAssistant key ev st).
Proof.
  unfold subagentAssistant.
  destruct (subagentSessions st !! key) as [sa|] eqn:E; [|apply extends_refl].
  destruct (negb (String.eqb (ev_MessageID ev) (lastMsgID sa)) || isNil (pendingAssistant sa)).
  - pose proof (extends_trans _ _ _ (flushSubagentAssistant_extends key st)
                  (flushSubagentUser_extends key (flushSubagentAssistant key st))) as H1.
    destruct (subagentSessions (flushSubagentUser key (flushSubagentAssistant key st)) !! key)
      as [sa1|] eqn:E1; [|exact H1].
    eapply extends_trans; [exact H1|].
    split; cbn; [reflexivity | now apply keeps_insert_same with sa1].
  - rewrite E. split; cbn; [reflexivity | now apply keeps_insert_same with sa].
Qed.

Lemma subagentUser_extends (key : string) (ev : StreamEvent) (st : State) :
  extends st (subagentUser unmarshalString unmarshalBlocks key ev st).
Proof.
  unfold subagentUser.
  pose proof (flushSubagentAssistant_extends key st) as H1.
  destruct (subagentSessions (flushSubagentAssistant key st) !! key) as [sa1|] eqn:E1;
    [|exact H1].
  eapply extends_trans; [exact H1|].
  split; cbn; [reflexivity | now apply keeps_insert_same with sa1].
Qed.

Lemma topAssistant_extends (ev : StreamEvent) (st : State) :
  extends st (topAssistant cm ev st).
Proof.
  unfold topAssistant.
  destruct (negb (String.eqb (ev_MessageID ev) (currentMsgID st)) || isNil (currentAssistantMsg st)).
  - destruct (flushAssistant_extends st) as [Ha Ka].
    destruct (flushUser_extends (flushAssistant cm st)) as [Hu Ku].
    split; cbn; [now transitivity (history (flushAssistant cm st))
                | eapply keeps_trans; eassumption].
  - split; cbn; [reflexivity | apply keeps_refl].
Qed.

Lemma topUser_extends (ev : StreamEvent) (st : State) :
  extends st (topUser cm unmarshalString unmarshalBlocks ev st).
Proof.
  unfold topUser. destruct (flushAssistant_extends st) as [Hh Hk].
  split; cbn; assumption.
Qed.

Lemma trackTaskInputs_extends (ev : StreamEvent) (st : State) :
  extends st (trackTaskInputs unmarshalTaskInput ev st).
Proof.
  unfold trackTaskInputs. apply fold_extends. intros s c.
  destruct (_ && _); [|apply extends_refl].
  split; cbn; [reflexivity | apply keeps_refl].
Qed.

Lemma completeSubagents_extends (ev : StreamEvent) (st : State) :
  extends st (completeSubagents ev st).
Proof.
  unfold completeSubagents. apply fold_extends. intros s c.
  destruct (String.eqb _ _); [apply closeSession_extends | apply extends_refl].
Qed.

Lemma processLine_extends (st : State) (l : string) : extends st (line st l).
Proof.
  unfold processLine.
  destruct (String.eqb l ""); [apply extends_refl|].
  destruct (unmarshalType l) as [typ|]; [|apply extends_refl].
  destruct (String.eqb typ "assistant" || String.eqb typ "user"); [|apply extends_refl].
  destruct (unmarshalEvent l) as [ev|]; [|apply extends_refl].
  cbv zeta.
  match goal with
  | |- extends st (if negb _ then let '(_, _) := getOrCreateSubagentSession _ _ _ _ _ ?s2 in _
                   else _) =>
      assert (H2 : extends st s2); [|generalize dependent s2; intros st2 H2]
  end.
  { match goal with
    | |- extends st (if _ then _ else ?s1) => assert (H1 : extends st s1)
    end.
    { destruct (_ && _); [apply trackTaskInputs_extends | apply extends_refl]. }
    destruct (_ && _ && negb _); [|exact H1].
    eapply extends_trans; [exact H1 | apply completeSubagents_extends]. }
  destruct (negb (String.eqb (ev_ParentToolUseID ev) "")).
  - pose proof (getOrCreate_extends (ev_ParentToolUseID ev) st2) as H3.
    destruct (getOrCreateSubagentSession _ _ _ _ _ st2) as [st3 [key|]]; cbn [fst] in H3.
    + destruct (String.eqb typ "assistant").
      * eapply extends_trans; [exact H2|]. eapply extends_trans; [exact H3|].
        apply subagentAssistant_extends.
      * eapply extends_trans; [exact H2|]. eapply extends_trans; [exact H3|].
        apply subagentUser_extends.
    + eapply extends_trans; eassumption.
  - destruct (String.eqb typ "assistant").
    + eapply extends_trans; [exact H2 | apply topAssistant_extends].
    + eapply extends_trans; [exact H2 | apply topUser_extends].
Qed.

Lemma scan_extends (lines : list string) (st : State) :
  extends st (scan cm ccSubagentBridge unmarshalType unmarshalEvent unmarshalTaskInput
                unmarshalString unmarshalBlocks utf8_runes caseTable lines st).
Proof. unfold scan. apply fold_extends. apply processLine_extends. Qed.

Lemma scan_app (lines more : list string) (st : State) :
  scan cm ccSubagentBridge unmarshalType unmarshalEvent unmarshalTaskInput
    unmarshalString unmarshalBlocks utf8_runes caseTable (lines ++ more) st =
  scan cm ccSubagentBridge unmarshalType unmarshalEvent unmarshalTaskInput
    unmarshalString unmarshalBlocks utf8_runes caseTable more
    (scan cm ccSubagentBridge unmarshalType unmarshalEvent unmarshalTaskInput
       unmarshalString unmarshalBlocks utf8_runes caseTable lines st).
Proof. unfold scan. apply fold_left_app. Qed.

Lemma deferred_extends (st : State) : extends st (deferred cm rangeOrder st).
Proof.
  unfold deferred.
  eapply extends_trans; [apply flushAssistant_extends|].
  eapply extends_trans; [apply flushUser_extends|].
  apply (fold_extends (fun st key => closeSession key st)).
  intros s key. apply closeSession_extends.
Qed.

End StreamLaws.

Lemma hexDigit_lower (n : Z) : 0 <= n < 16 -> isLowerHex (SHA256.hexDigit n) = true.
Proof.
  intros H.
  assert (T : forallb (fun k => isLowerHex (SHA256.hexDigit (Z.of_nat k))) (seq 0 16) = true)
    by reflexivity.
  rewrite forallb_forall in T. specialize (T (Z.to_nat n)).
  rewrite Z2Nat.id in T by lia. apply T. apply in_seq. lia.
Qed.

Lemma nibbles (x : Z) :
  0 <= x < 256 -> 0 <= Z.shiftr x 4 < 16 /\ 0 <= Z.land x 15 < 16.
Proof.
  intros H. split.
  - rewrite Z.shiftr_div_pow2 by lia. change (2 ^ 4) with 16.
    split; [apply Z.div_pos; lia | apply Z.div_lt_upper_bound; lia].
  - change 15 with (Z.ones 4). rewrite Z.land_ones by lia. apply Z.mod_pos_bound. lia.
Qed.

(** The identifier of every conversation ID: the five groups are the
    hexadecimal text of bytes 0-3, 4-5, 6-7, 8-9 and 10-15 of the digest, 36
    characters in all, a '-' at the positions 8, 13, 18 and 23 and a lowercase
    hexadecimal digit everywhere else. *)
Lemma conversationIDToUUID_form (id : string) :
  let h := SHA256.Sum256 (SHA256.bytesOfString id) in
  conversationIDToUUID id =
    SHA256.hex (slice 0 4 h) +:+ "-" +:+ SHA256.hex (slice 4 6 h) +:+ "-" +:+
    SHA256.hex (slice 6 8 h) +:+ "-" +:+ SHA256.hex (slice 8 10 h) +:+ "-" +:+
    SHA256.hex (slice 10 16 h) /\
  String.length (conversationIDToUUID id) = 36%nat /\
  (forall i c, String.get i (conversationIDToUUID id) = Some c ->
     if (Nat.eqb i 8 || Nat.eqb i 13 || Nat.eqb i 18 || Nat.eqb i 23)%nat
     then c = "-"%char else isLowerHex c = true).
Proof.
  unfold conversationIDToUUID. cbv zeta.
  pose proof (SHA256Props.Sum256_length (SHA256.bytesOfString id)) as Hlen.
  pose proof (SHA256Props.Sum256_bytes (SHA256.bytesOfString id)) as Hb.
  generalize dependent (SHA256.Sum256 (SHA256.bytesOfString id)). intros h Hlen Hb.
  do 33 (destruct h as [|? h]; try discriminate Hlen). clear Hlen.
  repeat match goal with
         | H : Forall _ (_ :: _) |- _ =>
             let Hx := fresh "Hx" in
             apply Forall_cons_1 in H as [Hx H]; apply nibbles in Hx
         end.
  split; [reflexivity|]. split; [reflexivity|].
  intros i c.
  cbv -[SHA256.hexDigit Z.shiftr Z.land isLowerHex].
  do 36 (destruct i as [|i];
         [intros [= <-]; first [reflexivity | apply hexDigit_lower; tauto]|]).
  discriminate.
Qed.

Section TurnLaws.

Variable cm : ptr.
Variable ccSubagentBridge :
  option (string -> string -> string -> Heap -> Heap * result ptr).
Variable unmarshalType : string -> option string.
Variable unmarshalEvent : string -> option StreamEvent.
Variable unmarshalTaskInput : string -> ccTaskInput.
Variable unmarshalString : string -> option string.
Variable unmarshalBlocks : string -> option (list Block).
Variable utf8_runes : string -> list Z.
Variable caseTable : Z -> Z.
Variable rangeOrder : gmap string ccSubagentSession -> list string.
Variable claude : list string -> string -> Run.
Variable mcpFile : string -> string.

Local Abbreviation turn := (processMessage cm ccSubagentBridge unmarshalType unmarshalEvent
  unmarshalTaskInput unmarshalString unmarshalBlocks utf8_runes caseTable rangeOrder
  claude mcpFile).

Local Abbreviation turns := (Go cm ccSubagentBridge unmarshalType unmarshalEvent
  unmarshalTaskInput unmarshalString unmarshalBlocks utf8_runes caseTable rangeOrder
  claude mcpFile).

Lemma conversationID_working (h : Heap) (p : ptr) (b : bool) :
  conversationID (SetAgentWorking p b h p) = conversationID (h p) /\
  cwd (SetAgentWorking p b h p) = cwd (h p).
Proof. unfold SetAgentWorking, store. now rewrite Nat.eqb_refl. Qed.

Lemma processMessage_args (msg : Message) (h : Heap) (hist : list Message) :
  snd (fst (turn msg h hist)) =
    commandArgs (promptOf msg) (mcpFile (conversationID (h cm)))
      (conversationIDToUUID (conversationID (h cm))) (length hist =? 0)%nat /\
  hist `prefix_of` snd (fst (fst (turn msg h hist))).
Proof.
  unfold processMessage. cbv zeta.
  destruct (conversationID_working h cm true) as [-> _].
  destruct (claude _ _) as [err|err|lines scanErr waitErr]; cbn [fst snd];
    (split; [reflexivity|]); try reflexivity.
  unfold processStream. cbn [fst].
  exact (proj1 (extends_trans _ _ _
            (scan_extends cm ccSubagentBridge unmarshalType unmarshalEvent
               unmarshalTaskInput unmarshalString unmarshalBlocks utf8_runes caseTable
               lines (enter (SetAgentWorking cm true h) hist))
            (deferred_extends cm rangeOrder _))).
Qed.

Lemma commandArgs_flag (prompt mcp sid : string) (first : bool) :
  skipn 12 (commandArgs prompt mcp sid first) =
  [if first then "--session-id" else "--resume"; sid]%string.
Proof. now destruct first. Qed.

(** Once the history is not empty every later turn passes [--resume]. *)
Lemma Go_resumes (msgs : list Message) :
  forall (h : Heap) (hist : list Message),
    hist <> [] ->
    Forall (fun args => nth 12 args EmptyString = "--resume"%string)
           (snd (turns msgs h hist)).
Proof.
  induction msgs as [|msg msgs IH]; intros h hist Hne; [constructor|].
  cbn [Go]. destruct (processMessage_args msg h hist) as [Ea Hp].
  destruct (turn msg h hist) as [[[h1 hist1] args] err]. cbn [fst snd] in *.
  specialize (IH h1 hist1).
  destruct (turns msgs h1 hist1) as [[h2 hist2] argss]. cbn [snd] in *.
  constructor.
  - rewrite Ea. destruct hist; [contradiction | reflexivity].
  - apply IH. intros ->. apply prefix_nil_inv in Hp. contradiction.
Qed.

End TurnLaws.

(** C8, as the code has it. The identifier of a conversation is a function of
    its ID alone: the first 16 bytes of the SHA-256 of the ID as 36
    characters, lowercase hexadecimal digits in groups of 8, 4, 4, 4 and 12
    with '-' between them. A turn passes it with [--session-id] when the
    history of the loop is empty at its start and with [--resume] when it is
    not; no turn shortens the history, so from the first turn that records a
    message on, every turn passes [--resume]. *)
Theorem session_flag_follows_history :
  forall (cm : ptr)
         (ccSubagentBridge : option (string -> string -> string -> Heap -> Heap * result ptr))
         (unmarshalType : string -> option string)
         (unmarshalEvent : string -> option StreamEvent)
         (unmarshalTaskInput : string -> ccTaskInput)
         (unmarshalString : string -> option string)
         (unmarshalBlocks : string -> option (list Block))
         (utf8_runes : string -> list Z) (caseTable : Z -> Z)
         (rangeOrder : gmap string ccSubagentSession -> list string)
         (claude : list string -> string -> Run) (mcpFile : string -> string)
         (msg : Message) (h : Heap) (hist : list Message),
    let sid := conversationIDToUUID (conversationID (h cm)) in
    let digest := SHA256.Sum256 (SHA256.bytesOfString (conversationID (h cm))) in
    let '(_, hist', args, _) :=
      processMessage cm ccSubagentBridge unmarshalType unmarshalEvent unmarshalTaskInput
        unmarshalString unmarshalBlocks utf8_runes caseTable rangeOrder claude mcpFile
        msg h hist in
    sid = SHA256.hex (slice 0 4 digest) +:+ "-" +:+ SHA256.hex (slice 4 6 digest) +:+ "-" +:+
          SHA256.hex (slice 6 8 digest) +:+ "-" +:+ SHA256.hex (slice 8 10 digest) +:+ "-" +:+
          SHA256.hex (slice 10 16 digest) /\
    String.length sid = 36%nat /\
    (forall i c, String.get i sid = Some c ->
       if (Nat.eqb i 8 || Nat.eqb i 13 || Nat.eqb i 18 || Nat.eqb i 23)%nat
       then c = "-"%char else isLowerHex c = true) /\
    skipn 12 args = [if (length hist =? 0)%nat then "--session-id" else "--resume"; sid]%string /\
    (hist = [] -> skipn 12 args = ["--session-id"; sid]%string) /\
    (hist <> [] -> skipn 12 args = ["--resume"; sid]%string) /\
    hist `prefix_of` hist' /\
    (forall later : list Message,
        hist' <> [] ->
        Forall (fun args => nth 12 args EmptyString = "--resume"%string)
          (snd (Go cm ccSubagentBridge unmarshalType unmarshalEvent unmarshalTaskInput
                  unmarshalString unmarshalBlocks utf8_runes caseTable rangeOrder claude
                  mcpFile later (fst (fst (fst
                    (processMessage cm ccSubagentBridge unmarshalType unmarshalEvent
                       unmarshalTaskInput unmarshalString unmarshalBlocks utf8_runes
                       caseTable rangeOrder claude mcpFile msg h hist)))) hist'))).
Proof.
  intros. cbv zeta.
  destruct (conversationIDToUUID_form (conversationID (h cm))) as (F1 & F2 & F3).
  pose proof (processMessage_args cm ccSubagentBridge unmarshalType unmarshalEvent
                unmarshalTaskInput unmarshalString unmarshalBlocks utf8_runes caseTable
                rangeOrder claude mcpFile msg h hist) as [Ea Hp].
  destruct (processMessage _ _ _ _ _ _ _ _ _ _ _ _ msg h hist) as [[[h1 hist1] args] err].
  cbn [fst snd] in *.
  split; [exact F1|]. split; [exact F2|]. split; [exact F3|].
  rewrite Ea, commandArgs_flag.
  split; [reflexivity|]. split; [now intros ->|]. split; [now destruct hist|].
  split; [exact Hp|]. intros later Hne. now apply Go_resumes.
Qed.

(** C8 as stated fails: when the first turn records nothing (here the command
    prints nothing), the history is still empty at the second turn, which
    passes [--session-id] again, not [--resume]. *)
Lemma second_turn_without_resume :
  let '(_, hist, argss) :=
    Go 0%nat noBridge (fun _ => None) (fun _ => None)
       (fun _ => {| Description := ""; Prompt := ""; SubagentType := "" |})
       (fun _ => None) (fun _ => None) (fun _ => []) (fun r => r)
       mapOrder silentClaude tmpMcpFile [hello; hello] idleHeap [] in
  hist = [] /\
  map (fun args => nth 12 args EmptyString) argss = ["--session-id"; "--session-id"]%string /\
  map (fun args => nth 13 args EmptyString) argss =
    [conversationIDToUUID "cABC123"; conversationIDToUUID "cABC123"].
Proof. vm_compute. repeat split. Qed.

Lemma grows_refl (h : Heap) : grows h h.
Proof. intros q. now repeat split. Qed.

Lemma grows_trans (a b c : Heap) : grows a b -> grows b c -> grows a c.
Proof.
  intros Hab Hbc q. destruct (Hab q) as (P1 & R1 & W1), (Hbc q) as (P2 & R2 & W2).
  repeat split; [now transitivity (recorded (b q)) | congruence | tauto].
Qed.

Lemma record_grows (p : ptr) (m : Message) (h : Heap) : grows h (record p m h).
Proof.
  intros q. unfold record, store.
  destruct (recordSet (h p)) eqn:E; [|now repeat split].
  destruct (Nat.eqb_spec q p) as [-> | _]; cbn; [|now repeat split].
  repeat split; [now apply prefix_app_r | now rewrite E | tauto].
Qed.

Lemma record_recorded (p : ptr) (m : Message) (h : Heap) :
  recordSet (h p) = true -> recorded (record p m h p) = recorded (h p) ++ [m].
Proof. intros E. unfold record, store. now rewrite E, Nat.eqb_refl. Qed.

Lemma idle_grows (p : ptr) (h : Heap) : grows h (SetAgentWorking p false h).
Proof.
  intros q. unfold SetAgentWorking, store.
  destruct (Nat.eqb_spec q p) as [-> | _]; cbn; now repeat split.
Qed.

Lemma idle_working (p : ptr) (h : Heap) : agentWorking (SetAgentWorking p false h p) = false.
Proof. unfold SetAgentWorking, store. now rewrite Nat.eqb_refl. Qed.

Lemma closeSession_spec (key : string) (st : State) (sa : ccSubagentSession) :
  subagentSessions st !! key = Some sa ->
  subagentSessions (closeSession key st) = <[key := flushed sa]> (subagentSessions st) /\
  heap (closeSession key st) =
    SetAgentWorking (manager sa) false
      (recordOpt (manager sa) (pendingUser sa)
         (recordOpt (manager sa) (setEndOfTurn <$> pendingAssistant sa) (heap st))) /\
  history (closeSession key st) = history st /\
  currentAssistantMsg (closeSession key st) = currentAssistantMsg st /\
  currentUserMsg (closeSession key st) = currentUserMsg st.
Proof.
  intros H. unfold closeSession. rewrite H.
  unfold flushSubagentAssistant. rewrite H.
  destruct sa as [mgr lastID [pa|] [pu|]]; unfold flushSubagentUser; cbn;
    rewrite ?lookup_insert_eq, ?H; cbn; rewrite ?insert_insert_eq;
    repeat split; try reflexivity.
  symmetry. now apply insert_id.
Qed.

Lemma closeSession_absent (key : string) (st : State) :
  subagentSessions st !! key = None -> closeSession key st = st.
Proof. intros H. unfold closeSession. now rewrite H. Qed.

Lemma closeSession_facts (key : string) (st : State) (sa : ccSubagentSession) :
  subagentSessions st !! key = Some sa ->
  grows (heap st) (heap (closeSession key st)) /\
  agentWorking (heap (closeSession key st) (manager sa)) = false /\
  (forall m, pendingAssistant sa = Some m -> recordSet (heap st (manager sa)) = true ->
             In (setEndOfTurn m) (recorded (heap (closeSession key st) (manager sa)))) /\
  (forall m, pendingUser sa = Some m -> recordSet (heap st (manager sa)) = true ->
             In m (recorded (heap (closeSession key st) (manager sa)))).
Proof.
  intros H. destruct (closeSession_spec key st sa H) as (_ & -> & _).
  set (h1 := recordOpt (manager sa) (setEndOfTurn <$> pendingAssistant sa) (heap st)).
  set (h2 := recordOpt (manager sa) (pendingUser sa) h1).
  assert (G1 : grows (heap st) h1).
  { subst h1. destruct (pendingAssistant sa); [apply record_grows | apply grows_refl]. }
  assert (G2 : grows h1 h2).
  { subst h2. destruct (pendingUser sa); [apply record_grows | apply grows_refl]. }
  assert (G3 : grows h2 (SetAgentWorking (manager sa) false h2)) by apply idle_grows.
  split; [eapply grows_trans; [exact G1|]; eapply grows_trans; eassumption|].
  split; [apply idle_working|]. split.
  - intros m Hm Hr.
    destruct (grows_trans _ _ _ G2 G3 (manager sa)) as ([k ->] & _ & _).
    apply in_or_app. left. subst h1. rewrite Hm. cbn.
    rewrite record_recorded by exact Hr. apply in_or_app. right. now left.
  - intros m Hm Hr.
    destruct (G3 (manager sa)) as ([k ->] & _ & _).
    apply in_or_app. left. subst h2. rewrite Hm. cbn.
    rewrite record_recorded; [apply in_or_app; right; now left|].
    destruct (G1 (manager sa)) as (_ & -> & _). exact Hr.
Qed.

Lemma closeAll_spec (order : list string) :
  NoDup order ->
  forall st : State,
    grows (heap st) (heap (closeAll order st)) /\
    history (closeAll order st) = history st /\
    currentAssistantMsg (closeAll order st) = currentAssistantMsg st /\
    currentUserMsg (closeAll order st) = currentUserMsg st /\
    (forall key, key ∉ order ->
       subagentSessions (closeAll order st) !! key = subagentSessions st !! key) /\
    (forall key, subagentSessions st !! key = None ->
       subagentSessions (closeAll order st) !! key = None) /\
    (forall key sa, key ∈ order -> subagentSessions st !! key = Some sa ->
       subagentSessions (closeAll order st) !! key = Some (flushed sa) /\
       agentWorking (heap (closeAll order st) (manager sa)) = false /\
       (forall m, pendingAssistant sa = Some m -> recordSet (heap st (manager sa)) = true ->
                  In (setEndOfTurn m) (recorded (heap (closeAll order st) (manager sa)))) /\
       (forall m, pendingUser sa = Some m -> recordSet (heap st (manager sa)) = true ->
                  In m (recorded (heap (closeAll order st) (manager sa))))).
Proof.
  induction 1 as [|k order Hk Hnd IH]; intros st.
  - cbn. repeat split; try apply grows_refl; try easy.
    all: intros key sa Hin; now apply elem_of_nil in Hin.
  - change (closeAll (k :: order) st) with (closeAll order (closeSession k st)).
    destruct (IH (closeSession k st)) as (G & Hh & Ha & Hu & Hout & Hnone & Hin).
    destruct (subagentSessions st !! k) as [sk|] eqn:Ek.
    + destruct (closeSession_spec k st sk Ek) as (Ess & _ & Ehist & Ecur & Eusr).
      destruct (closeSession_facts k st sk Ek) as (G0 & W0 & A0 & U0).
      assert (Gall : grows (heap st) (heap (closeAll order (closeSession k st))))
        by (eapply grows_trans; eassumption).
      split; [exact Gall|]. split; [congruence|]. split; [congruence|].
      split; [congruence|]. split; [|split].
      * intros key Hkey. apply not_elem_of_cons in Hkey as [Hne Hkey].
        rewrite Hout by exact Hkey. rewrite Ess. now apply lookup_insert_ne.
      * intros key Hkey. apply Hnone. rewrite Ess.
        rewrite lookup_insert_ne; [exact Hkey | intros ->; congruence].
      * intros key sa Hkey Hsa. apply elem_of_cons in Hkey as [-> | Hkey].
        -- rewrite Ek in Hsa. injection Hsa as <-.
           rewrite (Hout k Hk), Ess, lookup_insert_eq.
           split; [reflexivity|]. split.
           { destruct (G (manager sk)) as (_ & _ & Wk).
             destruct (agentWorking (heap (closeAll order (closeSession k st)) (manager sk)));
               [|reflexivity].
             rewrite <- W0. symmetry. now apply Wk. }
           split.
           { intros m Hm Hr. destruct (G (manager sk)) as ([more ->] & _ & _).
             apply in_or_app. left. now apply A0. }
           { intros m Hm Hr. destruct (G (manager sk)) as ([more ->] & _ & _).
             apply in_or_app. left. now apply U0. }
        -- assert (Hne : k <> key) by (intros ->; contradiction).
           assert (Hsa' : subagentSessions (closeSession k st) !! key = Some sa).
           { rewrite Ess. now rewrite lookup_insert_ne. }
           destruct (Hin key sa Hkey Hsa') as (I1 & I2 & I3 & I4).
           split; [exact I1|]. split; [exact I2|].
           destruct (G0 (manager sa)) as (_ & Er & _).
           split; intros m Hm Hr; [apply I3 | apply I4]; congruence.
    + rewrite (closeSession_absent k st Ek) in *.
      split; [exact G|]. split; [exact Hh|]. split; [exact Ha|]. split; [exact Hu|].
      split; [|split].
      * intros key Hkey. apply not_elem_of_cons in Hkey as [_ Hkey]. now apply Hout.
      * exact Hnone.
      * intros key sa Hkey Hsa. apply elem_of_cons in Hkey as [-> | Hkey]; [congruence|].
        now apply Hin.
Qed.

Lemma flushTop_spec (cm : ptr) (st : State) :
  let top := flushUser cm (flushAssistant cm st) in
  currentAssistantMsg top = None /\ currentUserMsg top = None /\
  history top = history st ++ pendingTop st /\
  subagentSessions top = subagentSessions st /\
  grows (heap st) (heap top) /\
  (recordSet (heap st cm) = true ->
   recorded (heap top cm) = recorded (heap st cm) ++ pendingTop st).
Proof.
  cbv zeta. unfold flushUser, flushAssistant, pendingTop.
  destruct (currentAssistantMsg st) as [a|] eqn:Ea;
    destruct (currentUserMsg st) as [u|] eqn:Eu; cbn; rewrite ?Ea, ?Eu; cbn;
    rewrite ?app_nil_r.
  - split; [reflexivity|]. split; [reflexivity|]. split; [now rewrite <- app_assoc|].
    split; [reflexivity|]. split; [eapply grows_trans; apply record_grows|].
    intros Hr. rewrite record_recorded.
    + rewrite record_recorded by exact Hr. now rewrite <- app_assoc.
    + destruct (record_grows cm (setEndOfTurn a) (heap st) cm) as (_ & -> & _). exact Hr.
  - split; [reflexivity|]. split; [reflexivity|]. split; [reflexivity|].
    split; [reflexivity|]. split; [apply record_grows|].
    intros Hr. now apply record_recorded.
  - split; [reflexivity|]. split; [reflexivity|]. split; [reflexivity|].
    split; [reflexivity|]. split; [apply record_grows|].
    intros Hr. now apply record_recorded.
  - split; [reflexivity|]. split; [reflexivity|]. split; [reflexivity|].
    split; [reflexivity|]. split; [apply grows_refl|]. reflexivity.
Qed.

Lemma rangeOrder_complete (order : list string) (m : gmap string ccSubagentSession) :
  Permutation order (map_to_list m).*1 ->
  NoDup order /\ (forall key sa, m !! key = Some sa -> key ∈ order).
Proof.
  intros P. split.
  - rewrite P. apply NoDup_fst_map_to_list.
  - intros key sa H. rewrite P. apply list_elem_of_fmap.
    exists (key, sa). split; [reflexivity | now apply elem_of_map_to_list].
Qed.

(** C10. Provided the range over the sessions visits every key once: when
    [processStream] returns -- on any finite sequence of lines, however it
    ends -- the messages pending at top level when the scan stopped have been
    taken out of the local variables, appended to the history and handed to
    [recordMessage] of the main manager (when it has one), the assistant
    message with its end-of-turn flag set; every sub-agent session of the map,
    which holds every session created while the lines were read, has nothing
    pending any more, what it had pending has been handed to [recordMessage]
    of its manager (when it has one), and the working flag of its manager is
    false. *)
Theorem processStream_flushes_on_return :
  forall (cm : ptr)
         (ccSubagentBridge : option (string -> string -> string -> Heap -> Heap * result ptr))
         (unmarshalType : string -> option string)
         (unmarshalEvent : string -> option StreamEvent)
         (unmarshalTaskInput : string -> ccTaskInput)
         (unmarshalString : string -> option string)
         (unmarshalBlocks : string -> option (list Block))
         (utf8_runes : string -> list Z) (caseTable : Z -> Z)
         (rangeOrder : gmap string ccSubagentSession -> list string),
    (forall m, Permutation (rangeOrder m) (map_to_list m).*1) ->
    forall (lines : list string) (scanErr : option string) (st0 : State),
      let read := scan cm ccSubagentBridge unmarshalType unmarshalEvent unmarshalTaskInput
                    unmarshalString unmarshalBlocks utf8_runes caseTable in
      let stopped := read lines st0 in
      let '(final, err) :=
        processStream cm ccSubagentBridge unmarshalType unmarshalEvent unmarshalTaskInput
          unmarshalString unmarshalBlocks utf8_runes caseTable rangeOrder
          lines scanErr st0 in
      err = scanErr /\
      currentAssistantMsg final = None /\ currentUserMsg final = None /\
      history final = history stopped ++ pendingTop stopped /\
      (recordSet (heap stopped cm) = true ->
       exists more,
         recorded (heap final cm) = recorded (heap stopped cm) ++ pendingTop stopped ++ more) /\
      (forall key sa, subagentSessions stopped !! key = Some sa ->
         subagentSessions final !! key = Some (flushed sa) /\
         agentWorking (heap final (manager sa)) = false /\
         (forall m, pendingAssistant sa = Some m ->
                    recordSet (heap stopped (manager sa)) = true ->
                    In (setEndOfTurn m) (recorded (heap final (manager sa)))) /\
         (forall m, pendingUser sa = Some m ->
                    recordSet (heap stopped (manager sa)) = true ->
                    In m (recorded (heap final (manager sa))))) /\
      (forall key, subagentSessions stopped !! key = None ->
                   subagentSessions final !! key = None) /\
      (forall seen rest key sa,
          lines = seen ++ rest -> subagentSessions (read seen st0) !! key = Some sa ->
          exists sa', subagentSessions stopped !! key = Some sa' /\ manager sa' = manager sa /\
                      subagentSessions final !! key = Some (flushed sa') /\
                      agentWorking (heap final (manager sa)) = false).
Proof.
  intros cm bridge uType uEvent uTask uString uBlocks runes table rangeOrder Hrange
         lines scanErr st0. cbv zeta. unfold processStream, deferred.
  set (stopped := scan cm bridge uType uEvent uTask uString uBlocks runes table lines st0).
  destruct (flushTop_spec cm stopped) as (Ta & Tu & Th & Ts & Tg & Tr).
  set (top := flushUser cm (flushAssistant cm stopped)) in *.
  destruct (rangeOrder_complete _ _ (Hrange (subagentSessions top))) as [Hnd Hall].
  destruct (closeAll_spec _ Hnd top) as (G & Hh & Ha & Hu & _ & Hnone & Hin).
  fold (closeAll (rangeOrder (subagentSessions top)) top).
  set (final := closeAll (rangeOrder (subagentSessions top)) top) in *.
  assert (Hsessions : forall key sa, subagentSessions stopped !! key = Some sa ->
         subagentSessions final !! key = Some (flushed sa) /\
         agentWorking (heap final (manager sa)) = false /\
         (forall m, pendingAssistant sa = Some m ->
                    recordSet (heap stopped (manager sa)) = true ->
                    In (setEndOfTurn m) (recorded (heap final (manager sa)))) /\
         (forall m, pendingUser sa = Some m ->
                    recordSet (heap stopped (manager sa)) = true ->
                    In m (recorded (heap final (manager sa))))).
  { intros key sa Hsa. rewrite <- Ts in Hsa.
    destruct (Hin key sa (Hall key sa Hsa) Hsa) as (I1 & I2 & I3 & I4).
    destruct (Tg (manager sa)) as (_ & Er & _).
    split; [exact I1|]. split; [exact I2|].
    split; intros m Hm Hr; [apply I3 | apply I4]; congruence. }
  split; [reflexivity|]. split; [congruence|]. split; [congruence|].
  split; [congruence|]. split; [|split; [exact Hsessions|split]].
  - intros Hr. destruct (G cm) as ([more Em] & _ & _). exists more.
    rewrite Em, (Tr Hr). now rewrite <- app_assoc.
  - intros key Hkey. apply Hnone. now rewrite Ts.
  - intros seen rest key sa -> Hsa.
    pose proof (scan_extends cm bridge uType uEvent uTask uString uBlocks runes table rest
                  (scan cm bridge uType uEvent uTask uString uBlocks runes table seen st0))
      as [_ Hk].
    destruct (Hk key sa Hsa) as (sa' & Hsa' & Em).
    exists sa'. unfold stopped. rewrite scan_app.
    split; [exact Hsa'|]. split; [exact Em|].
    assert (Hst : subagentSessions stopped !! key = Some sa').
    { unfold stopped. now rewrite scan_app. }
    destruct (Hsessions key sa' Hst) as (I1 & I2 & _). split; [exact I1|].
    now rewrite <- Em.
Qed.

Lemma processStream_flushes_on_return_witness :
  (forall m, Permutation (mapOrder m) (map_to_list m).*1) /\
  currentAssistantMsg toyRun = None /\ currentUserMsg toyRun = None /\
  map (fun m => (Role m, length (Contents m), EndOfTurn m)) (recorded (heap toyRun 0%nat))
    = [(MessageRoleAssistant, 2%nat, false)] /\
  conversationID (heap toyRun 1%nat) = "run-echo-command"%string /\
  map (fun m => (Role m, length (Contents m), EndOfTurn m)) (recorded (heap toyRun 1%nat))
    = [(MessageRoleUser, 1%nat, false); (MessageRoleAssistant, 1%nat, false);
       (MessageRoleUser, 1%nat, false)] /\
  agentWorking (heap toyRun 1%nat) = false /\
  (pendingAssistant <$> subagentSessions toyRun !! "toolu_01"%string) = Some None /\
  (pendingUser <$> subagentSessions toyRun !! "toolu_01"%string) = Some None.
Proof.
  assert (Hrange : forall m, Permutation (mapOrder m) (map_to_list m).*1)
    by (intros m; reflexivity).
  split; [exact Hrange|].
  pose proof (processStream_flushes_on_return 0%nat toyBridge toyType toyEvent toyTaskInput
                (fun _ => None) (fun _ => None) Slug.runes (fun r => r) mapOrder Hrange
                toyStream None (enter idleHeap [])) as H.
  cbv zeta in H. fold toyRun in H.
  change (processStream 0%nat toyBridge toyType toyEvent toyTaskInput
            (fun _ => None) (fun _ => None) Slug.runes (fun r => r) mapOrder
            toyStream None (enter idleHeap []))
    with (toyRun, @None string) in H.
  destruct H as (_ & Ha & Hu & _).
  split; [exact Ha|]. split; [exact Hu|].
  vm_compute. repeat split.
Defined.

(** The expectations of [TestClaudeCodeLoop_ProcessStream_SubagentBridge]:
    three messages in the main conversation (the assistant message with the
    thinking and the Task call, not the end of a turn; the user message with
    the result of the Task; the final assistant message, the end of the turn),
    three in the sub-agent conversation, whose slug is "run-echo-command". *)
Example whole_stream_runs :
  let final := fst (processStream 0%nat toyBridge toyType toyEvent toyTaskInput
                      (fun _ => None) (fun _ => None) Slug.runes (fun r => r) mapOrder
                      wholeStream None (enter idleHeap [])) in
  map (fun m => (Role m, map c_Type (Contents m), EndOfTurn m)) (recorded (heap final 0%nat))
    = [ (MessageRoleAssistant, [ContentTypeThinking; ContentTypeToolUse], false);
        (MessageRoleUser, [ContentTypeToolResult], false);
        (MessageRoleAssistant, [ContentTypeText], true) ] /\
  history final = recorded (heap final 0%nat) /\
  conversationID (heap final 1%nat) = "run-echo-command"%string /\
  map (fun m => (Role m, map c_Type (Contents m), EndOfTurn m)) (recorded (heap final 1%nat))
    = [ (MessageRoleUser, [ContentTypeText], false);
        (MessageRoleAssistant, [ContentTypeToolUse], false);
        (MessageRoleUser, [ContentTypeToolResult], false) ] /\
  agentWorking (heap final 1%nat) = false.
Proof. vm_compute. repeat split. Qed.

End ClaudeCodeProps.

(* ===================================================================== *)
(** * Properties of the functions of package [strings]                  *)
(* ===================================================================== *)

Module GoStringsProps.

Import GoStrings.

Lemma substring_whole (s : string) : String.substring 0 (String.length s) s = s.
Proof. induction s as [|c s IH]; [reflexivity|]. cbn. now rewrite IH. Qed.

Lemma strings_Index_unfold (s substr : string) :
  strings_Index s substr =
  if String.prefix substr s then Some 0%nat
  else match s with
       | EmptyString => None
       | String _ s' => S <$> strings_Index s' substr
       end.
Proof. destruct s; reflexivity. Qed.

Lemma strings_Index_first (s substr : string) :
  String.prefix substr s =
  match strings_Index s substr with
  | Some 0%nat => true
  | _ => false
  end.
Proof.
  rewrite strings_Index_unfold. destruct (String.prefix substr s); [reflexivity|].
  destruct s as [|c s]; [reflexivity|]. now destruct (strings_Index s substr).
Qed.

Lemma prefix_length_le (p s : string) :
  String.prefix p s = true -> (String.length p <= String.length s)%nat.
Proof.
  revert s. induction p as [|c p IH]; intros s; [cbn; lia|].
  destruct s as [|d s]; cbn [String.prefix String.length]; [discriminate|].
  destruct (ascii_dec c d); [|discriminate]. intros H. specialize (IH s H). lia.
Qed.

Lemma prefix_app_true (p s t : string) :
  String.prefix p s = true -> String.prefix p (s +:+ t) = true.
Proof.
  revert s. induction p as [|c p IH]; intros s; [now destruct (s +:+ t)|].
  destruct s as [|d s]; [discriminate|].
  change (String d s +:+ t) with (String d (s +:+ t)). cbn [String.prefix].
  destruct (ascii_dec c d); [apply IH | discriminate].
Qed.

Lemma prefix_app_false (p s t : string) :
  String.prefix p s = false -> (String.length p <= String.length s)%nat ->
  String.prefix p (s +:+ t) = false.
Proof.
  revert s. induction p as [|c p IH]; intros s; [now destruct s|].
  destruct s as [|d s]; cbn [String.length]; [lia|].
  change (String d s +:+ t) with (String d (s +:+ t)). cbn [String.prefix].
  destruct (ascii_dec c d); [|reflexivity]. intros H L. apply IH; [exact H | lia].
Qed.

Lemma strings_Index_length (s substr : string) :
  forall i, strings_Index s substr = Some i ->
            (i + String.length substr <= String.length s)%nat.
Proof.
  induction s as [|c s IH]; intros i; rewrite strings_Index_unfold.
  - destruct (String.prefix substr EmptyString) eqn:P; [|discriminate].
    intros [= <-]. now apply prefix_length_le.
  - destruct (String.prefix substr (String c s)) eqn:P.
    + intros [= <-]. now apply prefix_length_le.
    + destruct (strings_Index s substr) as [k|]; [|discriminate].
      intros [= <-]. specialize (IH k eq_refl). cbn [String.length]. lia.
Qed.

Lemma strings_Index_app (s t substr : string) :
  forall i, strings_Index s substr = Some i -> strings_Index (s +:+ t) substr = Some i.
Proof.
  induction s as [|c s IH]; intros i; rewrite strings_Index_unfold.
  - destruct (String.prefix substr EmptyString) eqn:P; [|discriminate].
    intros [= <-]. rewrite strings_Index_unfold.
    now rewrite (prefix_app_true substr EmptyString t P).
  - destruct (String.prefix substr (String c s)) eqn:P.
    + intros [= <-]. rewrite strings_Index_unfold.
      now rewrite (prefix_app_true substr (String c s) t P).
    + destruct (strings_Index s substr) as [k|] eqn:Ek; [|discriminate].
      intros [= <-].
      pose proof (strings_Index_length s substr k Ek) as L.
      assert (Pf : String.prefix substr (String c s +:+ t) = false)
        by (apply prefix_app_false; [exact P | cbn [String.length]; lia]).
      change (String c s +:+ t) with (String c (s +:+ t)) in *.
      rewrite strings_Index_unfold, Pf. now rewrite (IH k eq_refl).
Qed.

Lemma substring_app_keep (s t : string) :
  forall n m, (n + m <= String.length s)%nat ->
              String.substring n m (s +:+ t) = String.substring n m s.
Proof.
  induction s as [|c s IH]; intros n m L.
  - cbn [String.length] in L. assert (n = 0%nat) by lia. assert (m = 0%nat) by lia.
    subst. now destruct t.
  - change (String c s +:+ t) with (String c (s +:+ t)). cbn [String.length] in L.
    destruct n as [|n]; destruct m as [|m]; cbn [String.substring]; try reflexivity.
    + rewrite (IH 0%nat m) by lia. reflexivity.
    + apply IH. lia.
    + apply IH. lia.
Qed.

Lemma prefix_refl (s : string) : String.prefix s s = true.
Proof.
  induction s as [|c s IH]; [reflexivity|]. cbn [String.prefix].
  destruct (ascii_dec c c); [exact IH | contradiction].
Qed.

Lemma prefix_append (s t : string) : String.prefix s (s +:+ t) = true.
Proof. apply prefix_app_true, prefix_refl. Qed.

End GoStringsProps.


(* ===================================================================== *)
(** * Properties of [processStream] and [processMessage]                *)
(* ===================================================================== *)

Module StreamProps.

Import ClaudeCode StreamFacts ClaudeCodeProps.

Section Laws.

Variable cm : ptr.
Variable ccSubagentBridge :
  option (string -> string -> string -> Heap -> Heap * result ptr).
Variable unmarshalType : string -> option string.
Variable unmarshalEvent : string -> option StreamEvent.
Variable unmarshalTaskInput : string -> ccTaskInput.
Variable unmarshalString : string -> option string.
Variable unmarshalBlocks : string -> option (list Block).
Variable utf8_runes : string -> list Z.
Variable caseTable : Z -> Z.
Variable rangeOrder : gmap string ccSubagentSession -> list string.

Local Abbreviation line := (processLine cm ccSubagentBridge unmarshalType unmarshalEvent
  unmarshalTaskInput unmarshalString unmarshalBlocks utf8_runes caseTable).
Local Abbreviation scanning := (scan cm ccSubagentBridge unmarshalType unmarshalEvent
  unmarshalTaskInput unmarshalString unmarshalBlocks utf8_runes caseTable).

(** [processLine] in terms of [eventOf]. *)
Lemma processLine_eventOf (st : State) (l : string) :
  line st l =
  match eventOf unmarshalType unmarshalEvent l with
  | None => st
  | Some (typ, ev) =>
      let top := String.eqb (ev_ParentToolUseID ev) "" in
      let st :=
        if String.eqb typ "assistant" && top then trackTaskInputs unmarshalTaskInput ev st
        else st in
      let st :=
        if String.eqb typ "user" && top && negb (isNil (ev_ToolUseResult ev))
        then completeSubagents ev st else st in
      if negb top then
        let '(st, sa) := getOrCreateSubagentSession cm ccSubagentBridge utf8_runes caseTable
                           (ev_ParentToolUseID ev) st in
        match sa with
        | Some key =>
            if String.eqb typ "assistant" then subagentAssistant key ev st
            else subagentUser unmarshalString unmarshalBlocks key ev st
        | None => st
        end
      else if String.eqb typ "assistant" then topAssistant cm ev st
      else topUser cm unmarshalString unmarshalBlocks ev st
  end.
Proof.
  unfold processLine, eventOf.
  destruct (String.eqb l ""); [reflexivity|].
  destruct (unmarshalType l) as [typ|]; [|reflexivity].
  destruct (String.eqb typ "assistant" || String.eqb typ "user"); [|reflexivity].
  destruct (unmarshalEvent l) as [ev|]; reflexivity.
Qed.

Lemma processLine_noise (st : State) (l : string) :
  acts unmarshalType unmarshalEvent l = false -> line st l = st.
Proof.
  unfold acts. rewrite processLine_eventOf.
  destruct (eventOf unmarshalType unmarshalEvent l); [discriminate | reflexivity].
Qed.

Lemma scan_filter (lines : list string) :
  forall st, scanning lines st = scanning (List.filter (acts unmarshalType unmarshalEvent) lines) st.
Proof.
  unfold scan. induction lines as [|l lines IH]; intros st; [reflexivity|].
  cbn [List.filter fold_left].
  destruct (acts unmarshalType unmarshalEvent l) eqn:E.
  - cbn [fold_left]. apply IH.
  - rewrite processLine_noise by exact E. apply IH.
Qed.

End Laws.

(** X1. Lines that say nothing to the loop change nothing: [processStream] leaves
    the same state, and returns the same error, on a stream and on that
    stream without its empty lines, its lines that are no JSON object, its
    lines of a type other than "assistant" and "user", and its lines that do
    not decode into an event. *)
Theorem processStream_skips_noise :
  forall (cm : ptr)
         (ccSubagentBridge : option (string -> string -> string -> Heap -> Heap * result ptr))
         (unmarshalType : string -> option string)
         (unmarshalEvent : string -> option StreamEvent)
         (unmarshalTaskInput : string -> ccTaskInput)
         (unmarshalString : string -> option string)
         (unmarshalBlocks : string -> option (list Block))
         (utf8_runes : string -> list Z) (caseTable : Z -> Z)
         (rangeOrder : gmap string ccSubagentSession -> list string)
         (lines : list string) (scanErr : option string) (st : State),
    processStream cm ccSubagentBridge unmarshalType unmarshalEvent unmarshalTaskInput
      unmarshalString unmarshalBlocks utf8_runes caseTable rangeOrder lines scanErr st =
    processStream cm ccSubagentBridge unmarshalType unmarshalEvent unmarshalTaskInput
      unmarshalString unmarshalBlocks utf8_runes caseTable rangeOrder
      (List.filter (acts unmarshalType unmarshalEvent) lines) scanErr st.
Proof.
  intros. unfold processStream. now rewrite scan_filter.
Qed.


(** ** Sub-agent events and the main conversation *)

Section MainLaws.

Variable cm : ptr.
Variable ccSubagentBridge :
  option (string -> string -> string -> Heap -> Heap * result ptr).
Variable unmarshalType : string -> option string.
Variable unmarshalEvent : string -> option StreamEvent.
Variable unmarshalTaskInput : string -> ccTaskInput.
Variable unmarshalString : string -> option string.
Variable unmarshalBlocks : string -> option (list Block).
Variable utf8_runes : string -> list Z.
Variable caseTable : Z -> Z.
Variable rangeOrder : gmap string ccSubagentSession -> list string.

Local Abbreviation line := (processLine cm ccSubagentBridge unmarshalType unmarshalEvent
  unmarshalTaskInput unmarshalString unmarshalBlocks utf8_runes caseTable).
Local Abbreviation scanning := (scan cm ccSubagentBridge unmarshalType unmarshalEvent
  unmarshalTaskInput unmarshalString unmarshalBlocks utf8_runes caseTable).

Lemma sameMain_refl (st : State) : sameMain st st.
Proof. now repeat split. Qed.

Lemma sameMain_trans (a b c : State) : sameMain a b -> sameMain b c -> sameMain a c.
Proof.
  intros (A1 & A2 & A3 & A4 & A5) (B1 & B2 & B3 & B4 & B5).
  repeat split; congruence.
Qed.

Lemma fold_sameMain {A : Type} (f : State -> A -> State) (l : list A) :
  (forall st a, sameMain st (f st a)) -> forall st, sameMain st (fold_left f l st).
Proof.
  intros Hf. induction l as [|a l IH]; intros st; [apply sameMain_refl|].
  cbn [fold_left]. eapply sameMain_trans; [apply Hf | apply IH].
Qed.

Lemma flushSubagentAssistant_main (key : string) (st : State) :
  sameMain st (flushSubagentAssistant key st).
Proof.
  unfold flushSubagentAssistant.
  destruct (subagentSessions st !! key) as [sa|]; [|apply sameMain_refl].
  destruct (pendingAssistant sa); [|apply sameMain_refl]. now repeat split.
Qed.

Lemma flushSubagentUser_main (key : string) (st : State) :
  sameMain st (flushSubagentUser key st).
Proof.
  unfold flushSubagentUser.
  destruct (subagentSessions st !! key) as [sa|]; [|apply sameMain_refl].
  destruct (pendingUser sa); [|apply sameMain_refl]. now repeat split.
Qed.

Lemma closeSession_main (key : string) (st : State) : sameMain st (closeSession key st).
Proof.
  unfold closeSession.
  destruct (subagentSessions st !! key) as [sa|]; [|apply sameMain_refl].
  eapply sameMain_trans; [apply flushSubagentAssistant_main|].
  eapply sameMain_trans; [apply flushSubagentUser_main|]. now repeat split.
Qed.

Lemma completeSubagents_main (ev : StreamEvent) (st : State) :
  sameMain st (completeSubagents ev st).
Proof.
  unfold completeSubagents. apply fold_sameMain. intros s c.
  destruct (String.eqb _ _); [apply closeSession_main | apply sameMain_refl].
Qed.

Lemma getOrCreate_main (key : string) (st : State) :
  sameMain st (fst (getOrCreateSubagentSession cm ccSubagentBridge utf8_runes caseTable key st)).
Proof.
  unfold getOrCreateSubagentSession.
  destruct ccSubagentBridge as [bridge|]; [|apply sameMain_refl].
  destruct (subagentSessions st !! key); [apply sameMain_refl|].
  destruct (taskInputs st !! key); [|apply sameMain_refl].
  destruct (bridge _ _ _ _) as [h [subManager|err]]; now repeat split.
Qed.

Lemma subagentAssistant_main (key : string) (ev : StreamEvent) (st : State) :
  sameMain st (subagentAssistant key ev st).
Proof.
  unfold subagentAssistant.
  destruct (subagentSessions st !! key) as [sa|]; [|apply sameMain_refl].
  cbv zeta.
  destruct (negb (String.eqb (ev_MessageID ev) (lastMsgID sa)) || isNil (pendingAssistant sa)).
  - assert (H1 : sameMain st (flushSubagentUser key (flushSubagentAssistant key st))).
    { eapply sameMain_trans; [apply flushSubagentAssistant_main | apply flushSubagentUser_main]. }
    destruct (subagentSessions _ !! key); [|exact H1].
    eapply sameMain_trans; [exact H1|]. now repeat split.
  - destruct (subagentSessions st !! key); [|apply sameMain_refl]. now repeat split.
Qed.

Lemma subagentUser_main (key : string) (ev : StreamEvent) (st : State) :
  sameMain st (subagentUser unmarshalString unmarshalBlocks key ev st).
Proof.
  unfold subagentUser.
  pose proof (flushSubagentAssistant_main key st) as H1.
  destruct (subagentSessions (flushSubagentAssistant key st) !! key); [|exact H1].
  eapply sameMain_trans; [exact H1|]. now repeat split.
Qed.

Lemma subagentLine_main (st : State) (l : string) :
  subagentLine unmarshalType unmarshalEvent l = true -> sameMain st (line st l).
Proof.
  unfold subagentLine. rewrite processLine_eventOf.
  destruct (eventOf unmarshalType unmarshalEvent l) as [[typ ev]|]; [|discriminate].
  intros Hsub. cbv zeta.
  destruct (String.eqb (ev_ParentToolUseID ev) ""); [discriminate|].
  rewrite !andb_false_r. cbn [negb andb].
  pose proof (getOrCreate_main (ev_ParentToolUseID ev) st) as H1.
  destruct (getOrCreateSubagentSession _ _ _ _ _ st) as [st1 [key|]]; cbn [fst] in H1;
    [|exact H1].
  destruct (String.eqb typ "assistant").
  - eapply sameMain_trans; [exact H1 | apply subagentAssistant_main].
  - eapply sameMain_trans; [exact H1 | apply subagentUser_main].
Qed.

End MainLaws.

(** X3. An event of a sub-agent (one with a parent tool-use ID) is never taken
    for a message of the main conversation: the line leaves the history of the
    loop, the pending assistant and user messages, the current message ID and
    the recorded Task inputs as they were. *)
Theorem subagent_events_stay_out_of_main :
  forall (cm : ptr)
         (ccSubagentBridge : option (string -> string -> string -> Heap -> Heap * result ptr))
         (unmarshalType : string -> option string)
         (unmarshalEvent : string -> option StreamEvent)
         (unmarshalTaskInput : string -> ccTaskInput)
         (unmarshalString : string -> option string)
         (unmarshalBlocks : string -> option (list Block))
         (utf8_runes : string -> list Z) (caseTable : Z -> Z)
         (st : State) (l : string),
    let st' := processLine cm ccSubagentBridge unmarshalType unmarshalEvent
                 unmarshalTaskInput unmarshalString unmarshalBlocks utf8_runes caseTable
                 st l in
    if subagentLine unmarshalType unmarshalEvent l then
      history st' = history st /\
      currentAssistantMsg st' = currentAssistantMsg st /\
      currentUserMsg st' = currentUserMsg st /\
      currentMsgID st' = currentMsgID st /\
      taskInputs st' = taskInputs st
    else True.
Proof.
  intros. cbv zeta.
  destruct (subagentLine unmarshalType unmarshalEvent l) eqn:E; [|exact I].
  now apply subagentLine_main.
Qed.


(** ** A loop without a bridge *)

Section NoBridge.

Variable cm : ptr.
Variable unmarshalType : string -> option string.
Variable unmarshalEvent : string -> option StreamEvent.
Variable unmarshalTaskInput : string -> ccTaskInput.
Variable unmarshalString : string -> option string.
Variable unmarshalBlocks : string -> option (list Block).
Variable utf8_runes : string -> list Z.
Variable caseTable : Z -> Z.
Variable rangeOrder : gmap string ccSubagentSession -> list string.

Local Abbreviation line := (processLine cm None unmarshalType unmarshalEvent
  unmarshalTaskInput unmarshalString unmarshalBlocks utf8_runes caseTable).
Local Abbreviation scanning := (scan cm None unmarshalType unmarshalEvent
  unmarshalTaskInput unmarshalString unmarshalBlocks utf8_runes caseTable).

Lemma record_other (p q : ptr) (m : Message) (h : Heap) :
  q <> p -> record p m h q = h q.
Proof.
  intros Hne. unfold record, store. destruct (recordSet (h p)); [|reflexivity].
  destruct (Nat.eqb_spec q p); [contradiction | reflexivity].
Qed.

Lemma flushAssistant_others (st : State) :
  subagentSessions (flushAssistant cm st) = subagentSessions st /\
  forall q, q <> cm -> heap (flushAssistant cm st) q = heap st q.
Proof.
  unfold flushAssistant. destruct (currentAssistantMsg st); [|now split].
  split; [reflexivity|]. intros q Hq. cbn. now apply record_other.
Qed.

Lemma flushUser_others (st : State) :
  subagentSessions (flushUser cm st) = subagentSessions st /\
  forall q, q <> cm -> heap (flushUser cm st) q = heap st q.
Proof.
  unfold flushUser. destruct (currentUserMsg st); [|now split].
  split; [reflexivity|]. intros q Hq. cbn. now apply record_other.
Qed.

Lemma trackTaskInputs_others (ev : StreamEvent) (st : State) :
  subagentSessions (trackTaskInputs unmarshalTaskInput ev st) = subagentSessions st /\
  heap (trackTaskInputs unmarshalTaskInput ev st) = heap st.
Proof.
  unfold trackTaskInputs. generalize (ev_Content ev). intros cs. revert st.
  induction cs as [|c cs IH]; intros st; [now split|].
  cbn [fold_left]. destruct (_ && _); [|apply IH].
  destruct (IH (setTaskInputs st (<[sc_ID c := unmarshalTaskInput (sc_Input c)]> (taskInputs st))))
    as [-> ->]. now split.
Qed.

Lemma closeSession_none (key : string) (st : State) :
  subagentSessions st !! key = None -> closeSession key st = st.
Proof. unfold closeSession. now intros ->. Qed.

Lemma completeSubagents_none (ev : StreamEvent) (st : State) :
  subagentSessions st = ∅ -> completeSubagents ev st = st.
Proof.
  intros He. unfold completeSubagents. induction (ev_Content ev) as [|c cs IH]; [reflexivity|].
  cbn [fold_left]. destruct (String.eqb _ _); [|exact IH].
  rewrite closeSession_none; [exact IH|]. rewrite He. apply lookup_empty.
Qed.

Lemma closeAll_none (order : list string) (st : State) :
  subagentSessions st = ∅ -> fold_left (fun st key => closeSession key st) order st = st.
Proof.
  intros He. induction order as [|key order IH]; [reflexivity|].
  cbn [fold_left]. rewrite closeSession_none; [exact IH|]. rewrite He. apply lookup_empty.
Qed.

Lemma line_subagent_dropped (st : State) (l : string) :
  subagentLine unmarshalType unmarshalEvent l = true -> line st l = st.
Proof.
  unfold subagentLine. rewrite processLine_eventOf.
  destruct (eventOf unmarshalType unmarshalEvent l) as [[typ ev]|]; [|discriminate].
  cbv zeta. destruct (String.eqb (ev_ParentToolUseID ev) ""); [discriminate|].
  intros _. now rewrite !andb_false_r.
Qed.

Lemma line_others (h : Heap) (st : State) (l : string) :
  subagentSessions st = ∅ -> (forall q, q <> cm -> heap st q = h q) ->
  subagentSessions (line st l) = ∅ /\ (forall q, q <> cm -> heap (line st l) q = h q).
Proof.
  intros He Hh.
  destruct (subagentLine unmarshalType unmarshalEvent l) eqn:Es.
  { rewrite line_subagent_dropped by exact Es. now split. }
  revert Es. unfold subagentLine. rewrite processLine_eventOf.
  destruct (eventOf unmarshalType unmarshalEvent l) as [[typ ev]|]; [|now split].
  cbv zeta. destruct (String.eqb (ev_ParentToolUseID ev) ""); [|discriminate].
  intros _. rewrite !andb_true_r. cbn [negb].
  match goal with
  | |- context [if String.eqb typ "assistant" then topAssistant _ _ ?s else _] =>
      assert (H2 : subagentSessions s = ∅ /\ heap s = heap st);
        [|generalize dependent s; intros st2 [He2 Hh2]]
  end.
  { destruct (String.eqb typ "assistant").
    - destruct (trackTaskInputs_others ev st) as [E1 E2].
      destruct (String.eqb typ "user" && negb (isNil (ev_ToolUseResult ev))).
      + rewrite completeSubagents_none by congruence. split; congruence.
      + split; congruence.
    - destruct (String.eqb typ "user" && negb (isNil (ev_ToolUseResult ev))).
      + rewrite completeSubagents_none by exact He. now split.
      + now split. }
  destruct (String.eqb typ "assistant").
  - unfold topAssistant. cbv zeta.
    destruct (negb _ || isNil _); cbn.
    + destruct (flushAssistant_others st2) as [S1 H1].
      destruct (flushUser_others (flushAssistant cm st2)) as [S2 H3].
      split; [congruence|]. intros q Hq. rewrite H3, H1, Hh2 by exact Hq. now apply Hh.
    + split; [exact He2|]. intros q Hq. rewrite Hh2. now apply Hh.
  - unfold topUser. cbn. destruct (flushAssistant_others st2) as [S1 H1].
    split; [congruence|]. intros q Hq. rewrite H1, Hh2 by exact Hq. now apply Hh.
Qed.

Lemma scan_others (h : Heap) (lines : list string) :
  forall st,
    subagentSessions st = ∅ -> (forall q, q <> cm -> heap st q = h q) ->
    subagentSessions (scanning lines st) = ∅ /\
    (forall q, q <> cm -> heap (scanning lines st) q = h q).
Proof.
  unfold scan. induction lines as [|l lines IH]; intros st He Hh; [now split|].
  cbn [fold_left]. destruct (line_others h st l He Hh) as [He1 Hh1]. now apply IH.
Qed.

Lemma scan_without_subagents (lines : list string) :
  forall st,
    scanning lines st =
    scanning (List.filter (fun l => negb (subagentLine unmarshalType unmarshalEvent l)) lines) st.
Proof.
  unfold scan. induction lines as [|l lines IH]; intros st; [reflexivity|].
  cbn [List.filter fold_left].
  destruct (subagentLine unmarshalType unmarshalEvent l) eqn:E; cbn [negb fold_left].
  - rewrite line_subagent_dropped by exact E. apply IH.
  - apply IH.
Qed.

End NoBridge.

(** X2. When the manager has no bridge ([ccSubagentBridge] is nil), a stream
    never opens a sub-agent session and touches no manager but the one of the
    main conversation; the events of sub-agents are dropped, so the stream
    leaves what it leaves without them. *)
Theorem no_bridge_no_subagents :
  forall (cm : ptr)
         (unmarshalType : string -> option string)
         (unmarshalEvent : string -> option StreamEvent)
         (unmarshalTaskInput : string -> ccTaskInput)
         (unmarshalString : string -> option string)
         (unmarshalBlocks : string -> option (list Block))
         (utf8_runes : string -> list Z) (caseTable : Z -> Z)
         (rangeOrder : gmap string ccSubagentSession -> list string)
         (lines : list string) (scanErr : option string) (h : Heap) (hist : list Message),
    let run lines :=
      fst (processStream cm None unmarshalType unmarshalEvent unmarshalTaskInput
             unmarshalString unmarshalBlocks utf8_runes caseTable rangeOrder
             lines scanErr (enter h hist)) in
    subagentSessions (run lines) = ∅ /\
    (forall q, if Nat.eqb q cm then True else heap (run lines) q = h q) /\
    run lines =
    run (List.filter (fun l => negb (subagentLine unmarshalType unmarshalEvent l)) lines).
Proof.
  intros. subst run. cbv beta. unfold processStream. cbn [fst].
  destruct (scan_others cm unmarshalType unmarshalEvent unmarshalTaskInput unmarshalString
              unmarshalBlocks utf8_runes caseTable h lines (enter h hist))
    as [He Hh]; [reflexivity | reflexivity |].
  set (st := scan _ _ _ _ _ _ _ _ _ lines _) in *.
  assert (Hd : subagentSessions (deferred cm rangeOrder st) = ∅ /\
               forall q, q <> cm -> heap (deferred cm rangeOrder st) q = h q).
  { unfold deferred.
    destruct (flushAssistant_others cm st) as [S1 H1].
    destruct (flushUser_others cm (flushAssistant cm st)) as [S2 H2].
    rewrite closeAll_none.
    - split; [congruence|]. intros q Hq. rewrite H2, H1 by exact Hq. now apply Hh.
    - congruence. }
  destruct Hd as [Hd1 Hd2]. split; [exact Hd1|]. split.
  - intros q. destruct (Nat.eqb_spec q cm); [exact I | now apply Hd2].
  - unfold st. now rewrite scan_without_subagents.
Qed.


(** ** The shape of the history *)

Lemma lastIsUser_snoc (l : list Message) (m : Message) : lastIsUser (l ++ [m]) = isUser m.
Proof. unfold lastIsUser. now rewrite last_snoc. Qed.

Lemma noUserPairs_snoc (l : list Message) (m : Message) :
  noUserPairs (l ++ [m]) = noUserPairs l && negb (lastIsUser l && isUser m).
Proof.
  induction l as [|a l IH]; [reflexivity|].
  destruct l as [|b l].
  - cbn. now rewrite !andb_true_r.
  - change ((a :: b :: l) ++ [m]) with (a :: (b :: l) ++ [m]).
    change (noUserPairs (a :: (b :: l) ++ [m]))
      with (negb (isUser a && isUser b) && noUserPairs ((b :: l) ++ [m])).
    rewrite IH. change (noUserPairs (a :: b :: l))
      with (negb (isUser a && isUser b) && noUserPairs (b :: l)).
    replace (lastIsUser (a :: b :: l)) with (lastIsUser (b :: l)) by reflexivity.
    now rewrite andb_assoc.
Qed.

Lemma appendAssistantBlock_shape (unmarshalString : string -> option string)
    (unmarshalBlocks : string -> option (list Block)) (cs : list StreamContent) :
  forall m,
    isUser (fold_left appendAssistantBlock cs m) = isUser m /\
    (forallb (fun c => negb (isToolResult (c_Type c))) (Contents m) = true ->
     forallb (fun c => negb (isToolResult (c_Type c)))
       (Contents (fold_left appendAssistantBlock cs m)) = true).
Proof.
  induction cs as [|c cs IH]; intros m; [now split|].
  cbn [fold_left]. destruct (IH (appendAssistantBlock m c)) as [E1 E2].
  rewrite E1. unfold appendAssistantBlock in *.
  destruct (String.eqb (sc_Type c) "text"); [|destruct (String.eqb (sc_Type c) "thinking");
    [|destruct (String.eqb (sc_Type c) "tool_use")]];
    (split; [reflexivity|]); intros H; apply E2; cbn [appendContent Contents];
    try exact H; rewrite forallb_app, H; reflexivity.
Qed.

Lemma appendUserBlock_shape (unmarshalString : string -> option string)
    (unmarshalBlocks : string -> option (list Block)) (cs : list StreamContent) :
  forall m,
    let m' := fold_left (appendUserBlock unmarshalString unmarshalBlocks) cs m in
    isUser m' = isUser m /\ EndOfTurn m' = EndOfTurn m /\
    (forallb (fun c => isToolResult (c_Type c)) (Contents m) = true ->
     forallb (fun c => isToolResult (c_Type c)) (Contents m') = true).
Proof.
  induction cs as [|c cs IH]; intros m; [now repeat split|].
  cbn [fold_left]. cbv zeta in *.
  destruct (IH (appendUserBlock unmarshalString unmarshalBlocks m c)) as (E1 & E2 & E3).
  rewrite E1, E2. unfold appendUserBlock in *.
  destruct (String.eqb (sc_Type c) "tool_result");
    (split; [reflexivity|]); (split; [reflexivity|]); intros H; apply E3;
    cbn [appendContent Contents]; try exact H; rewrite forallb_app, H; reflexivity.
Qed.

Section Shape.

Variable cm : ptr.
Variable ccSubagentBridge :
  option (string -> string -> string -> Heap -> Heap * result ptr).
Variable unmarshalType : string -> option string.
Variable unmarshalEvent : string -> option StreamEvent.
Variable unmarshalTaskInput : string -> ccTaskInput.
Variable unmarshalString : string -> option string.
Variable unmarshalBlocks : string -> option (list Block).
Variable utf8_runes : string -> list Z.
Variable caseTable : Z -> Z.
Variable rangeOrder : gmap string ccSubagentSession -> list string.
Variable hist : list Message.

Local Abbreviation line := (processLine cm ccSubagentBridge unmarshalType unmarshalEvent
  unmarshalTaskInput unmarshalString unmarshalBlocks utf8_runes caseTable).
Local Abbreviation scanning := (scan cm ccSubagentBridge unmarshalType unmarshalEvent
  unmarshalTaskInput unmarshalString unmarshalBlocks utf8_runes caseTable).

Lemma shaped_ext (st st' : State) (new : list Message) :
  history st' = history st -> currentAssistantMsg st' = currentAssistantMsg st ->
  currentUserMsg st' = currentUserMsg st ->
  mainShaped hist st new /\ pendingShaped st new ->
  mainShaped hist st' new /\ pendingShaped st' new.
Proof.
  unfold mainShaped, pendingShaped. intros -> -> ->. tauto.
Qed.

Lemma shaped_sameMain (st st' : State) (new : list Message) :
  sameMain st st' ->
  mainShaped hist st new /\ pendingShaped st new ->
  mainShaped hist st' new /\ pendingShaped st' new.
Proof. intros (E1 & E2 & E3 & _). now apply shaped_ext. Qed.

(** [flushAssistant(); flushUser()]. *)
Lemma flushBoth_shaped (st : State) (new : list Message) :
  mainShaped hist st new /\ pendingShaped st new ->
  exists new',
    mainShaped hist (flushUser cm (flushAssistant cm st)) new' /\
    currentAssistantMsg (flushUser cm (flushAssistant cm st)) = None /\
    currentUserMsg (flushUser cm (flushAssistant cm st)) = None.
Proof.
  unfold mainShaped, pendingShaped, flushUser, flushAssistant.
  intros ((Hh & Hs & Hn) & Ha & Hu & Hl).
  destruct (currentAssistantMsg st) as [a|] eqn:Ea;
    cbn [currentUserMsg currentAssistantMsg history];
    destruct (currentUserMsg st) as [u|] eqn:Eu;
    cbn [currentUserMsg currentAssistantMsg history].
  - destruct Ha as [Ha1 Ha2], Hu as (Hu1 & Hu2 & Hu3).
    exists (new ++ [setEndOfTurn a] ++ [u]). rewrite Hh, <- !app_assoc.
    split; [|now split]. split; [reflexivity|]. split.
    + rewrite !forallb_app, Hs. cbn. unfold shaped, assistantShape, userShape, setEndOfTurn, isUser in *.
      cbn. rewrite Ha2, Hu3, Hu2. destruct (Role a); [discriminate|]. destruct (Role u); [|discriminate].
      cbn. now rewrite eqb_reflx.
    + rewrite app_assoc, !noUserPairs_snoc, Hn, !lastIsUser_snoc.
      unfold isUser in *. cbn. destruct (Role a); [discriminate|]. now rewrite andb_false_r.
  - destruct Ha as [Ha1 Ha2].
    exists (new ++ [setEndOfTurn a]). rewrite Hh.
    split; [|now split]. split; [now rewrite app_assoc|]. split.
    + rewrite !forallb_app, Hs. cbn. unfold shaped, assistantShape, setEndOfTurn, isUser in *.
      cbn. rewrite Ha2. destruct (Role a); [discriminate|]. cbn. now rewrite eqb_reflx.
    + rewrite noUserPairs_snoc, Hn. unfold isUser in *. cbn.
      destruct (Role a); [discriminate|]. now rewrite andb_false_r.
  - destruct Hu as (Hu1 & Hu2 & Hu3).
    exists (new ++ [u]). rewrite Hh.
    split; [|now split]. split; [now rewrite app_assoc|]. split.
    + rewrite !forallb_app, Hs. cbn. unfold shaped, userShape. rewrite Hu1, Hu2, Hu3.
      cbn. now rewrite orb_true_r.
    + rewrite noUserPairs_snoc, Hn, Hl. reflexivity.
  - exists new. now repeat split.
Qed.

Lemma topAssistant_shaped (ev : StreamEvent) (st : State) (new : list Message) :
  mainShaped hist st new /\ pendingShaped st new ->
  exists new',
    mainShaped hist (topAssistant cm ev st) new' /\
    pendingShaped (topAssistant cm ev st) new'.
Proof.
  intros H. unfold topAssistant. cbv zeta.
  destruct (negb (String.eqb (ev_MessageID ev) (currentMsgID st)) || isNil (currentAssistantMsg st))
    eqn:Ef.
  - destruct (flushBoth_shaped st new H) as (new' & Hm & Ea & Eu).
    exists new'. cbn [setAssistant currentAssistantMsg currentMsgID].
    split; [exact Hm|]. unfold pendingShaped. cbn. rewrite Eu.
    destruct (appendAssistantBlock_shape unmarshalString unmarshalBlocks (ev_Content ev)
                (newMessage MessageRoleAssistant)) as [E1 E2].
    rewrite E1. split; [split; [reflexivity | now apply E2] | now split].
  - exists new. destruct H as [Hm (Ha & Hu & Hl)].
    destruct (currentAssistantMsg st) as [a|] eqn:Ea;
      [|now rewrite orb_true_r in Ef].
    split; [exact Hm|]. unfold pendingShaped. cbn.
    destruct (appendAssistantBlock_shape unmarshalString unmarshalBlocks (ev_Content ev) a)
      as [E1 E2].
    rewrite E1. split; [split; [tauto | apply E2; tauto]|]. split; [exact Hu | exact I].
Qed.

Lemma topUser_shaped (ev : StreamEvent) (st : State) (new : list Message) :
  mainShaped hist st new /\ pendingShaped st new ->
  exists new',
    mainShaped hist (topUser cm unmarshalString unmarshalBlocks ev st) new' /\
    pendingShaped (topUser cm unmarshalString unmarshalBlocks ev st) new'.
Proof.
  unfold topUser, mainShaped, pendingShaped, flushAssistant. cbv zeta.
  intros ((Hh & Hs & Hn) & Ha & Hu & Hl).
  destruct (currentAssistantMsg st) as [a|] eqn:Ea; cbn.
  - destruct Ha as [Ha1 Ha2]. exists (new ++ [setEndOfTurn a]). rewrite Hh.
    split; [split; [now rewrite app_assoc|split]|].
    + rewrite !forallb_app, Hs. cbn. unfold shaped, assistantShape, setEndOfTurn, isUser in *.
      cbn. rewrite Ha2. destruct (Role a); [discriminate|]. cbn. now rewrite eqb_reflx.
    + rewrite noUserPairs_snoc, Hn. unfold isUser in *. cbn.
      destruct (Role a); [discriminate|]. now rewrite andb_false_r.
    + split; [exact I|]. rewrite lastIsUser_snoc.
      split; [|unfold isUser in *; cbn; now destruct (Role a)].
      destruct (currentUserMsg st) as [u|].
      * destruct (appendUserBlock_shape unmarshalString unmarshalBlocks (ev_Content ev) u)
          as (E1 & E2 & E3). cbv zeta in *. rewrite E1, E2. intuition.
      * destruct (appendUserBlock_shape unmarshalString unmarshalBlocks (ev_Content ev)
                    (newMessage MessageRoleUser)) as (E1 & E2 & E3).
        cbv zeta in *. rewrite E1, E2. intuition.
  - rewrite Ea. exists new. split; [now repeat split|]. split; [exact I|].
    destruct (currentUserMsg st) as [u|].
    + destruct (appendUserBlock_shape unmarshalString unmarshalBlocks (ev_Content ev) u)
        as (E1 & E2 & E3). cbv zeta in *. rewrite E1, E2. intuition.
    + destruct (appendUserBlock_shape unmarshalString unmarshalBlocks (ev_Content ev)
                  (newMessage MessageRoleUser)) as (E1 & E2 & E3).
      cbv zeta in *. rewrite E1, E2. subst new. intuition.
Qed.

Lemma trackTaskInputs_top (ev : StreamEvent) (st : State) :
  history (trackTaskInputs unmarshalTaskInput ev st) = history st /\
  currentAssistantMsg (trackTaskInputs unmarshalTaskInput ev st) = currentAssistantMsg st /\
  currentUserMsg (trackTaskInputs unmarshalTaskInput ev st) = currentUserMsg st.
Proof.
  unfold trackTaskInputs. generalize (ev_Content ev). intros cs. revert st.
  induction cs as [|c cs IH]; intros st; [now repeat split|].
  cbn [fold_left]. destruct (_ && _); [|apply IH].
  destruct (IH (setTaskInputs st (<[sc_ID c := unmarshalTaskInput (sc_Input c)]> (taskInputs st))))
    as (-> & -> & ->). now repeat split.
Qed.

Lemma line_shaped (st : State) (l : string) (new : list Message) :
  mainShaped hist st new /\ pendingShaped st new ->
  exists new', mainShaped hist (line st l) new' /\ pendingShaped (line st l) new'.
Proof.
  intros H.
  destruct (subagentLine unmarshalType unmarshalEvent l) eqn:Es.
  { exists new. eapply shaped_sameMain; [|exact H]. now apply subagentLine_main. }
  revert Es. unfold subagentLine. rewrite processLine_eventOf.
  destruct (eventOf unmarshalType unmarshalEvent l) as [[typ ev]|]; [|now exists new].
  cbv zeta. destruct (String.eqb (ev_ParentToolUseID ev) ""); [|discriminate].
  intros _. rewrite !andb_true_r. cbn [negb].
  match goal with
  | |- context [if String.eqb typ "assistant" then topAssistant _ _ ?s else _] =>
      assert (H2 : mainShaped hist s new /\ pendingShaped s new);
        [|generalize dependent s; intros st2 H2]
  end.
  { assert (H1 : mainShaped hist
                   (if String.eqb typ "assistant" then trackTaskInputs unmarshalTaskInput ev st
                    else st) new /\
                 pendingShaped
                   (if String.eqb typ "assistant" then trackTaskInputs unmarshalTaskInput ev st
                    else st) new).
    { destruct (String.eqb typ "assistant"); [|exact H].
      destruct (trackTaskInputs_top ev st) as (E1 & E2 & E3).
      now apply (shaped_ext st). }
    destruct (String.eqb typ "user" && negb (isNil (ev_ToolUseResult ev))); [|exact H1].
    eapply shaped_sameMain; [apply completeSubagents_main | exact H1]. }
  destruct (String.eqb typ "assistant");
    [now apply (topAssistant_shaped ev st2 new) | now apply (topUser_shaped ev st2 new)].
Qed.

Lemma scan_shaped (lines : list string) :
  forall st new,
    mainShaped hist st new /\ pendingShaped st new ->
    exists new', mainShaped hist (scanning lines st) new' /\
                 pendingShaped (scanning lines st) new'.
Proof.
  unfold scan. induction lines as [|l lines IH]; intros st new H; [now exists new|].
  cbn [fold_left]. destruct (line_shaped st l new H) as (new1 & H1). now apply (IH _ new1).
Qed.

Lemma deferred_shaped (st : State) (new : list Message) :
  mainShaped hist st new /\ pendingShaped st new ->
  exists new', mainShaped hist (deferred cm rangeOrder st) new'.
Proof.
  intros H. unfold deferred.
  destruct (flushBoth_shaped st new H) as (new' & Hm & _).
  exists new'. revert Hm. generalize (flushUser cm (flushAssistant cm st)). intros st1.
  generalize (rangeOrder (subagentSessions st1)). intros order. revert st1.
  induction order as [|key order IH]; intros st1 Hm; [exact Hm|].
  cbn [fold_left]. apply IH. destruct (closeSession_main key st1) as (E1 & _).
  unfold mainShaped in *. now rewrite E1.
Qed.

End Shape.

(** X4. The messages a stream adds to the history of the loop are well formed:
    each is an assistant message of text, thinking and tool-use blocks whose
    end-of-turn flag is set exactly when it has no tool-use block, or a user
    message of tool-result blocks only whose end-of-turn flag is not set; and
    no two user messages follow one another, the tool results that arrive
    between two assistant messages being gathered in one user message. *)
Theorem main_history_shape :
  forall (cm : ptr)
         (ccSubagentBridge : option (string -> string -> string -> Heap -> Heap * result ptr))
         (unmarshalType : string -> option string)
         (unmarshalEvent : string -> option StreamEvent)
         (unmarshalTaskInput : string -> ccTaskInput)
         (unmarshalString : string -> option string)
         (unmarshalBlocks : string -> option (list Block))
         (utf8_runes : string -> list Z) (caseTable : Z -> Z)
         (rangeOrder : gmap string ccSubagentSession -> list string)
         (lines : list string) (scanErr : option string) (h : Heap) (hist : list Message),
  exists new : list Message,
    history (fst (processStream cm ccSubagentBridge unmarshalType unmarshalEvent
                    unmarshalTaskInput unmarshalString unmarshalBlocks utf8_runes
                    caseTable rangeOrder lines scanErr (enter h hist))) = hist ++ new /\
    forallb shaped new = true /\
    noUserPairs new = true.
Proof.
  intros. unfold processStream. cbn [fst].
  destruct (scan_shaped cm ccSubagentBridge unmarshalType unmarshalEvent unmarshalTaskInput
              unmarshalString unmarshalBlocks utf8_runes caseTable hist lines
              (enter h hist) []) as (new1 & H1).
  { unfold mainShaped, pendingShaped. cbn. rewrite app_nil_r. now repeat split. }
  destruct (deferred_shaped cm rangeOrder hist _ new1 H1) as (new2 & H2).
  now exists new2.
Qed.


(** ** Partial messages *)

Section Merge.

Variable cm : ptr.
Variable ccSubagentBridge :
  option (string -> string -> string -> Heap -> Heap * result ptr).
Variable unmarshalType : string -> option string.
Variable unmarshalEvent : string -> option StreamEvent.
Variable unmarshalTaskInput : string -> ccTaskInput.
Variable unmarshalString : string -> option string.
Variable unmarshalBlocks : string -> option (list Block).
Variable utf8_runes : string -> list Z.
Variable caseTable : Z -> Z.

Local Abbreviation line := (processLine cm ccSubagentBridge unmarshalType unmarshalEvent
  unmarshalTaskInput unmarshalString unmarshalBlocks utf8_runes caseTable).

Lemma topAssistant_merge (ev1 ev2 : StreamEvent) (st : State) :
  ev_MessageID ev2 = ev_MessageID ev1 ->
  topAssistant cm ev2 (topAssistant cm ev1 st) = topAssistant cm (merged ev1 ev2) st.
Proof.
  intros Eid. unfold topAssistant, merged. cbv zeta.
  cbn [ev_MessageID ev_Content]. rewrite fold_left_app.
  destruct (negb (String.eqb (ev_MessageID ev1) (currentMsgID st)) || isNil (currentAssistantMsg st))
    eqn:Ef; cbn [setAssistant currentMsgID currentAssistantMsg isNil].
  - rewrite Eid, String.eqb_refl. reflexivity.
  - apply orb_false_elim in Ef as [Ef1 Ef2]. apply negb_false_iff in Ef1.
    apply String.eqb_eq in Ef1. rewrite Eid, Ef1, String.eqb_refl. reflexivity.
Qed.

Lemma topAssistant_setTaskInputs (ev : StreamEvent) (st : State)
    (ti : gmap string ccTaskInput) :
  setTaskInputs (topAssistant cm ev st) ti = topAssistant cm ev (setTaskInputs st ti) /\
  taskInputs (topAssistant cm ev st) = taskInputs st.
Proof.
  unfold topAssistant, flushUser, flushAssistant. cbv zeta.
  cbn [setTaskInputs currentMsgID currentAssistantMsg].
  destruct (negb (String.eqb (ev_MessageID ev) (currentMsgID st)) || isNil (currentAssistantMsg st));
    [|now split].
  destruct (currentAssistantMsg st); cbn; destruct (currentUserMsg st); now split.
Qed.

Lemma trackTaskInputs_topAssistant (ev' ev : StreamEvent) (st : State) :
  trackTaskInputs unmarshalTaskInput ev' (topAssistant cm ev st) =
  topAssistant cm ev (trackTaskInputs unmarshalTaskInput ev' st).
Proof.
  unfold trackTaskInputs. generalize (ev_Content ev'). intros cs. revert st.
  induction cs as [|c cs IH]; intros st; [reflexivity|].
  cbn [fold_left]. destruct (_ && _); [|apply IH].
  destruct (topAssistant_setTaskInputs ev st
              (<[sc_ID c := unmarshalTaskInput (sc_Input c)]> (taskInputs st))) as [E1 E2].
  rewrite E2, E1. apply IH.
Qed.

Lemma line_topAssistant (st : State) (l : string) (ev : StreamEvent) :
  eventOf unmarshalType unmarshalEvent l = Some ("assistant"%string, ev) ->
  ev_ParentToolUseID ev = ""%string ->
  line st l = topAssistant cm ev (trackTaskInputs unmarshalTaskInput ev st).
Proof.
  intros E Ep. rewrite processLine_eventOf, E. cbv zeta. rewrite Ep. reflexivity.
Qed.

End Merge.

(** X5. With partial messages the command sends one assistant message in several
    events that carry the same message ID. Two such events of the main
    conversation, one after the other, leave the loop as the one event does
    that carries the blocks of both, in order. *)
Theorem partial_assistant_events_merge :
  forall (cm : ptr)
         (ccSubagentBridge : option (string -> string -> string -> Heap -> Heap * result ptr))
         (unmarshalType : string -> option string)
         (unmarshalEvent : string -> option StreamEvent)
         (unmarshalTaskInput : string -> ccTaskInput)
         (unmarshalString : string -> option string)
         (unmarshalBlocks : string -> option (list Block))
         (utf8_runes : string -> list Z) (caseTable : Z -> Z)
         (st : State) (l1 l2 l12 : string) (ev1 ev2 : StreamEvent),
    eventOf unmarshalType unmarshalEvent l1 = Some ("assistant"%string, ev1) ->
    eventOf unmarshalType unmarshalEvent l2 = Some ("assistant"%string, ev2) ->
    eventOf unmarshalType unmarshalEvent l12 = Some ("assistant"%string, merged ev1 ev2) ->
    ev_ParentToolUseID ev1 = ""%string ->
    ev_ParentToolUseID ev2 = ""%string ->
    ev_MessageID ev2 = ev_MessageID ev1 ->
    processLine cm ccSubagentBridge unmarshalType unmarshalEvent unmarshalTaskInput
      unmarshalString unmarshalBlocks utf8_runes caseTable
      (processLine cm ccSubagentBridge unmarshalType unmarshalEvent unmarshalTaskInput
         unmarshalString unmarshalBlocks utf8_runes caseTable st l1) l2 =
    processLine cm ccSubagentBridge unmarshalType unmarshalEvent unmarshalTaskInput
      unmarshalString unmarshalBlocks utf8_runes caseTable st l12.
Proof.
  intros cm bridge uT uE uTI uS uB runes ct st l1 l2 l12 ev1 ev2 E1 E2 E12 P1 P2 Eid.
  rewrite (line_topAssistant cm bridge uT uE uTI uS uB runes ct _ l2 ev2 E2 P2).
  rewrite (line_topAssistant cm bridge uT uE uTI uS uB runes ct _ l1 ev1 E1 P1).
  rewrite (line_topAssistant cm bridge uT uE uTI uS uB runes ct _ l12 _ E12 P1).
  rewrite trackTaskInputs_topAssistant, topAssistant_merge by exact Eid.
  f_equal. unfold trackTaskInputs, merged. cbn [ev_Content]. now rewrite fold_left_app.
Qed.

Lemma partial_assistant_events_merge_witness :
  processLine 0%nat toyBridge mergedType mergedEvent toyTaskInput toyUnmarshalString
    toyUnmarshalBlocks Slug.runes (fun r => r)
    (processLine 0%nat toyBridge mergedType mergedEvent toyTaskInput toyUnmarshalString
       toyUnmarshalBlocks Slug.runes (fun r => r) (enter idleHeap []) "main-1") "main-2" =
  processLine 0%nat toyBridge mergedType mergedEvent toyTaskInput toyUnmarshalString
    toyUnmarshalBlocks Slug.runes (fun r => r) (enter idleHeap []) "main-1+2".
Proof.
  eapply (partial_assistant_events_merge 0%nat toyBridge mergedType mergedEvent toyTaskInput
            toyUnmarshalString toyUnmarshalBlocks Slug.runes (fun r => r)
            (enter idleHeap []) "main-1" "main-2" "main-1+2");
    reflexivity.
Defined.

(** ** The slug of a sub-agent conversation *)

Lemma runesToString_length (rs : list Z) : String.length (runesToString rs) = length rs.
Proof.
  unfold runesToString. induction rs as [|r rs IH]; [reflexivity|].
  cbn [map string_of_list_ascii String.length length]. now rewrite IH.
Qed.

Lemma substring_length_le (m : nat) :
  forall (n : nat) (s : string), (String.length (String.substring n m s) <= m)%nat.
Proof.
  induction m as [|m IH]; intros n s.
  - induction n as [|n IHn] in s |- *; destruct s; cbn; try lia. apply IHn.
  - induction n as [|n IHn] in s |- *; destruct s as [|c s]; cbn; try lia.
    + specialize (IH 0%nat s). lia.
    + apply IHn.
Qed.

Lemma ccDescriptionToSlug_length (utf8_runes : string -> list Z) (caseTable : Z -> Z)
    (description : string) :
  (String.length (ccDescriptionToSlug utf8_runes caseTable description) <= 40)%nat.
Proof.
  unfold ccDescriptionToSlug. rewrite runesToString_length.
  unfold Slug.ccDescriptionToSlug, Slug.truncate40.
  destruct (40 <? _) eqn:E.
  - rewrite length_firstn. lia.
  - apply Z.ltb_ge in E. apply Nat2Z.inj_le. exact E.
Qed.

(** X6. The first event of a sub-agent whose Task was seen opens its session: the
    bridge is called once, with a slug that is not empty and has at most 40
    bytes -- the slug of the Task's description or, when that is empty, the
    first 12 bytes of the tool-use ID -- and with the ID and the working
    directory of the main conversation. When the bridge fails no session is
    kept; when it succeeds the new manager is put to work and the session
    stored under the tool-use ID. *)
Theorem bridge_slug_bounds :
  forall (cm : ptr) (bridge : string -> string -> string -> Heap -> Heap * result ptr)
         (utf8_runes : string -> list Z) (caseTable : Z -> Z)
         (parentToolUseID : string) (st : State) (input : ccTaskInput),
    parentToolUseID <> ""%string ->
    taskInputs st !! parentToolUseID = Some input ->
    subagentSessions st !! parentToolUseID = None ->
    exists slug : string,
      slug <> ""%string /\ (String.length slug <= 40)%nat /\
      (slug = ccDescriptionToSlug utf8_runes caseTable (Description input) \/
       ccDescriptionToSlug utf8_runes caseTable (Description input) = ""%string /\
       slug = String.substring 0 12 parentToolUseID) /\
      getOrCreateSubagentSession cm (Some bridge) utf8_runes caseTable parentToolUseID st =
      match bridge slug (conversationID (heap st cm)) (cwd (heap st cm)) (heap st) with
      | (h, Err _) => (setHeap st h, None)
      | (h, Ok subManager) =>
          (setSessions (setHeap st (SetAgentWorking subManager true h))
             (<[parentToolUseID := {| manager := subManager; lastMsgID := "";
                                      pendingAssistant := None; pendingUser := None |}]>
                (subagentSessions st)),
           Some parentToolUseID)
      end.
Proof.
  intros cm bridge runes ct key st input Hne Hin Hno.
  unfold getOrCreateSubagentSession. rewrite Hno, Hin.
  pose proof (ccDescriptionToSlug_length runes ct (Description input)) as Hlen.
  destruct (String.eqb_spec (ccDescriptionToSlug runes ct (Description input)) "") as [Ee|Ee].
  - destruct (12 <? String.length key)%nat eqn:El.
    + exists (String.substring 0 12 key). split; [|split; [|split; [|reflexivity]]].
      * destruct key as [|c key]; [discriminate El | discriminate].
      * pose proof (substring_length_le 12 0 key). lia.
      * right. now split.
    + exists key. split; [exact Hne|]. split; [|split; [|reflexivity]].
      * apply Nat.ltb_ge in El. lia.
      * right. split; [exact Ee|].
        apply Nat.ltb_ge in El. clear -El.
        do 13 (destruct key as [|? key]; [reflexivity|]). cbn in El. lia.
  - exists (ccDescriptionToSlug runes ct (Description input)).
    split; [exact Ee|]. split; [exact Hlen|]. split; [now left | reflexivity].
Qed.

Lemma bridge_slug_bounds_witness :
  exists slug : string,
    slug <> ""%string /\ (String.length slug <= 40)%nat /\
    (slug = ccDescriptionToSlug Slug.runes (fun r => r) (Description (toyTaskInput "")) \/
     ccDescriptionToSlug Slug.runes (fun r => r) (Description (toyTaskInput "")) = ""%string /\
     slug = String.substring 0 12 "toolu_01") /\
    getOrCreateSubagentSession 0%nat toyBridge Slug.runes (fun r => r) "toolu_01" taskSeen =
    match (fun slug parentID dir h =>
             (store h 1%nat {| conversationID := slug; cwd := dir; agentWorking := false;
                               recordSet := true; recorded := [] |}, Ok 1%nat))
            slug (conversationID (heap taskSeen 0%nat)) (cwd (heap taskSeen 0%nat))
            (heap taskSeen) with
    | (h, Err _) => (setHeap taskSeen h, None)
    | (h, Ok subManager) =>
        (setSessions (setHeap taskSeen (SetAgentWorking subManager true h))
           (<["toolu_01"%string := {| manager := subManager; lastMsgID := "";
                                      pendingAssistant := None; pendingUser := None |}]>
              (subagentSessions taskSeen)),
         Some "toolu_01"%string)
    end.
Proof.
  apply (bridge_slug_bounds 0%nat
           (fun slug parentID dir h =>
              (store h 1%nat {| conversationID := slug; cwd := dir; agentWorking := false;
                                recordSet := true; recorded := [] |}, Ok 1%nat))
           Slug.runes (fun r => r) "toolu_01" taskSeen (toyTaskInput "")).
  - discriminate.
  - reflexivity.
  - reflexivity.
Defined.

(** ** The outcome of a turn *)

(** X7. [processMessage] leaves the main conversation idle whatever happens.
    When the pipe or the start of the command fails it returns that error (the
    latter behind "start claude: "), and the history and every manager's
    record are untouched. When the command runs it returns what [cmd.Wait]
    returns: an error of the scanner is logged and not returned. *)
Theorem processMessage_outcome :
  forall (cm : ptr)
         (ccSubagentBridge : option (string -> string -> string -> Heap -> Heap * result ptr))
         (unmarshalType : string -> option string)
         (unmarshalEvent : string -> option StreamEvent)
         (unmarshalTaskInput : string -> ccTaskInput)
         (unmarshalString : string -> option string)
         (unmarshalBlocks : string -> option (list Block))
         (utf8_runes : string -> list Z) (caseTable : Z -> Z)
         (rangeOrder : gmap string ccSubagentSession -> list string)
         (claude : list string -> string -> Run) (mcpFile : string -> string)
         (msg : Message) (h : Heap) (hist : list Message),
    let '(h', hist', args, err) :=
      processMessage cm ccSubagentBridge unmarshalType unmarshalEvent unmarshalTaskInput
        unmarshalString unmarshalBlocks utf8_runes caseTable rangeOrder claude mcpFile
        msg h hist in
    agentWorking (h' cm) = false /\
    match claude args (cwd (h cm)) with
    | PipeFails e =>
        err = Some e /\ hist' = hist /\ forall q, recorded (h' q) = recorded (h q)
    | StartFails e =>
        err = Some ("start claude: " +:+ e)%string /\ hist' = hist /\
        forall q, recorded (h' q) = recorded (h q)
    | Runs lines scanErr waitErr => err = waitErr
    end.
Proof.
  intros. unfold processMessage. cbv zeta.
  assert (Hw : forall (p : ptr) (b : bool) (g : Heap) (q : ptr),
             recorded (SetAgentWorking p b g q) = recorded (g q)).
  { intros p b g q. unfold SetAgentWorking, store.
    destruct (Nat.eqb_spec q p) as [-> | _]; reflexivity. }
  assert (Hc : cwd (SetAgentWorking cm true h cm) = cwd (h cm)).
  { unfold SetAgentWorking, store. now rewrite Nat.eqb_refl. }
  rewrite Hc.
  destruct (claude _ (cwd (h cm))) as [e|e|lines scanErr waitErr] eqn:E.
  - rewrite E. split; [unfold SetAgentWorking, store; now rewrite Nat.eqb_refl|].
    split; [reflexivity|]. split; [reflexivity|]. intros q. now rewrite !Hw.
  - rewrite E. split; [unfold SetAgentWorking, store; now rewrite Nat.eqb_refl|].
    split; [reflexivity|]. split; [reflexivity|]. intros q. now rewrite !Hw.
  - rewrite E. split; [unfold SetAgentWorking, store; now rewrite Nat.eqb_refl|].
    reflexivity.
Qed.


(** ** The end of a sub-agent *)

Lemma flushed_idle (sa : ccSubagentSession) :
  pendingAssistant sa = None -> pendingUser sa = None -> flushed sa = sa.
Proof. destruct sa as [m i a u]. cbn. now intros -> ->. Qed.

(** Sessions with nothing pending stay as they are when sessions are closed. *)
Lemma closeAll_idle (keys : list string) :
  forall (st : State) (key : string) (sa : ccSubagentSession),
    subagentSessions st !! key = Some sa ->
    pendingAssistant sa = None -> pendingUser sa = None ->
    subagentSessions (closeAll keys st) !! key = Some sa /\
    grows (heap st) (heap (closeAll keys st)).
Proof.
  induction keys as [|k keys IH]; intros st key sa Hsa Ha Hu.
  - split; [exact Hsa | apply grows_refl].
  - change (closeAll (k :: keys) st) with (closeAll keys (closeSession k st)).
    destruct (subagentSessions st !! k) as [sk|] eqn:Ek.
    + destruct (closeSession_spec k st sk Ek) as (Ess & _).
      destruct (closeSession_facts k st sk Ek) as (G0 & _).
      assert (Hsa' : subagentSessions (closeSession k st) !! key = Some sa).
      { rewrite Ess. destruct (decide (k = key)) as [-> | Hne].
        - rewrite lookup_insert_eq. rewrite Ek in Hsa. injection Hsa as ->.
          now rewrite flushed_idle.
        - now rewrite lookup_insert_ne. }
      destruct (IH _ key sa Hsa' Ha Hu) as [I1 I2].
      split; [exact I1 | eapply grows_trans; eassumption].
    + rewrite (closeSession_absent k st Ek). now apply IH.
Qed.

Lemma closeAll_closes (keys : list string) :
  forall (st : State) (key : string) (sa : ccSubagentSession),
    In key keys -> subagentSessions st !! key = Some sa ->
    subagentSessions (closeAll keys st) !! key = Some (flushed sa) /\
    agentWorking (heap (closeAll keys st) (manager sa)) = false /\
    (forall m, pendingAssistant sa = Some m -> recordSet (heap st (manager sa)) = true ->
               In (setEndOfTurn m) (recorded (heap (closeAll keys st) (manager sa)))) /\
    (forall m, pendingUser sa = Some m -> recordSet (heap st (manager sa)) = true ->
               In m (recorded (heap (closeAll keys st) (manager sa)))).
Proof.
  induction keys as [|k keys IH]; intros st key sa Hin Hsa; [contradiction|].
  change (closeAll (k :: keys) st) with (closeAll keys (closeSession k st)).
  destruct (String.eqb_spec k key) as [-> | Hne].
  - destruct (closeSession_spec key st sa Hsa) as (Ess & _).
    destruct (closeSession_facts key st sa Hsa) as (G0 & W0 & A0 & U0).
    assert (Hsa' : subagentSessions (closeSession key st) !! key = Some (flushed sa)).
    { rewrite Ess. apply lookup_insert_eq. }
    destruct (closeAll_idle keys _ key (flushed sa) Hsa' eq_refl eq_refl) as [I1 G].
    split; [exact I1|]. split.
    { destruct (G (manager sa)) as (_ & _ & Wk).
      destruct (agentWorking (heap (closeAll keys (closeSession key st)) (manager sa)));
        [|reflexivity].
      rewrite <- W0. symmetry. now apply Wk. }
    split; intros m Hm Hr; destruct (G (manager sa)) as ([more ->] & _ & _);
      apply in_or_app; left; [now apply A0 | now apply U0].
  - destruct Hin as [-> | Hin]; [contradiction|].
    destruct (subagentSessions st !! k) as [sk|] eqn:Ek.
    + destruct (closeSession_spec k st sk Ek) as (Ess & _).
      destruct (closeSession_facts k st sk Ek) as (G0 & _).
      assert (Hsa' : subagentSessions (closeSession k st) !! key = Some sa).
      { rewrite Ess. now rewrite lookup_insert_ne. }
      destruct (IH _ key sa Hin Hsa') as (I1 & I2 & I3 & I4).
      split; [exact I1|]. split; [exact I2|].
      destruct (G0 (manager sa)) as (_ & Er & _).
      split; intros m Hm Hr; [apply I3 | apply I4]; congruence.
    + rewrite (closeSession_absent k st Ek). now apply IH.
Qed.

Lemma completeSubagents_closeAll (ev : StreamEvent) (st : State) :
  completeSubagents ev st = closeAll (completedKeys ev) st.
Proof.
  unfold completeSubagents, completedKeys, closeAll.
  generalize (ev_Content ev). intros cs. revert st.
  induction cs as [|c cs IH]; intros st; [reflexivity|].
  cbn [fold_left List.filter]. destruct (String.eqb (sc_Type c) "tool_result"); apply IH.
Qed.

(** X8. When the stream reports the result of a Task -- a user event of the main
    conversation that carries [tool_use_result] -- the session of every
    tool-use ID among its tool-result blocks is closed by that very line: the
    session has nothing pending any more, what it had pending has been handed
    to [recordMessage] of its manager (when it has one), the assistant
    message with its end-of-turn flag set, and the manager is idle. *)
Theorem task_result_closes_session :
  forall (cm : ptr)
         (ccSubagentBridge : option (string -> string -> string -> Heap -> Heap * result ptr))
         (unmarshalType : string -> option string)
         (unmarshalEvent : string -> option StreamEvent)
         (unmarshalTaskInput : string -> ccTaskInput)
         (unmarshalString : string -> option string)
         (unmarshalBlocks : string -> option (list Block))
         (utf8_runes : string -> list Z) (caseTable : Z -> Z)
         (st : State) (l : string) (ev : StreamEvent) (key : string)
         (sa : ccSubagentSession),
    eventOf unmarshalType unmarshalEvent l = Some ("user"%string, ev) ->
    ev_ParentToolUseID ev = ""%string ->
    isNil (ev_ToolUseResult ev) = false ->
    In key (completedKeys ev) ->
    subagentSessions st !! key = Some sa ->
    let st' := processLine cm ccSubagentBridge unmarshalType unmarshalEvent
                 unmarshalTaskInput unmarshalString unmarshalBlocks utf8_runes caseTable
                 st l in
    subagentSessions st' !! key = Some (flushed sa) /\
    agentWorking (heap st' (manager sa)) = false /\
    (forall m, pendingAssistant sa = Some m -> recordSet (heap st (manager sa)) = true ->
               In (setEndOfTurn m) (recorded (heap st' (manager sa)))) /\
    (forall m, pendingUser sa = Some m -> recordSet (heap st (manager sa)) = true ->
               In m (recorded (heap st' (manager sa)))).
Proof.
  intros cm bridge uT uE uTI uS uB runes ct st l ev key sa E Ep Er Hin Hsa. cbv zeta.
  rewrite processLine_eventOf, E. cbv zeta. rewrite Ep, Er. cbn [String.eqb Ascii.eqb Bool.eqb andb negb].
  rewrite completeSubagents_closeAll.
  destruct (closeAll_closes (completedKeys ev) st key sa Hin Hsa) as (I1 & I2 & I3 & I4).
  set (st1 := closeAll (completedKeys ev) st) in *.
  unfold topUser. cbv zeta. cbn [setUser subagentSessions heap].
  assert (G : grows (heap st1) (heap (flushAssistant cm st1)) /\
              subagentSessions (flushAssistant cm st1) = subagentSessions st1).
  { unfold flushAssistant. destruct (currentAssistantMsg st1); cbn;
      [split; [apply record_grows | reflexivity] | split; [apply grows_refl | reflexivity]]. }
  destruct G as [G Es]. rewrite Es. split; [exact I1|].
  destruct (G (manager sa)) as ([more Em] & _ & Wk). split.
  { destruct (agentWorking (heap (flushAssistant cm st1) (manager sa))); [|reflexivity].
    rewrite <- I2. symmetry. now apply Wk. }
  split; intros m Hm Hr; rewrite Em; apply in_or_app; left; [now apply I3 | now apply I4].
Qed.

Lemma task_result_closes_session_witness :
  let st' := processLine 0%nat toyBridge toyType toyEvent toyTaskInput toyUnmarshalString
               toyUnmarshalBlocks Slug.runes (fun r => r) subagentRunning "main-3" in
  exists sa,
    subagentSessions subagentRunning !! "toolu_01"%string = Some sa /\
    isNil (pendingUser sa) = false /\
    subagentSessions st' !! "toolu_01"%string = Some (flushed sa) /\
    agentWorking (heap st' (manager sa)) = false /\
    (forall m, pendingUser sa = Some m -> recordSet (heap subagentRunning (manager sa)) = true ->
               In m (recorded (heap st' (manager sa)))).
Proof.
  cbv zeta.
  destruct (subagentSessions subagentRunning !! "toolu_01"%string) as [sa|] eqn:Hsa;
    [|vm_compute in Hsa; discriminate Hsa].
  exists sa. split; [reflexivity|].
  assert (Hp : isNil (pendingUser sa) = false).
  { vm_compute in Hsa. injection Hsa as <-. reflexivity. }
  split; [exact Hp|].
  destruct (toyEvent "main-3") as [ev|] eqn:Eev; [|vm_compute in Eev; discriminate Eev].
  destruct (task_result_closes_session 0%nat toyBridge toyType toyEvent toyTaskInput
              toyUnmarshalString toyUnmarshalBlocks Slug.runes (fun r => r)
              subagentRunning "main-3" ev "toolu_01" sa) as (I1 & I2 & _ & I4).
  - unfold eventOf. rewrite Eev. reflexivity.
  - vm_compute in Eev. injection Eev as <-. reflexivity.
  - vm_compute in Eev. injection Eev as <-. reflexivity.
  - vm_compute in Eev. injection Eev as <-. left. reflexivity.
  - exact Hsa.
  - split; [exact I1|]. split; [exact I2 | exact I4].
Defined.


(** ** The history and the record of the main conversation *)

Section Recorded.

Variable cm : ptr.
Variable ccSubagentBridge :
  option (string -> string -> string -> Heap -> Heap * result ptr).
Variable unmarshalType : string -> option string.
Variable unmarshalEvent : string -> option StreamEvent.
Variable unmarshalTaskInput : string -> ccTaskInput.
Variable unmarshalString : string -> option string.
Variable unmarshalBlocks : string -> option (list Block).
Variable utf8_runes : string -> list Z.
Variable caseTable : Z -> Z.
Variable rangeOrder : gmap string ccSubagentSession -> list string.
Variable h : Heap.
Variable hist : list Message.

Hypothesis apart : bridgeApart cm ccSubagentBridge.

Local Abbreviation line := (processLine cm ccSubagentBridge unmarshalType unmarshalEvent
  unmarshalTaskInput unmarshalString unmarshalBlocks utf8_runes caseTable).
Local Abbreviation scanning := (scan cm ccSubagentBridge unmarshalType unmarshalEvent
  unmarshalTaskInput unmarshalString unmarshalBlocks utf8_runes caseTable).

(** The main manager holds what the history holds, and no session uses it. *)
Local Abbreviation inStep st new :=
  (history st = hist ++ new /\
   recorded (heap st cm) = recorded (h cm) ++ handed h cm new /\
   recordSet (heap st cm) = recordSet (h cm) /\
   forall key sa, subagentSessions st !! key = Some sa -> manager sa <> cm).

Lemma SetAgentWorking_other (p q : ptr) (b : bool) (g : Heap) :
  q <> p -> SetAgentWorking p b g q = g q.
Proof.
  intros Hne. unfold SetAgentWorking, store.
  destruct (Nat.eqb_spec q p); [contradiction | reflexivity].
Qed.

Lemma inStep_ext (st st' : State) (new : list Message) :
  history st' = history st -> heap st' cm = heap st cm ->
  (forall key sa', subagentSessions st' !! key = Some sa' ->
     exists sa, subagentSessions st !! key = Some sa /\ manager sa' = manager sa) ->
  inStep st new -> inStep st' new.
Proof.
  intros Eh Ec Hs (H1 & H2 & H3 & H4). rewrite Eh, Ec.
  repeat split; try assumption.
  intros key sa' Hk. destruct (Hs key sa' Hk) as (sa & Hsa & ->). now apply H4 with key.
Qed.

Lemma flushAssistant_inStep (st : State) (new : list Message) :
  inStep st new ->
  exists new', inStep (flushAssistant cm st) new' /\
               currentUserMsg (flushAssistant cm st) = currentUserMsg st.
Proof.
  intros (H1 & H2 & H3 & H4). unfold flushAssistant.
  destruct (currentAssistantMsg st) as [m|]; [|exists new; now repeat split].
  exists (new ++ [setEndOfTurn m]). cbn. split; [|reflexivity].
  rewrite H1, app_assoc. split; [reflexivity|].
  unfold record, store, handed in *. rewrite H3.
  destruct (recordSet (h cm)) eqn:Er.
  - rewrite Nat.eqb_refl. cbn. rewrite H2, app_assoc. now repeat split.
  - rewrite H2, H3. now repeat split.
Qed.

Lemma flushUser_inStep (st : State) (new : list Message) :
  inStep st new -> exists new', inStep (flushUser cm st) new'.
Proof.
  intros (H1 & H2 & H3 & H4). unfold flushUser.
  destruct (currentUserMsg st) as [m|]; [|exists new; now repeat split].
  exists (new ++ [m]). cbn.
  rewrite H1, app_assoc. split; [reflexivity|].
  unfold record, store, handed in *. rewrite H3.
  destruct (recordSet (h cm)) eqn:Er.
  - rewrite Nat.eqb_refl. cbn. rewrite H2, app_assoc. now repeat split.
  - rewrite H2, H3. now repeat split.
Qed.

Lemma flushSubagentAssistant_inStep (key : string) (st : State) (new : list Message) :
  inStep st new -> inStep (flushSubagentAssistant key st) new.
Proof.
  intros H. pose proof H as (_ & _ & _ & H4). revert H. unfold flushSubagentAssistant.
  destruct (subagentSessions st !! key) as [sa|] eqn:E; [|easy].
  destruct (pendingAssistant sa); [|easy].
  apply inStep_ext; cbn; [reflexivity | |].
  - apply record_other. intros Hc. now apply (H4 key sa E).
  - intros k sa' Hk. destruct (decide (key = k)) as [<- | Hne].
    + rewrite lookup_insert_eq in Hk. injection Hk as <-. now exists sa.
    + rewrite lookup_insert_ne in Hk by exact Hne. now exists sa'.
Qed.

Lemma flushSubagentUser_inStep (key : string) (st : State) (new : list Message) :
  inStep st new -> inStep (flushSubagentUser key st) new.
Proof.
  intros H. pose proof H as (_ & _ & _ & H4). revert H. unfold flushSubagentUser.
  destruct (subagentSessions st !! key) as [sa|] eqn:E; [|easy].
  destruct (pendingUser sa); [|easy].
  apply inStep_ext; cbn; [reflexivity | |].
  - apply record_other. intros Hc. now apply (H4 key sa E).
  - intros k sa' Hk. destruct (decide (key = k)) as [<- | Hne].
    + rewrite lookup_insert_eq in Hk. injection Hk as <-. now exists sa.
    + rewrite lookup_insert_ne in Hk by exact Hne. now exists sa'.
Qed.

Lemma closeSession_inStep (key : string) (st : State) (new : list Message) :
  inStep st new -> inStep (closeSession key st) new.
Proof.
  intros H. pose proof H as (_ & _ & _ & H4). unfold closeSession.
  destruct (subagentSessions st !! key) as [sa|] eqn:E; [|exact H].
  apply flushSubagentAssistant_inStep with (key := key) in H.
  apply flushSubagentUser_inStep with (key := key) in H.
  revert H. apply inStep_ext; cbn; [reflexivity | |].
  - apply SetAgentWorking_other. intros Hc. now apply (H4 key sa E).
  - intros k sa' Hk. now exists sa'.
Qed.

Lemma closeAll_inStep (keys : list string) :
  forall st new, inStep st new -> inStep (closeAll keys st) new.
Proof.
  induction keys as [|k keys IH]; intros st new H; [exact H|].
  change (closeAll (k :: keys) st) with (closeAll keys (closeSession k st)).
  now apply IH, closeSession_inStep.
Qed.

Lemma trackTaskInputs_inStep (ev : StreamEvent) (st : State) (new : list Message) :
  inStep st new -> inStep (trackTaskInputs unmarshalTaskInput ev st) new.
Proof.
  unfold trackTaskInputs. generalize (ev_Content ev). intros cs. revert st.
  induction cs as [|c cs IH]; intros st H; [exact H|].
  cbn [fold_left]. destruct (_ && _); [|now apply IH].
  apply IH. revert H. apply inStep_ext; cbn; try reflexivity.
  intros k sa' Hk. now exists sa'.
Qed.

Lemma getOrCreate_inStep (key : string) (st : State) (new : list Message) :
  inStep st new ->
  inStep (fst (getOrCreateSubagentSession cm ccSubagentBridge utf8_runes caseTable key st)) new.
Proof.
  intros H. pose proof H as (H1 & H2 & H3 & H4). unfold getOrCreateSubagentSession.
  destruct ccSubagentBridge as [bridge|] eqn:Eb; [|exact H].
  destruct (subagentSessions st !! key) eqn:Ek; [exact H|].
  destruct (taskInputs st !! key) as [input|]; [|exact H].
  match goal with
  | |- context [bridge ?slug ?pid ?dir (heap st)] =>
      destruct (apart bridge slug pid dir (heap st) eq_refl) as [Hc Hn];
      destruct (bridge slug pid dir (heap st)) as [g [subManager|err]]
  end; cbn [fst snd] in *.
  - assert (Hne : subManager <> cm) by (intros ->; now apply Hn).
    cbn. rewrite SetAgentWorking_other by (intros Hc'; now apply Hne).
    rewrite Hc. repeat split; try assumption.
    intros k sa Hk. destruct (decide (key = k)) as [<- | Hd].
    + rewrite lookup_insert_eq in Hk. injection Hk as <-. exact Hne.
    + rewrite lookup_insert_ne in Hk by exact Hd. now apply H4 with k.
  - cbn. rewrite Hc. now repeat split.
Qed.

Lemma subagentAssistant_inStep (key : string) (ev : StreamEvent) (st : State)
    (new : list Message) :
  inStep st new -> inStep (subagentAssistant key ev st) new.
Proof.
  intros H. unfold subagentAssistant.
  destruct (subagentSessions st !! key) as [sa|] eqn:E; [|exact H]. cbv zeta.
  assert (Hset : forall (s : State) (sa1 sa2 : ccSubagentSession),
             subagentSessions s !! key = Some sa1 -> manager sa2 = manager sa1 ->
             inStep s new -> inStep (setSessions s (<[key := sa2]> (subagentSessions s))) new).
  { intros s sa1 sa2 Hs Em. apply inStep_ext; cbn; try reflexivity.
    intros k sa' Hk. destruct (decide (key = k)) as [<- | Hd].
    - rewrite lookup_insert_eq in Hk. injection Hk as <-. now exists sa1.
    - rewrite lookup_insert_ne in Hk by exact Hd. now exists sa'. }
  destruct (negb (String.eqb (ev_MessageID ev) (lastMsgID sa)) || isNil (pendingAssistant sa)).
  - apply flushSubagentAssistant_inStep with (key := key) in H.
    apply flushSubagentUser_inStep with (key := key) in H.
    destruct (subagentSessions (flushSubagentUser key (flushSubagentAssistant key st)) !! key)
      as [sa1|] eqn:E1; [|exact H].
    now apply (Hset _ sa1).
  - rewrite E. now apply (Hset _ sa).
Qed.

Lemma subagentUser_inStep (key : string) (ev : StreamEvent) (st : State)
    (new : list Message) :
  inStep st new -> inStep (subagentUser unmarshalString unmarshalBlocks key ev st) new.
Proof.
  intros H. unfold subagentUser.
  apply flushSubagentAssistant_inStep with (key := key) in H.
  destruct (subagentSessions (flushSubagentAssistant key st) !! key) as [sa1|] eqn:E1;
    [|exact H].
  revert H. apply inStep_ext; cbn; try reflexivity.
  intros k sa' Hk. destruct (decide (key = k)) as [<- | Hd].
  - rewrite lookup_insert_eq in Hk. injection Hk as <-. now exists sa1.
  - rewrite lookup_insert_ne in Hk by exact Hd. now exists sa'.
Qed.

Lemma setPending_inStep (st st' : State) (new : list Message) :
  history st' = history st -> heap st' = heap st ->
  subagentSessions st' = subagentSessions st ->
  inStep st new -> inStep st' new.
Proof.
  intros Eh Ec Es. apply inStep_ext; [exact Eh | now rewrite Ec |].
  intros k sa' Hk. rewrite Es in Hk. now exists sa'.
Qed.

Lemma line_inStep (st : State) (l : string) (new : list Message) :
  inStep st new -> exists new', inStep (line st l) new'.
Proof.
  intros H. rewrite processLine_eventOf.
  destruct (eventOf unmarshalType unmarshalEvent l) as [[typ ev]|]; [|now exists new].
  cbv zeta.
  match goal with
  | |- context [getOrCreateSubagentSession _ _ _ _ _ ?s] =>
      assert (H2 : inStep s new); [|generalize dependent s; intros st2 H2]
  end.
  { assert (H1 : inStep (if String.eqb typ "assistant" && String.eqb (ev_ParentToolUseID ev) ""
                         then trackTaskInputs unmarshalTaskInput ev st else st) new).
    { destruct (_ && _); [now apply trackTaskInputs_inStep | exact H]. }
    destruct (_ && _ && negb _); [|exact H1].
    rewrite completeSubagents_closeAll. now apply closeAll_inStep. }
  destruct (negb (String.eqb (ev_ParentToolUseID ev) "")).
  - pose proof (getOrCreate_inStep (ev_ParentToolUseID ev) st2 new H2) as H3.
    destruct (getOrCreateSubagentSession _ _ _ _ _ st2) as [st3 [key|]]; cbn [fst] in H3;
      [|now exists new].
    exists new. destruct (String.eqb typ "assistant");
      [now apply subagentAssistant_inStep | now apply subagentUser_inStep].
  - destruct (String.eqb typ "assistant").
    + unfold topAssistant. cbv zeta.
      destruct (negb _ || isNil _).
      * destruct (flushAssistant_inStep st2 new H2) as (new1 & H3 & _).
        destruct (flushUser_inStep _ new1 H3) as (new2 & H4).
        exists new2. revert H4. now apply setPending_inStep.
      * exists new. revert H2. now apply setPending_inStep.
    + unfold topUser. cbv zeta.
      destruct (flushAssistant_inStep st2 new H2) as (new1 & H3 & _).
      exists new1. revert H3. now apply setPending_inStep.
Qed.

Lemma scan_inStep (lines : list string) :
  forall st new, inStep st new -> exists new', inStep (scanning lines st) new'.
Proof.
  unfold scan. induction lines as [|l lines IH]; intros st new H; [now exists new|].
  cbn [fold_left]. destruct (line_inStep st l new H) as (new1 & H1). now apply (IH _ new1).
Qed.

Lemma processStream_inStep (lines : list string) (scanErr : option string) :
  exists new,
    inStep (fst (processStream cm ccSubagentBridge unmarshalType unmarshalEvent
                   unmarshalTaskInput unmarshalString unmarshalBlocks utf8_runes caseTable
                   rangeOrder lines scanErr (enter h hist))) new.
Proof.
  unfold processStream, deferred. cbn [fst].
  destruct (scan_inStep lines (enter h hist) []) as (new1 & H1).
  { cbn. rewrite app_nil_r. unfold handed. destruct (recordSet (h cm)); rewrite ?app_nil_r;
      repeat split; try reflexivity; intros key sa Hk; now rewrite lookup_empty in Hk. }
  destruct (flushAssistant_inStep _ new1 H1) as (new2 & H2 & _).
  destruct (flushUser_inStep _ new2 H2) as (new3 & H3).
  exists new3. now apply closeAll_inStep.
Qed.

End Recorded.

(** X21. Provided the bridge keeps away from the main conversation (it does not
    change the main manager and never hands it out for a sub-agent): what a
    stream appends to the history of the loop is, message by message and in
    the same order, what it hands to [recordMessage] of the main manager,
    when that manager has one; nothing else is recorded there, and without a
    [recordMessage] nothing is. *)
Theorem main_record_follows_history :
  forall (cm : ptr)
         (ccSubagentBridge : option (string -> string -> string -> Heap -> Heap * result ptr))
         (unmarshalType : string -> option string)
         (unmarshalEvent : string -> option StreamEvent)
         (unmarshalTaskInput : string -> ccTaskInput)
         (unmarshalString : string -> option string)
         (unmarshalBlocks : string -> option (list Block))
         (utf8_runes : string -> list Z) (caseTable : Z -> Z)
         (rangeOrder : gmap string ccSubagentSession -> list string)
         (lines : list string) (scanErr : option string) (h : Heap) (hist : list Message),
    bridgeApart cm ccSubagentBridge ->
    let final := fst (processStream cm ccSubagentBridge unmarshalType unmarshalEvent
                        unmarshalTaskInput unmarshalString unmarshalBlocks utf8_runes
                        caseTable rangeOrder lines scanErr (enter h hist)) in
    exists new : list Message,
      history final = hist ++ new /\
      recorded (heap final cm) = recorded (h cm) ++ handed h cm new /\
      recordSet (heap final cm) = recordSet (h cm).
Proof.
  intros cm bridge uT uE uTI uS uB runes ct order lines scanErr h hist Hapart. cbv zeta.
  destruct (processStream_inStep cm bridge uT uE uTI uS uB runes ct order h hist Hapart
              lines scanErr) as (new & H1 & H2 & H3 & _).
  now exists new.
Qed.

Lemma main_record_follows_history_witness :
  bridgeApart 0%nat toyBridge /\
  exists new : list Message,
    history (fst (processStream 0%nat toyBridge toyType toyEvent toyTaskInput
                    toyUnmarshalString toyUnmarshalBlocks Slug.runes (fun r => r) mapOrder
                    wholeStream None (enter idleHeap []))) = [] ++ new /\
    recorded (heap (fst (processStream 0%nat toyBridge toyType toyEvent toyTaskInput
                           toyUnmarshalString toyUnmarshalBlocks Slug.runes (fun r => r)
                           mapOrder wholeStream None (enter idleHeap []))) 0%nat) =
      recorded (idleHeap 0%nat) ++ handed idleHeap 0%nat new /\
    recordSet (heap (fst (processStream 0%nat toyBridge toyType toyEvent toyTaskInput
                            toyUnmarshalString toyUnmarshalBlocks Slug.runes (fun r => r)
                            mapOrder wholeStream None (enter idleHeap []))) 0%nat) =
      recordSet (idleHeap 0%nat).
Proof.
  assert (Hapart : bridgeApart 0%nat toyBridge).
  { intros bridge slug parentID dir g [= <-]. cbn. split; [reflexivity | discriminate]. }
  split; [exact Hapart|].
  exact (main_record_follows_history 0%nat toyBridge toyType toyEvent toyTaskInput
           toyUnmarshalString toyUnmarshalBlocks Slug.runes (fun r => r) mapOrder
           wholeStream None idleHeap [] Hapart).
Defined.

End StreamProps.


(* ===================================================================== *)
(** * Properties of [New] and [Migrate]                                 *)
(* ===================================================================== *)

Module DBOpenProps.

Import DB DBOpen DBProps GoStringsProps.

Lemma strings_Contains_append_l (s t sub : string) :
  strings_Contains s sub = true -> strings_Contains (s +:+ t) sub = true.
Proof.
  induction s as [|c s IH]; cbn [strings_Contains].
  - rewrite orb_false_r. intros H. destruct sub; [|discriminate H].
    now destruct t.
  - intros H. apply orb_true_iff in H as [H | H].
    + pose proof (prefix_app_true sub (String c s) t H) as Hp.
      change (String c s +:+ t) with (String c (s +:+ t)) in *.
      cbn [strings_Contains]. now rewrite Hp.
    + change (String c s +:+ t) with (String c (s +:+ t)).
      cbn [strings_Contains]. rewrite (IH H). apply orb_true_r.
Qed.

Lemma strings_Contains_append_r (s t sub : string) :
  strings_Contains t sub = true -> strings_Contains (s +:+ t) sub = true.
Proof.
  intros H. induction s as [|c s IH]; [exact H|].
  change (String c s +:+ t) with (String c (s +:+ t)).
  cbn [strings_Contains]. rewrite IH. apply orb_true_r.
Qed.

(** X9. [New] refuses an empty DSN and ":memory:" before it touches anything.
    The DSN of the pool is the configured one with "?_foreign_keys=on" added
    when it has no '?', with "&_foreign_keys=on" added when it has a '?' but
    does not name [_foreign_keys], and unchanged when it has both; so it
    always begins with the configured DSN, has a '?' and names
    [_foreign_keys]. [New] succeeds exactly when the DSN is neither empty nor
    ":memory:", the directory is there or can be made, and the pool opens with
    that DSN and three readers; a failure to make the directory or to open
    the pool is returned under its own heading, and the pool is not opened
    after the directory failed. *)
Theorem New_foreign_keys :
  forall (World Pool : Type) (filepath_Dir : string -> string)
         (os_MkdirAll : string -> World -> World * option string)
         (NewPool : string -> nat -> World -> World * result Pool)
         (cfg : Config) (w : World),
    let open := New World Pool filepath_Dir os_MkdirAll NewPool in
    let dsn := poolDSN (DSN cfg) in
    open {| DSN := "" |} w = (w, Err "database DSN cannot be empty") /\
    open {| DSN := ":memory:" |} w =
      (w, Err ":memory: database not supported (requires multiple connections); use a temp file") /\
    (if strings_Contains (DSN cfg) "?" then
       if strings_Contains (DSN cfg) "_foreign_keys" then dsn = DSN cfg
       else dsn = DSN cfg +:+ "&_foreign_keys=on"
     else dsn = DSN cfg +:+ "?_foreign_keys=on") /\
    String.prefix (DSN cfg) dsn = true /\
    strings_Contains dsn "?" = true /\
    strings_Contains dsn "_foreign_keys" = true /\
    (if String.eqb (DSN cfg) "" || String.eqb (DSN cfg) ":memory:" then
       exists err, open cfg w = (w, Err err)
     else
       let dir := filepath_Dir (DSN cfg) in
       let '(w1, failed) :=
         if String.eqb dir "." || String.eqb dir "" then (w, None) else os_MkdirAll dir w in
       match failed with
       | Some err => open cfg w = (w1, Err ("failed to create database directory: " +:+ err))
       | None =>
           match NewPool dsn 3%nat w1 with
           | (w2, Ok pool) => open cfg w = (w2, Ok pool)
           | (w2, Err err) =>
               open cfg w = (w2, Err ("failed to create connection pool: " +:+ err))
           end
       end).
Proof.
  intros World Pool Dir Mkdir NewPool cfg w open dsn. subst open dsn.
  split; [reflexivity|]. split; [reflexivity|].
  split; [|split; [|split; [|split]]].
  - unfold poolDSN. now destruct (strings_Contains (DSN cfg) "?"),
      (strings_Contains (DSN cfg) "_foreign_keys").
  - unfold poolDSN.
    destruct (strings_Contains (DSN cfg) "?"); cbn [negb]; [|apply prefix_append].
    destruct (strings_Contains (DSN cfg) "_foreign_keys"); cbn [negb];
      [apply prefix_refl | apply prefix_append].
  - unfold poolDSN.
    destruct (strings_Contains (DSN cfg) "?") eqn:Cq; cbn [negb];
      [|now apply strings_Contains_append_r].
    destruct (strings_Contains (DSN cfg) "_foreign_keys"); cbn [negb];
      [exact Cq | now apply strings_Contains_append_l].
  - unfold poolDSN.
    destruct (strings_Contains (DSN cfg) "?") eqn:Cq; cbn [negb];
      [|now apply strings_Contains_append_r].
    destruct (strings_Contains (DSN cfg) "_foreign_keys") eqn:Cf; cbn [negb];
      [exact Cf | now apply strings_Contains_append_r].
  - unfold New.
    destruct (String.eqb (DSN cfg) ""); cbn [orb]; [now eexists|].
    destruct (String.eqb (DSN cfg) ":memory:"); cbn [orb negb]; [now eexists|].
    destruct (String.eqb (Dir (DSN cfg)) "."); cbn [orb negb andb].
    + now destruct (NewPool (poolDSN (DSN cfg)) 3%nat w) as [w2 [pool|err]].
    + destruct (String.eqb (Dir (DSN cfg)) ""); cbn [negb].
      * now destruct (NewPool (poolDSN (DSN cfg)) 3%nat w) as [w2 [pool|err]].
      * destruct (Mkdir (Dir (DSN cfg)) w) as [w1 [err|]]; [reflexivity|].
        now destruct (NewPool (poolDSN (DSN cfg)) 3%nat w1) as [w2 [pool|err]].
Qed.


(** ** [Migrate]: failures *)

Section MigrateFailures.

Variable Schema : Type.
Variable schemaFS : result (list DirEntry).
Variable exec_sql : string -> Database Schema -> result (Database Schema).
Variable insertAllowed : list (Z * string) -> Z -> string -> bool.

Local Abbreviation run := (runMigrations Schema schemaFS exec_sql insertAllowed).

Lemma run_prefix (ms : list string) :
  forall (executed : list Z) (db db' : Database Schema) (ran : list string)
         (err : option string),
    Forall (fun m => MatchString m = true) ms ->
    run executed ms db = (db', ran, err) ->
    ran `prefix_of` List.filter (pending executed) ms /\
    match err with
    | None => ran = List.filter (pending executed) ms
    | Some e =>
        exists (done : list string) (bad cause : string),
          ran = done ++ [bad] /\
          (e = "failed to execute migration " +:+ bad +:+ ": " +:+ cause \/
           e = "failed to record migration " +:+ bad +:+ " in migrations table: " +:+ cause)
    end.
Proof.
  induction ms as [|m ms IH]; intros executed db db' ran err Hall Hrun.
  - cbn in Hrun. injection Hrun as <- <- <-. now split.
  - inversion Hall as [|? ? Hm Hms]; subst.
    destruct (MatchString_number m Hm) as (digits & n & EF & EA & _ & EN).
    assert (Hp : pending executed m = negb (inZ n executed))
      by (unfold pending; now rewrite EN).
    cbn [runMigrations List.filter] in *. rewrite Hp.
    rewrite EF, EA in Hrun.
    destruct (inZ n executed) eqn:Ein; cbn [negb] in *.
    + now apply (IH _ _ _ _ _ Hms Hrun).
    + destruct (executeMigration _ _ _ m db) as [db1|cause] eqn:Eexec.
      * destruct (insertMigration _ _ n m db1) as [db2|cause] eqn:Eins.
        -- destruct (run executed ms db2) as [[db'' ran'] err'] eqn:Erest.
           injection Hrun as <- <- <-.
           destruct (IH _ _ _ _ _ Hms Erest) as [H1 H2].
           split; [now apply prefix_cons|].
           destruct err' as [e|]; [|now rewrite H2].
           destruct H2 as (done & bad & cause & -> & He).
           exists (m :: done), bad, cause. now split.
        -- injection Hrun as <- <- <-. split.
           ++ apply prefix_cons, prefix_nil.
           ++ exists [], m, cause. split; [reflexivity | now right].
      * injection Hrun as <- <- <-. split.
        -- apply prefix_cons, prefix_nil.
        -- exists [], m, cause. split; [reflexivity | now left].
Qed.

End MigrateFailures.


(** ** [Migrate]: the order of the numbers *)

Lemma ascii_compare_Z (a b : ascii) :
  match Ascii.compare a b with
  | Eq => a = b
  | Lt => Z.of_nat (nat_of_ascii a) < Z.of_nat (nat_of_ascii b)
  | Gt => Z.of_nat (nat_of_ascii a) > Z.of_nat (nat_of_ascii b)
  end.
Proof.
  unfold Ascii.compare, nat_of_ascii.
  destruct (N.compare_spec (N_of_ascii a) (N_of_ascii b)) as [E|L|G].
  - rewrite <- (ascii_N_embedding a), <- (ascii_N_embedding b). now rewrite E.
  - lia.
  - lia.
Qed.

Lemma migrationNumberOf_digits (d1 d2 d3 : ascii) (rest : string) :
  MatchString (String d1 (String d2 (String d3 rest))) = true ->
  migrationNumberOf (String d1 (String d2 (String d3 rest))) =
    Some (100 * (Z.of_nat (nat_of_ascii d1) - 48) + 10 * (Z.of_nat (nat_of_ascii d2) - 48)
          + (Z.of_nat (nat_of_ascii d3) - 48)) /\
  48 <= Z.of_nat (nat_of_ascii d1) <= 57 /\ 48 <= Z.of_nat (nat_of_ascii d2) <= 57 /\
  48 <= Z.of_nat (nat_of_ascii d3) <= 57.
Proof.
  unfold MatchString, migrationNumberOf.
  destruct rest as [|sep rest]; [discriminate|].
  cbn [FindStringSubmatch].
  destruct (isDigit d1) eqn:D1; [|discriminate].
  destruct (isDigit d2) eqn:D2; [|discriminate].
  destruct (isDigit d3) eqn:D3; [|discriminate].
  destruct (Ascii.eqb sep "-") eqn:T1; [|discriminate].
  destruct (matchesTail rest) eqn:T2; [|discriminate].
  cbn [andb]. intros _.
  pose proof (isDigit_range _ D1). pose proof (isDigit_range _ D2).
  pose proof (isDigit_range _ D3).
  destruct (isDigit_not_sign _ D1) as [S1 S2].
  unfold Atoi. rewrite S1, S2. cbn [orb digitsValue]. rewrite D1, D2, D3.
  match goal with
  | |- context [(- 2 ^ 63 <=? ?v) && (?v <? 2 ^ 63)] =>
      assert (R : (- 2 ^ 63 <=? v) && (v <? 2 ^ 63) = true)
  end.
  { apply andb_true_iff. rewrite Z.leb_le, Z.ltb_lt.
    change (2 ^ 63) with 9223372036854775808. lia. }
  rewrite R. split; [f_equal; lia | lia].
Qed.

Lemma lexLe_numberLe (a b : string) :
  MatchString a = true -> MatchString b = true -> lexLe a b -> numberLe a b.
Proof.
  intros Ha Hb. unfold lexLe, numberLe, String.leb.
  destruct a as [|a1 [|a2 [|a3 ra]]]; try discriminate Ha.
  destruct b as [|b1 [|b2 [|b3 rb]]]; try discriminate Hb.
  destruct (migrationNumberOf_digits a1 a2 a3 ra Ha) as (-> & A1 & A2 & A3).
  destruct (migrationNumberOf_digits b1 b2 b3 rb Hb) as (-> & B1 & B2 & B3).
  cbn [String.compare].
  pose proof (ascii_compare_Z a1 b1) as C1. pose proof (ascii_compare_Z a2 b2) as C2.
  pose proof (ascii_compare_Z a3 b3) as C3.
  destruct (Ascii.compare a1 b1); [|intros _; lia | discriminate].
  destruct (Ascii.compare a2 b2); [|intros _; subst; lia | discriminate].
  destruct (Ascii.compare a3 b3); [|intros _; subst; lia | discriminate].
  intros _. subst. lia.
Qed.

(** X11. [sort.Strings] puts the migration files in the order of their numbers:
    the names are compared as text, and since every name begins with exactly
    three digits, [Migrate] walks the files by ascending number, as its
    comment "Sort migrations by number" says. *)
Theorem migrations_sorted_by_number :
  forall schemaFS : list DirEntry,
    StronglySorted numberLe (migrationFiles schemaFS).
Proof.
  intros schemaFS.
  assert (Hall : Forall (fun m => MatchString m = true) (migrationFiles schemaFS)).
  { eapply Forall_impl; [apply migrationFiles_match|]. now intros m [H _]. }
  pose proof (sort_Strings_strongly
    (map Name (List.filter (fun e => negb (IsDir e) && MatchString (Name e)) schemaFS)))
    as Hsorted.
  fold (migrationFiles schemaFS) in Hsorted.
  induction Hsorted as [|a l Hl IH Ha]; [constructor|].
  inversion Hall as [|? ? Hma Hml]; subst.
  constructor; [now apply IH|].
  rewrite Forall_forall in *. intros b Hb.
  apply lexLe_numberLe; [exact Hma | now apply Hml | now apply Ha].
Qed.


(** ** The slugs of the attempts *)

Lemma itoa_inj (j k : nat) : itoa j = itoa k -> j = k.
Proof.
  unfold itoa. intros H. apply Unsigned.to_uint_inj.
  apply (f_equal NilEmpty.uint_of_string) in H. rewrite !NilEmpty.usu in H.
  now injection H.
Qed.

Lemma append_cancel (s x y : string) : s +:+ x = s +:+ y -> x = y.
Proof.
  induction s as [|c s IH]; [easy|].
  change (String c s +:+ x) with (String c (s +:+ x)).
  change (String c s +:+ y) with (String c (s +:+ y)). intros [= H]. now apply IH.
Qed.

Lemma attemptSlug_inj (baseSlug : string) (j k : nat) :
  attemptSlug baseSlug j = attemptSlug baseSlug k -> j = k.
Proof.
  assert (Hbase : forall n, baseSlug <> baseSlug +:+ "-" +:+ itoa (S n)).
  { intros n H. apply (f_equal String.length) in H. revert H.
    induction baseSlug as [|c s IH]; [discriminate|].
    change (String c s +:+ "-" +:+ itoa (S n)) with (String c (s +:+ "-" +:+ itoa (S n))).
    cbn [String.length]. intros [= H]. now apply IH. }
  unfold attemptSlug. destruct j as [|j], k as [|k]; intros H.
  - reflexivity.
  - now apply Hbase in H.
  - symmetry in H. now apply Hbase in H.
  - apply append_cancel in H. apply (append_cancel "-") in H. now apply itoa_inj.
Qed.

(** X12. The loop of [GetOrCreateSubagentConversation] never tries a slug twice:
    the slugs of its 100 attempts -- the requested one, then the requested
    one with -1, -2, ... -99 -- are pairwise different. *)
Theorem retry_slugs_distinct :
  forall baseSlug : string, NoDup (map (attemptSlug baseSlug) (seq 0 100)).
Proof.
  intros baseSlug. change (NoDup (attemptSlug baseSlug <$> seq 0 100)).
  apply NoDup_fmap_2; [|apply NoDup_seq].
  intros j k. apply attemptSlug_inj.
Qed.

End DBOpenProps.


(* ===================================================================== *)
(** * Properties of the runner                                          *)
(* ===================================================================== *)

Module RunnerProps.

Import ClaudeCode GoStrings Runner.

Lemma hasColon_cons (c : ascii) (s : string) :
  hasColon (String c s) = Ascii.eqb ":" c || hasColon s.
Proof. reflexivity. Qed.

Lemma strings_Split_last (s : string) :
  exists (parts : list string) (lst : string),
    strings_Split s ":" = parts ++ [lst] /\ hasColon lst = false /\
    match parts with
    | [] => s = lst /\ hasColon s = false
    | _ :: _ => exists host, s = host +:+ ":" +:+ lst
    end.
Proof.
  induction s as [|c s (parts & lst & E & Hl & Hs)].
  - exists [], EmptyString. now repeat split.
  - cbn [strings_Split]. rewrite E.
    destruct (Ascii.eqb_spec c ":") as [-> | Hne].
    + destruct parts as [|p ps]; cbn [app].
      * destruct Hs as [-> _]. exists [EmptyString], lst. repeat split; [exact Hl|].
        now exists EmptyString.
      * destruct Hs as [host ->]. exists (EmptyString :: p :: ps), lst.
        repeat split; [exact Hl|]. now exists (String ":" host).
    + assert (Hc : Ascii.eqb ":" c = false).
      { destruct (Ascii.eqb_spec ":" c) as [<- |]; [contradiction | reflexivity]. }
      destruct parts as [|p ps]; cbn [app].
      * destruct Hs as [-> Hs]. exists [], (String c lst).
        rewrite hasColon_cons, Hc, Hl. now repeat split.
      * destruct Hs as [host ->]. exists (String c p :: ps), lst.
        repeat split; [exact Hl|]. now exists (String c host).
Qed.

(** X13. The port [run] puts in the URL of the MCP endpoint is the text after the
    last ':' of the listen address -- so it has no ':' itself, and it is empty
    when the address ends in ':' -- and "8000" when the address has no ':'. *)
Theorem listenPort_after_last_colon :
  forall listenAddr : string,
    if hasColon listenAddr
    then hasColon (listenPort listenAddr) = false /\
         exists host, listenAddr = host +:+ ":" +:+ listenPort listenAddr
    else listenPort listenAddr = "8000"%string.
Proof.
  intros addr. unfold listenPort. cbv zeta.
  destruct (strings_Split_last addr) as (parts & lst & E & Hl & Hs). rewrite E.
  destruct parts as [|p ps].
  - destruct Hs as [-> Hs]. now rewrite Hs.
  - destruct Hs as [host Eh].
    assert (Hc : hasColon addr = true).
    { rewrite Eh. clear. induction host as [|c host IH]; [reflexivity|].
      change (String c host +:+ ":" +:+ lst) with (String c (host +:+ ":" +:+ lst)).
      rewrite hasColon_cons, IH. apply orb_true_r. }
    rewrite Hc.
    assert (El : (1 <? length ((p :: ps) ++ [lst]))%nat = true).
    { apply Nat.ltb_lt. rewrite length_app. cbn. lia. }
    rewrite El, last_last. split; [exact Hl | now exists host].
Qed.


(** ** The result of [run] *)

Lemma last_app_default {A : Type} (a b : list A) (d : A) :
  List.last (a ++ b) d = List.last b (List.last a d).
Proof.
  revert d. induction a as [|x a IH]; intros d; [reflexivity|].
  destruct a as [|y a].
  - cbn [app]. destruct b as [|z b]; [reflexivity|]. cbn [List.last].
    clear. revert z. induction b as [|u b IHb]; intros z; [reflexivity|].
    cbn [List.last]. apply IHb.
  - change ((x :: y :: a) ++ b) with (x :: (y :: a) ++ b).
    change (List.last (x :: (y :: a) ++ b) d) with (List.last ((y :: a) ++ b) d).
    rewrite IH. reflexivity.
Qed.

Lemma fold_addBlock (cs : list claudeStreamContent) :
  forall acc, snd (fold_left addBlock cs acc) = snd acc || existsb kept cs.
Proof.
  induction cs as [|c cs IH]; intros acc; [now rewrite orb_false_r|].
  cbn [fold_left existsb]. rewrite IH. unfold addBlock, kept.
  destruct (String.eqb (csc_Type c) "text"); cbn; [now rewrite orb_true_r|].
  destruct (String.eqb (csc_Type c) "tool_use"); cbn; [now rewrite orb_true_r|].
  destruct (String.eqb (csc_Type c) "tool_result"); cbn; [now rewrite orb_true_r|].
  reflexivity.
Qed.

Section RunLaws.

Variable World : Type.
Variable Created : Type.
Variable Conversation : Type.
Variable SequenceID : Created -> Z.
Variable CreateMessage : string -> string -> Message -> World -> World * result Created.
Variable GetConversation : string -> World -> World * Conversation.
Variable Publish : ptr -> Z -> Created -> Conversation -> World -> World.
Variable unmarshalEvent : string -> option subagentStreamEvent.

Local Abbreviation runLine :=
  (runLine World Created Conversation SequenceID CreateMessage GetConversation Publish
     unmarshalEvent).

(** What a line does to [finalResult]. *)
Lemma runLine_result (manager : ptr) (conversationID : string) (w : World)
    (finalResult line : string) :
  snd (runLine manager conversationID (w, finalResult) line) =
  List.last (results unmarshalEvent [line]) finalResult.
Proof.
  unfold Runner.runLine, results. cbn [flat_map]. rewrite app_nil_r.
  destruct (String.eqb line ""); [reflexivity|].
  destruct (unmarshalEvent line) as [ev|]; [|reflexivity].
  destruct (String.eqb (e_Type ev) "assistant" || String.eqb (e_Type ev) "user").
  - destruct (fold_left addBlock _ _) as [content [|]]; reflexivity.
  - destruct (String.eqb (e_Type ev) "result"); reflexivity.
Qed.

Lemma runLoop_result (manager : ptr) (conversationID : string) (lines : list string) :
  forall (w : World) (finalResult : string),
    snd (fold_left (runLine manager conversationID) lines (w, finalResult)) =
    List.last (results unmarshalEvent lines) finalResult.
Proof.
  induction lines as [|l lines IH]; intros w fr; [reflexivity|].
  cbn [fold_left].
  destruct (runLine manager conversationID (w, fr) l) as [w1 fr1] eqn:E.
  rewrite IH. change (l :: lines) with ([l] ++ lines).
  unfold results at 2. rewrite flat_map_app. fold (results unmarshalEvent [l]).
  fold (results unmarshalEvent lines). rewrite last_app_default.
  f_equal. rewrite <- (runLine_result manager conversationID w fr l), E. reflexivity.
Qed.

(** What a line does to the world. *)
Lemma runLine_world (manager : ptr) (conversationID : string) (w : World)
    (finalResult line : string) :
  fst (runLine manager conversationID (w, finalResult) line) =
  if stores unmarshalEvent line
  then fst (runLine manager conversationID (w, EmptyString) line)
  else w.
Proof.
  unfold Runner.runLine, stores.
  destruct (String.eqb line ""); [reflexivity|]. cbn [negb andb].
  destruct (unmarshalEvent line) as [ev|]; [|reflexivity].
  destruct (String.eqb (e_Type ev) "assistant" || String.eqb (e_Type ev) "user"); cbn [andb].
  - pose proof (fold_addBlock (csm_Content (e_Message ev)) ([], false)) as H.
    destruct (fold_left addBlock _ _) as [content has]. cbn [fst snd orb] in H. subst has.
    destruct (existsb kept _); reflexivity.
  - destruct (String.eqb (e_Type ev) "result"); reflexivity.
Qed.

Lemma runLoop_world (manager : ptr) (conversationID : string) (lines : list string) :
  forall (w : World) (fr fr' : string),
    fst (fold_left (runLine manager conversationID) lines (w, fr)) =
    fst (fold_left (runLine manager conversationID)
           (List.filter (stores unmarshalEvent) lines) (w, fr')).
Proof.
  induction lines as [|l lines IH]; intros w fr fr'; [reflexivity|].
  cbn [fold_left List.filter].
  pose proof (runLine_world manager conversationID w fr l) as H1.
  pose proof (runLine_world manager conversationID w fr' l) as H2.
  destruct (stores unmarshalEvent l).
  - cbn [fold_left].
    destruct (runLine manager conversationID (w, fr) l) as [w1 fr1].
    destruct (runLine manager conversationID (w, fr') l) as [w2 fr2].
    cbn [fst] in *. rewrite H1, <- H2. apply IH.
  - destruct (runLine manager conversationID (w, fr) l) as [w1 fr1].
    cbn [fst] in H1. subst w1. apply IH.
Qed.

End RunLaws.

(** X14. [run] returns the text of the last result event of the stream, or the
    empty text when there is none. It returns an error in four cases only:
    no manager, no pipe, no start, or a command that ends with an error
    without having given a result text; a command that ends with an error
    after a result text counts as a success. *)
Theorem run_returns_last_result :
  forall (World Created Conversation : Type) (SequenceID : Created -> Z)
         (listenAddr : string)
         (getOrCreateSubagentConversationManager : string -> World -> World * result ptr)
         (mcpFile : string -> string) (json_Marshal : string -> string)
         (os_WriteFile : string -> string -> World -> World)
         (os_Remove : string -> World -> World)
         (workingDir : ptr -> World -> World * string)
         (claude : list string -> string -> Run)
         (SetAgentWorking : ptr -> bool -> World -> World)
         (CreateMessage : string -> string -> Message -> World -> World * result Created)
         (GetConversation : string -> World -> World * Conversation)
         (Publish : ptr -> Z -> Created -> Conversation -> World -> World)
         (unmarshalEvent : string -> option subagentStreamEvent)
         (conversationID prompt : string) (w : World),
    let out :=
      snd (run World Created Conversation SequenceID listenAddr
             getOrCreateSubagentConversationManager mcpFile json_Marshal os_WriteFile
             os_Remove workingDir claude SetAgentWorking CreateMessage GetConversation
             Publish unmarshalEvent conversationID prompt w) in
    match getOrCreateSubagentConversationManager conversationID w with
    | (_, Err err) => out = Err ("failed to get conversation manager: " +:+ err)
    | (w1, Ok manager) =>
        let '(_, cwd) :=
          workingDir manager
            (os_WriteFile (mcpFile conversationID)
               (mcpConfigJSON json_Marshal (listenPort listenAddr) conversationID) w1) in
        match claude (runArgs (mcpFile conversationID) prompt) cwd with
        | PipeFails err => out = Err err
        | StartFails err => out = Err ("start claude: " +:+ err)
        | Runs lines _ waitErr =>
            let final := List.last (results unmarshalEvent lines) EmptyString in
            out = match waitErr with
                  | Some err =>
                      if String.eqb final "" then Err ("claude code error: " +:+ err)
                      else Ok final
                  | None => Ok final
                  end
        end
    end.
Proof.
  intros World Created Conversation SequenceID listenAddr getManager mcpFile json_Marshal
         os_WriteFile os_Remove workingDir claude setWorking CreateMessage GetConversation
         Publish unmarshalEvent cid prompt w out.
  subst out. unfold run.
  destruct (getManager cid w) as [w1 [manager|err]]; [|reflexivity].
  cbv zeta.
  destruct (workingDir manager _) as [w2 dir].
  destruct (claude _ dir) as [err|err|lines scanErr waitErr]; [reflexivity | reflexivity |].
  pose proof (runLoop_result World Created Conversation SequenceID CreateMessage
                GetConversation Publish unmarshalEvent manager cid lines
                (createAndPublish World Created Conversation SequenceID CreateMessage
                   GetConversation Publish manager cid AgentWorking.MessageTypeUser
                   {| Role := MessageRoleUser; Contents := [textContent prompt];
                      EndOfTurn := false |} (setWorking manager true w2))
                EmptyString) as H.
  destruct (fold_left _ lines _) as [w3 finalResult]. cbn [snd] in H. subst finalResult.
  destruct waitErr as [err|]; [|reflexivity].
  destruct (String.eqb _ ""); reflexivity.
Qed.

(** X15. [run] stores and publishes a message only for an assistant or user event
    that has a text, tool-use or tool-result block. Every other line -- an
    empty or undecodable one, a result event or an event of another type, an
    event whose blocks are all of other kinds, thinking included -- leaves
    the database and the subscribers alone: the loop leaves the world it
    leaves without those lines. *)
Theorem run_stores_events_with_content :
  forall (World Created Conversation : Type) (SequenceID : Created -> Z)
         (CreateMessage : string -> string -> Message -> World -> World * result Created)
         (GetConversation : string -> World -> World * Conversation)
         (Publish : ptr -> Z -> Created -> Conversation -> World -> World)
         (unmarshalEvent : string -> option subagentStreamEvent)
         (manager : ptr) (conversationID : string) (lines : list string) (w : World)
         (finalResult : string),
    let loop :=
      fold_left (runLine World Created Conversation SequenceID CreateMessage
                   GetConversation Publish unmarshalEvent manager conversationID) in
    fst (loop lines (w, finalResult)) =
    fst (loop (List.filter (stores unmarshalEvent) lines) (w, finalResult)) /\
    forall line,
      fst (loop [line] (w, finalResult)) =
      if stores unmarshalEvent line then
        match unmarshalEvent line with
        | Some ev =>
            createAndPublish World Created Conversation SequenceID CreateMessage
              GetConversation Publish manager conversationID
              (if String.eqb (e_Type ev) "user" then AgentWorking.MessageTypeUser
               else AgentWorking.MessageTypeAgent)
              {| Role := if String.eqb (e_Type ev) "user" then MessageRoleUser
                         else MessageRoleAssistant;
                 Contents := fst (fold_left addBlock (csm_Content (e_Message ev)) ([], false));
                 EndOfTurn := false |} w
        | None => w
        end
      else w.
Proof.
  intros. subst loop. cbv beta. split; [apply runLoop_world|].
  intros line. cbn [fold_left]. rewrite runLine_world.
  destruct (stores unmarshalEvent line) eqn:Es; [|reflexivity].
  unfold stores in Es. unfold runLine.
  destruct (String.eqb line ""); [discriminate|]. cbn [negb andb] in Es.
  destruct (unmarshalEvent line) as [ev|]; [|discriminate].
  apply andb_true_iff in Es as [Et Ek]. rewrite Et.
  pose proof (fold_addBlock (csm_Content (e_Message ev)) ([], false)) as H.
  destruct (fold_left addBlock _ _) as [content has]. cbn [fst snd orb] in H.
  rewrite Ek in H. subst has. reflexivity.
Qed.

End RunnerProps.


(* ===================================================================== *)
(** * Properties of [parseSkillPreamble]                                *)
(* ===================================================================== *)

Module SkillProps.

Import GoStrings GoStringsProps Skill.

(** The table of [TestParseSkillPreamble]. *)
Example parseSkillPreamble_runs :
  map (parseSkillPreamble trimASCII)
    [ text ["---"; "name: test-skill"; "description: A simple test skill"; "---";
            "# Test Skill"];
      text ["---"; "name: pdf-processor"; "description: >";
            "  Process PDF files including extraction,"; "  form filling, and merging.";
            "---"; "# PDF Processor"];
      text ["---"; "name: code-reviewer"; "description: |"; "  Reviews code for quality.";
            "  Checks for common issues."; "---"];
      text ["---"; "name: minimal-skill"; "---"; "# Minimal"];
      text ["---"; "description: A skill without a name"; "---"];
      text ["# Just a markdown file"] ]%string
  = [ Ok "test-skill: A simple test skill";
      Ok "pdf-processor: Process PDF files including extraction, form filling, and merging.";
      Ok "code-reviewer: Reviews code for quality. Checks for common issues.";
      Ok "minimal-skill";
      Ok "";
      Ok "" ]%string.
Proof. vm_compute. reflexivity. Qed.


Lemma prefix_dashes (content : string) :
  String.prefix "---" content = true ->
  exists rest, content = String "-" (String "-" (String "-" rest)).
Proof.
  destruct content as [|a [|b [|c rest]]]; cbn [String.prefix];
    repeat match goal with
           | |- context [ascii_dec ?x ?y] => destruct (ascii_dec x y) as [<- |]
           end;
    try discriminate.
  intros _. now exists rest.
Qed.

Lemma sliceFrom_dashes (rest : string) :
  sliceFrom 3 (String "-" (String "-" (String "-" rest))) = rest.
Proof. unfold sliceFrom. cbn. rewrite Nat.sub_0_r. apply substring_whole. Qed.

(** X16. [parseSkillPreamble] panics on a front matter with nothing in it, and
    only there: the slice [content[4 : endIdx+3]] has its bounds out of order
    exactly when the content begins with "---", a newline and "---". *)
Theorem parseSkillPreamble_panics_on_empty_front_matter :
  forall (strings_TrimSpace : string -> string) (content : string),
    panics (parseSkillPreamble strings_TrimSpace content) =
    String.prefix ("---" +:+ closing) content.
Proof.
  intros trim content. unfold parseSkillPreamble.
  change ("---" +:+ closing)%string with (String "-" (String "-" (String "-" closing))).
  destruct (String.prefix "---" content) eqn:P; cbn [negb].
  - destruct (prefix_dashes content P) as [rest ->]. rewrite sliceFrom_dashes.
    cbn [String.prefix].
    repeat match goal with
           | |- context [ascii_dec ?x ?y] => destruct (ascii_dec x y); [|contradiction]
           end.
    rewrite (strings_Index_first rest closing).
    destruct (strings_Index rest closing) as [[|i]|]; [reflexivity | | reflexivity].
    replace (S i + 3 <? 4)%nat with false by (symmetry; apply Nat.ltb_ge; lia).
    destruct (fields trim _ _ _) as [name description].
    destruct (String.eqb name ""); [reflexivity|].
    now destruct (String.eqb description "").
  - cbn [panics]. symmetry.
    destruct content as [|a [|b [|c rest]]]; cbn [String.prefix] in *;
      repeat match goal with
             | |- context [ascii_dec ?x ?y] => destruct (ascii_dec x y) as [<- |]
             | H : context [ascii_dec ?x ?y] |- _ => destruct (ascii_dec x y) as [<- |]
             end;
      try reflexivity; try discriminate; try contradiction.
    destruct rest; discriminate P.
Qed.

(** X17. Once the front matter is closed, what follows is never read: text added
    after a closed front matter changes nothing in what [parseSkillPreamble]
    returns. *)
Theorem parseSkillPreamble_ignores_the_body :
  forall (strings_TrimSpace : string -> string) (content more : string),
    if closed content
    then parseSkillPreamble strings_TrimSpace (content +:+ more) =
         parseSkillPreamble strings_TrimSpace content
    else True.
Proof.
  intros trim content more. unfold closed.
  destruct (String.prefix "---" content) eqn:P; [|exact I]. cbn [andb].
  destruct (strings_Index (sliceFrom 3 content) closing) as [i|] eqn:Ei; [|exact I].
  unfold parseSkillPreamble.
  rewrite (prefix_app_true _ _ more P), P, Ei. cbn [negb].
  destruct (prefix_dashes content P) as [rest ->]. rewrite sliceFrom_dashes in Ei.
  change (String "-" (String "-" (String "-" rest)) +:+ more)
    with (String "-" (String "-" (String "-" (rest +:+ more)))).
  rewrite sliceFrom_dashes, (strings_Index_app rest more closing i Ei).
  destruct (i + 3 <? 4)%nat eqn:El; [reflexivity|].
  apply Nat.ltb_ge in El.
  pose proof (strings_Index_length rest closing i Ei) as L. cbn [String.length closing] in L.
  change (String "-" (String "-" (String "-" (rest +:+ more))))
    with (String "-" (String "-" (String "-" rest)) +:+ more).
  rewrite substring_app_keep by (cbn [String.length]; lia).
  reflexivity.
Qed.

End SkillProps.


(* ===================================================================== *)
(** * Properties of [findGuidanceFilesInDir]                            *)
(* ===================================================================== *)

Module GuidanceProps.
Import Guidance.

Section Find.

Variable strings_ToLower : string -> string.
Variable filepath_Join : string -> string -> string.
Variable dir : string.

Local Abbreviation lower := (lowerName strings_ToLower).
Local Abbreviation isGuidance := (guidanceFile strings_ToLower).
Local Abbreviation turn := (visit strings_ToLower filepath_Join dir).
Local Abbreviation path := (fun entry : DirEntry => filepath_Join dir (Name entry)).

Lemma at_insert (m : gmap string bool) (k k' : string) :
  at_ (<[k := true]> m) k' = if decide (k = k') then true else at_ m k'.
Proof.
  unfold at_. destruct (decide (k = k')) as [<- | Hne].
  - now rewrite lookup_insert_eq.
  - now rewrite lookup_insert_ne.
Qed.

(** The loop from any [found] and [seen]: what it adds are the paths of
    entries [picked] in order; they are guidance files whose lower-cased
    names were not seen and differ from each other; the first guidance file
    of each name not yet seen is picked. *)
Lemma visit_fold (entries : list DirEntry) :
  forall (found : list string) (seen : gmap string bool),
  exists picked : list DirEntry,
    fst (fold_left turn entries (found, seen)) = found ++ map path picked /\
    sublist picked entries /\
    NoDup (map lower picked) /\
    (forall p, In p picked -> isGuidance p = true /\ at_ seen (lower p) = false) /\
    (forall pre entry post,
        entries = pre ++ entry :: post ->
        isGuidance entry = true -> at_ seen (lower entry) = false ->
        (forall e, In e pre -> isGuidance e = true -> lower e <> lower entry) ->
        In entry picked).
Proof.
  induction entries as [|e0 es IH]; intros found seen.
  - exists []. cbn. rewrite app_nil_r. repeat split; try easy.
    + constructor.
    + intros pre entry post E. now destruct pre.
  - cbn [fold_left]. unfold visit at 2. fold (lower e0).
    destruct (IsDir e0) eqn:Ed;
      [|destruct (at_ guidanceNames (lower e0) && negb (at_ seen (lower e0))) eqn:Eg].
    + destruct (IH found seen) as (picked & H1 & H2 & H3 & H4 & H5).
      exists picked. repeat split; try assumption.
      * now apply sublist_cons.
      * now apply H4.
      * now apply H4.
      * intros pre entry post E Hg Hs Hpre. destruct pre as [|e pre]; cbn in E.
        -- injection E as <- _. unfold guidanceFile in Hg. now rewrite Ed in Hg.
        -- injection E as <- E. apply (H5 pre entry post E Hg Hs).
           intros e' He'. apply Hpre. now right.
    + apply andb_true_iff in Eg as [Eg Es]. apply negb_true_iff in Es.
      destruct (IH (found ++ [filepath_Join dir (Name e0)]) (<[lower e0 := true]> seen))
        as (picked & H1 & H2 & H3 & H4 & H5).
      assert (Hg0 : isGuidance e0 = true).
      { unfold guidanceFile. now rewrite Ed, Eg. }
      exists (e0 :: picked). split; [|split; [|split; [|split]]].
      * rewrite H1, <- app_assoc. reflexivity.
      * now apply sublist_skip.
      * cbn [map]. apply NoDup_cons. split; [|exact H3].
        intros Hin. apply list_elem_of_In, in_map_iff in Hin as (p & Ep & Hp).
        destruct (H4 p Hp) as [_ Hs]. rewrite at_insert, Ep in Hs.
        now destruct (decide (lower e0 = lower e0)).
      * intros p [<- | Hp]; [now split|].
        destruct (H4 p Hp) as [Hg Hs]. split; [exact Hg|].
        rewrite at_insert in Hs. now destruct (decide (lower e0 = lower p)).
      * intros pre entry post E Hg Hs Hpre. destruct pre as [|e pre]; cbn in E.
        -- injection E as <- _. now left.
        -- injection E as <- E. right. apply (H5 pre entry post E Hg).
           ++ rewrite at_insert. destruct (decide (lower e0 = lower entry)) as [Ek|]; [|exact Hs].
              exfalso. apply (Hpre e0); [now left | exact Hg0 | exact Ek].
           ++ intros e' He'. apply Hpre. now right.
    + destruct (IH found seen) as (picked & H1 & H2 & H3 & H4 & H5).
      exists picked. repeat split; try assumption.
      * now apply sublist_cons.
      * now apply H4.
      * now apply H4.
      * intros pre entry post E Hg Hs Hpre. destruct pre as [|e pre]; cbn in E.
        -- injection E as <- _. unfold guidanceFile in Hg. rewrite Ed in Hg. cbn in Hg.
           now rewrite Hg, Hs in Eg.
        -- injection E as <- E. apply (H5 pre entry post E Hg Hs).
           intros e' He'. apply Hpre. now right.
Qed.

End Find.

(** X22. Of the entries of a directory, [findGuidanceFilesInDir] returns the paths
    of some of them, in the order of the directory: only files (never a
    directory) whose lower-cased name is a guidance name, no two with the
    same lower-cased name, and for each such name the first file that has
    it. A directory that cannot be read gives no paths. *)
Theorem findGuidanceFilesInDir_one_per_name :
  forall (strings_ToLower : string -> string)
         (filepath_Join : string -> string -> string)
         (os_ReadDir : string -> option (list DirEntry)) (dir : string),
    match os_ReadDir dir with
    | None => findGuidanceFilesInDir strings_ToLower filepath_Join os_ReadDir dir = []
    | Some entries =>
        exists picked : list DirEntry,
          findGuidanceFilesInDir strings_ToLower filepath_Join os_ReadDir dir =
            map (fun entry => filepath_Join dir (Name entry)) picked /\
          sublist picked entries /\
          NoDup (map (lowerName strings_ToLower) picked) /\
          forallb (guidanceFile strings_ToLower) picked = true /\
          forall pre entry post,
            entries = pre ++ entry :: post ->
            guidanceFile strings_ToLower entry = true ->
            (forall e, In e pre -> guidanceFile strings_ToLower e = true ->
                       lowerName strings_ToLower e <> lowerName strings_ToLower entry) ->
            In entry picked
    end.
Proof.
  intros lower join readDir dir. unfold findGuidanceFilesInDir.
  destruct (readDir dir) as [entries|]; [|reflexivity].
  destruct (visit_fold lower join dir entries [] ∅) as (picked & H1 & H2 & H3 & H4 & H5).
  exists picked. repeat split; try assumption.
  - apply forallb_forall. intros p Hp. now apply H4.
  - intros pre entry post E Hg Hpre. now apply (H5 pre entry post E Hg).
Qed.

End GuidanceProps.


(* ===================================================================== *)
(** * Properties of the ntfy channel                                    *)
(* ===================================================================== *)

Module NtfyProps.

Import Ntfy.

Lemma ntfyPriorities_range (name : string) (p : Z) :
  ntfyPriorities name = Some p -> 1 <= p <= 5.
Proof.
  unfold ntfyPriorities.
  repeat match goal with
         | |- context [String.eqb name ?s] => destruct (String.eqb name s)
         end; intros [= <-]; lia.
Qed.

Lemma ntfyPriorities_names (name : string) :
  negb (String.eqb name "") && priorityName name =
  match ntfyPriorities name with Some _ => true | None => false end.
Proof.
  unfold ntfyPriorities, priorityName.
  destruct (String.eqb_spec name "") as [-> |]; [reflexivity|]. cbn [negb andb orb].
  repeat match goal with
         | |- context [String.eqb name ?s] => destruct (String.eqb name s)
         end; reflexivity.
Qed.

(** X18. The factory of the ntfy channel accepts a configuration exactly when
    "server" and "topic" are strings that are not empty and "done_priority"
    and "error_priority" are each absent, empty, no string, or one of min,
    low, default, high and max. The channel it builds then has a server and a
    topic, and priorities from 1 to 5: those the configuration names, 3
    (default) for a done priority it does not name and 4 (high) for an error
    priority it does not name. *)
Theorem ntfy_factory_accepts :
  forall (strconv_Quote : string -> string) (config : gmap string any),
    isOk (newNtfy strconv_Quote config) =
      negb (String.eqb (stringAt config "server") "") &&
      negb (String.eqb (stringAt config "topic") "") &&
      priorityName (stringAt config "done_priority") &&
      priorityName (stringAt config "error_priority") /\
    match newNtfy strconv_Quote config with
    | Ok n =>
        server n = stringAt config "server" /\ topic n = stringAt config "topic" /\
        1 <= donePriority n <= 5 /\ 1 <= errorPriority n <= 5 /\
        Some (donePriority n) =
          (if String.eqb (stringAt config "done_priority") "" then Some 3
           else ntfyPriorities (stringAt config "done_priority")) /\
        Some (errorPriority n) =
          (if String.eqb (stringAt config "error_priority") "" then Some 4
           else ntfyPriorities (stringAt config "error_priority"))
    | Err _ => True
    end.
Proof.
  intros q config. unfold newNtfy. cbv zeta.
  destruct (String.eqb (stringAt config "server") ""); [now split|].
  destruct (String.eqb (stringAt config "topic") ""); [now split|].
  cbn [negb andb].
  pose proof (ntfyPriorities_names (stringAt config "done_priority")) as Hd.
  pose proof (ntfyPriorities_names (stringAt config "error_priority")) as He.
  destruct (String.eqb_spec (stringAt config "done_priority") "") as [Ed|Ed].
  - rewrite Ed. cbn [ntfyPriorities String.eqb Ascii.eqb Bool.eqb priorityName orb andb].
    destruct (String.eqb_spec (stringAt config "error_priority") "") as [Ee|Ee].
    + rewrite Ee. cbn. repeat split; lia.
    + cbn [negb andb] in He. rewrite He.
      destruct (ntfyPriorities (stringAt config "error_priority")) as [p|] eqn:Ep;
        [|now split].
      pose proof (ntfyPriorities_range _ _ Ep). cbn. repeat split; lia.
  - cbn [negb andb] in Hd. rewrite Hd.
    destruct (ntfyPriorities (stringAt config "done_priority")) as [d|] eqn:Edp;
      [|now split].
    pose proof (ntfyPriorities_range _ _ Edp). cbn [andb].
    destruct (String.eqb_spec (stringAt config "error_priority") "") as [Ee|Ee].
    + rewrite Ee. cbn. repeat split; lia.
    + cbn [negb andb] in He. rewrite He.
      destruct (ntfyPriorities (stringAt config "error_priority")) as [p|] eqn:Ep;
        [|now split].
      pose proof (ntfyPriorities_range _ _ Ep). cbn. repeat split; lia.
Qed.

End NtfyProps.

(* ===================================================================== *)
(** * More properties of the slug                                       *)
(* ===================================================================== *)

Module SlugShapeProps.

Import Slug SlugProps.

Lemma trimRightByte_last (s : list rune) (c d : rune) :
  trimRightByte s c <> [] -> List.last (trimRightByte s c) d <> c.
Proof.
  unfold trimRightByte. destruct (trimLeftByte (rev s) c) as [|x v] eqn:E; [easy|].
  intros _. cbn [rev]. rewrite last_last. eapply trimLeftByte_head, E.
Qed.

Lemma trimRightByte_twice (s : list rune) (c : rune) :
  trimRightByte (trimRightByte s c) c = trimRightByte s c.
Proof.
  destruct (trimRightByte s c) as [|x v] eqn:E; [reflexivity|].
  rewrite <- E. apply (trimRightByte_id _ c 0). apply trimRightByte_last.
  now rewrite E.
Qed.

(** X19. Every slug is made of [a-z], [0-9] and '-' only, has no "--" in it and
    does not begin with '-'; it ends in '-' only when it was cut, and then it
    has exactly 40 characters. *)
Theorem slug_alphabet :
  forall (caseTable : rune -> rune) (description : list rune),
    let s := ccDescriptionToSlug caseTable description in
    Forall (fun r => between "a" "z" r || between "0" "9" r || isRune "-" r = true) s /\
    Contains_dashdash s = false /\
    hd 0 s <> dash /\
    (List.last s 0 <> dash \/ length s = 40%nat).
Proof.
  intros caseTable x. cbv zeta.
  destruct (slug_shape caseTable x) as (H1 & H2 & H3 & _).
  split; [exact H1|]. split; [exact H2|]. split; [exact H3|].
  unfold ccDescriptionToSlug, truncate40.
  set (t := strings_Trim_dash _).
  assert (Ht : List.last t 0 <> dash).
  { unfold t, strings_Trim_dash. rewrite trim_commute.
    destruct (trimRightByte _ dash) eqn:E; [discriminate|].
    rewrite <- E. apply trimRightByte_last. now rewrite E. }
  destruct (40 <? Z.of_nat (length t)) eqn:E.
  - right. rewrite length_firstn. apply Z.ltb_lt in E. lia.
  - now left.
Qed.

(** X20. A second pass of the normaliser over a slug only removes the '-' the cut
    may have left at its end, and a third pass changes nothing: applied
    twice, the normaliser is idempotent. *)
Theorem slug_settles_after_two_passes :
  forall (caseTable : rune -> rune) (description : list rune),
    let slug := ccDescriptionToSlug caseTable in
    slug (slug description) = trimRightByte (slug description) dash /\
    slug (slug (slug description)) = slug (slug description).
Proof.
  intros caseTable x. cbv zeta.
  destruct (slug_shape caseTable x) as (H1 & H2 & H3 & H4).
  rewrite (slug_twice caseTable x). split; [reflexivity|].
  set (s := ccDescriptionToSlug caseTable x) in *.
  rewrite slug_of_slugText.
  - apply trimRightByte_twice.
  - now apply trimRightByte_Forall.
  - now apply Contains_trimRight.
  - destruct (trimRightByte s dash) eqn:E; [discriminate|].
    rewrite <- E, trimRightByte_head; [exact H3 | now rewrite E].
  - pose proof (trimRightByte_length s dash). lia.
Qed.

End SlugShapeProps.

